(** * nuvo51icp: the ICP flasher's [main], embedded and verified

    A shallow embedding of [nuvo51icp/main.c].  The program is one long
    [main] that talks to an ICP transport (the [N51ICP_*] functions), to
    stdin/stderr/stdout and to two files.  The embedding keeps that shape:
    every external call is a primitive of a small state-and-jump monad and
    is recorded, with its arguments and result, in a trace;  the three
    labels [out], [out_err] and [err] are jump targets handled at the end
    of [main]. *)

From Stdlib Require Import ZArith List String Ascii Bool Lia.
Import ListNotations.
Open Scope list_scope.
Open Scope Z_scope.

(** ** C integer conventions *)

(** Conversion to [uint8_t]. *)
Definition to_uint8 (x : Z) : Z := x mod 256.

(** Signed [int] division truncates toward zero. *)
Definition c_div (a b : Z) : Z := Z.quot a b.

(** An [int] used as a condition. *)
Definition truthy (x : Z) : bool := negb (x =? 0).

(** ** Data *)

Definition N76E003_DEVID : Z := 0x3650.

Record device_info := mk_device_info {
  devid : Z;          (* uint16_t *)
  cid : Z;            (* uint8_t *)
  uid : list Z;       (* uint8_t [12] *)
  ucid : list Z       (* uint8_t [16] *)
}.

(** Modelled from the spec: the declaration of [config_flags] (a bit-field
    structure of [n51_icp.h]) is not part of the source tree.  [main] reads
    and writes the three fields [LOCK], [CBS] and [LDS]; the spec gives [LDS]
    three bits and calls the other two single bits.  [cfg_other] stands for
    all the remaining bits of the structure, which [main] never touches. *)
Record config_flags := mk_config {
  LOCK : Z;           (* 1 bit *)
  CBS : Z;            (* 1 bit *)
  LDS : Z;            (* 3 bits *)
  cfg_other : Z
}.

Definition set_LOCK (v : Z) (c : config_flags) : config_flags :=
  mk_config (v mod 2) (CBS c) (LDS c) (cfg_other c).
Definition set_CBS (v : Z) (c : config_flags) : config_flags :=
  mk_config (LOCK c) (v mod 2) (LDS c) (cfg_other c).
Definition set_LDS (v : Z) (c : config_flags) : config_flags :=
  mk_config (LOCK c) (CBS c) (v mod 8) (cfg_other c).

(** Modelled from the spec: [CFG_FLASH_LEN] comes from the missing
    [config.h]; [blank_cfg] is initialised with five bytes and the spec
    calls the blank value all-ones, so the length is five. *)
Definition CFG_FLASH_LEN : Z := 5.

Definition blank_cfg : list Z := [0xFF; 0xFF; 0xFF; 0xFF; 0xFF].

(** [*(config_flags * )&blank_cfg]: every bit of the overlay is set, so each
    bit-field holds the largest value of its width. *)
Definition get_default_config : config_flags :=
  mk_config 1 1 7 (Z.ones (8 * CFG_FLASH_LEN - 5)).

(** What a [uint8_t *] argument of the transport points to: a byte array,
    or a [config_flags] structure passed through a cast.  A trace records a
    written buffer as it is passed and a read buffer as the call leaves it. *)
Inductive buffer :=
| Bytes (l : list Z)
| Config (c : config_flags).

(** The layout constants of [config.h] and the byte overlay of
    [config_flags], none of which is in the source tree. *)
Class Layout := {
  FLASH_SIZE : Z;
  LDROM_MAX_SIZE : Z;
  CFG_FLASH_ADDR : Z;
  APROM_FLASH_ADDR : Z;
  config_of_bytes : list Z -> config_flags
}.

(** What the code silently relies on: the application region starts at 0,
    the largest loader fits in the flash and in its buffer, and the loader
    size in KiB fits the [uint8_t] that holds it. *)
Record LayoutOk (L : Layout) : Prop := {
  aprom_at_zero : APROM_FLASH_ADDR = 0;
  ldrom_max_pos : 0 < LDROM_MAX_SIZE;
  ldrom_max_kib : (LDROM_MAX_SIZE mod 1024 = 0);
  ldrom_max_small : LDROM_MAX_SIZE <= 255 * 1024;
  ldrom_fits : LDROM_MAX_SIZE <= FLASH_SIZE
}.

(** ** Buffers *)

Definition memset (c : Z) (n : Z) : list Z := repeat c (Z.to_nat n).

(** Overwrite [buf] from index [off] with the bytes [src]. *)
Definition buf_store (buf : list Z) (off : nat) (src : list Z) : list Z :=
  firstn off buf ++ src ++ skipn (off + List.length src) buf.

(** [memcpy (&dst[off], src, n)]. *)
Definition memcpy (dst : list Z) (off : Z) (src : list Z) (n : Z) : list Z :=
  buf_store dst (Z.to_nat off) (firstn (Z.to_nat n) src).

(** [memcmp (a, b, n)]: zero exactly when the first [n] bytes agree.  Both
    buffers hold at least [n] bytes wherever [main] calls it. *)
Fixpoint memcmp (a b : list Z) (n : nat) {struct n} : Z :=
  match n with
  | O => 0
  | S n' =>
      match a, b with
      | x :: a', y :: b' => if x =? y then memcmp a' b' n' else x - y
      | _, _ => 0
      end
  end.

(** ** The planner arithmetic of lines 238-241 and 251 *)

(** [uint8_t chosen_ldrom_sz_kb = ((ldrom_program_size - 1) / 1024) + 1]. *)
Definition chosen_ldrom_sz_kb (ldrom_program_size : Z) : Z :=
  to_uint8 (c_div (ldrom_program_size - 1) 1024 + 1).

(** [chosen_ldrom_sz = chosen_ldrom_sz_kb * 1024]. *)
Definition chosen_ldrom_sz (ldrom_program_size : Z) : Z :=
  chosen_ldrom_sz_kb ldrom_program_size * 1024.

(** [int aprom_size = FLASH_SIZE - chosen_ldrom_sz]. *)
Definition aprom_size `{Layout} (chosen : Z) : Z := FLASH_SIZE - chosen.

(** ** The outside world *)

(** The ICP transport ([n51_icp.h], [n51_pgm.h]): an interface over some
    programmer-and-chip state [D].  Each function takes the state and gives
    the next one, with its result when it has one. *)
Class N51ICP (D : Type) := {
  N51ICP_init : bool -> D -> Z * D;
  N51ICP_read_device_id : D -> Z * D;
  N51ICP_read_cid : D -> Z * D;
  N51ICP_read_uid : D -> list Z * D;
  N51ICP_read_ucid : D -> list Z * D;
  N51ICP_reentry : Z -> Z -> Z -> D -> D;
  N51ICP_read_flash : Z -> Z -> D -> list Z * D;
  N51ICP_write_flash : Z -> Z -> buffer -> D -> D;
  N51ICP_mass_erase : D -> D;
  N51ICP_print_config : config_flags -> D -> D;
  N51ICP_dump_config : D -> D;
  N51ICP_exit : D -> D;
  N51PGM_deinit : Z -> D -> D
}.

(** An open stream: its name, its mode and the bytes it can still deliver. *)
Record FILE := mk_FILE {
  f_name : string;
  f_mode : string;
  f_data : list Z
}.

(** The C library's side: which files open, and how many items an [fwrite]
    to a named file accepts. *)
Record os_env := mk_os {
  env_fopen : string -> string -> option (list Z);
  env_fwrite : string -> list Z -> Z
}.

(** One item delivered by [getopt]: the option character and [optarg]. *)
Record getopt_item := mk_item {
  opt : ascii;
  optarg : option string
}.

Inductive arg :=
| AInt (z : Z)
| AChar (c : ascii)
| AStr (s : string).

(** Everything [main] does that is visible outside, in program order. *)
Inductive event :=
| Printf (fmt : string) (args : list arg)
| Fprintf_stderr (fmt : string) (args : list arg)
| Usage_text
| Fopen (name mode : string) (opened : bool)
| Fread (name : string) (nmemb : Z) (ret : Z)
| Fwrite (name : string) (data : list Z) (nmemb : Z) (ret : Z)
| Getchar (ret : Z)
| ICP_init (do_reset : bool) (ret : Z)
| ICP_read_device_id (ret : Z)
| ICP_read_cid (ret : Z)
| ICP_read_uid (ret : list Z)
| ICP_read_ucid (ret : list Z)
| ICP_reentry (a b c : Z)
| ICP_read_flash (addr len : Z) (buf : buffer)
| ICP_write_flash (addr len : Z) (buf : buffer)
| ICP_mass_erase
| ICP_print_config (c : config_flags)
| ICP_dump_config
| ICP_exit
| PGM_deinit (leave_reset_high : Z).

(** Where control leaves the straight line: the three labels of [main],
    [exit (status)] inside [usage], and a call on a null [FILE *]. *)
Inductive label :=
| out
| out_err
| err
| exited (status : Z)
| null_stream.

Inductive result (A : Type) :=
| Normal (a : A)
| Goto (l : label).
Arguments Normal {A} a.
Arguments Goto {A} l.

Inductive outcome :=
| Returned (status : Z)
| Exited (status : Z)
| Undefined.

(** ** The program *)

Section Program.

Context {L : Layout} {D : Type} {T : N51ICP D}.

(** The state [main] runs against, and the trace it leaves. *)
Record world := mk_world {
  dev : D;
  stdin : list Z;
  os : os_env;
  trace : list event
}.

Definition M (A : Type) : Type := world -> result A * world.

Definition ret {A} (a : A) : M A := fun w => (Normal a, w).

Definition bind {A B} (m : M A) (k : A -> M B) : M B :=
  fun w =>
    match m w with
    | (Normal a, w') => k a w'
    | (Goto l, w') => (Goto l, w')
    end.

Definition goto {A} (l : label) : M A := fun w => (Goto l, w).

Definition emit (e : event) : M unit :=
  fun w => (Normal tt, mk_world (dev w) (stdin w) (os w) (trace w ++ [e])).

(** A transport call with a result. *)
Definition call {A} (f : D -> A * D) (ev : A -> event) : M A :=
  fun w =>
    let r := f (dev w) in
    (Normal (fst r),
     mk_world (snd r) (stdin w) (os w) (trace w ++ [ev (fst r)])).

(** A transport call used for its effect only. *)
Definition call_ (f : D -> D) (ev : event) : M unit :=
  fun w =>
    (Normal tt, mk_world (f (dev w)) (stdin w) (os w) (trace w ++ [ev])).

Notation "x <- m ;; k" := (bind m (fun x => k))
  (at level 61, m at next level, right associativity).
Notation "m ;; k" := (bind m (fun _ => k))
  (at level 61, right associativity).
Notation "' pat <- m ;; k" := (bind m (fun x => match x with pat => k end))
  (at level 61, pat pattern, m at next level, right associativity).

Definition when_ (b : bool) (m : M unit) : M unit :=
  if b then m else ret tt.

(** [for (int i = 0; i < n; i++) body (i)], counting up from [i]. *)
Fixpoint for_upto (i n : nat) (body : nat -> M unit) : M unit :=
  match n with
  | O => ret tt
  | S n' => body i ;; for_upto (S i) n' body
  end.

Definition printf (fmt : string) (args : list arg) : M unit :=
  emit (Printf fmt args).

Definition eprintf (fmt : string) (args : list arg) : M unit :=
  emit (Fprintf_stderr fmt args).

(** [getchar ()]: the next byte of stdin, or [EOF]. *)
Definition getchar : M Z :=
  fun w =>
    match stdin w with
    | [] => (Normal (-1), mk_world (dev w) [] (os w) (trace w ++ [Getchar (-1)]))
    | c :: rest =>
        (Normal c, mk_world (dev w) rest (os w) (trace w ++ [Getchar c]))
    end.

Definition fopen (name mode : string) : M (option FILE) :=
  fun w =>
    match env_fopen (os w) name mode with
    | Some data =>
        (Normal (Some (mk_FILE name mode data)),
         mk_world (dev w) (stdin w) (os w) (trace w ++ [Fopen name mode true]))
    | None =>
        (Normal None,
         mk_world (dev w) (stdin w) (os w) (trace w ++ [Fopen name mode false]))
    end.

(** [fread (buf, 1, nmemb, stream)]: the bytes delivered and their count.
    Every stream of [main] is read once, from its start.  A negative [int]
    passed as [nmemb] would become a huge [size_t] in C; here it reads
    nothing.  [main] passes [LDROM_MAX_SIZE] and [FLASH_SIZE -
    chosen_ldrom_sz], which [LayoutOk] keeps from being negative. *)
Definition fread (nmemb : Z) (stream : option FILE) : M (Z * list Z) :=
  match stream with
  | None => goto null_stream
  | Some f =>
      let data := firstn (Z.to_nat nmemb) (f_data f) in
      let n := Z.of_nat (List.length data) in
      emit (Fread (f_name f) nmemb n) ;;
      ret (n, data)
  end.

(** [fwrite (buf, 1, nmemb, stream)]: the count the C library reports. *)
Definition fwrite (buf : list Z) (nmemb : Z) (stream : option FILE) : M Z :=
  match stream with
  | None => goto null_stream
  | Some f =>
      fun w =>
        let data := firstn (Z.to_nat nmemb) buf in
        let n := env_fwrite (os w) (f_name f) data in
        (Normal n,
         mk_world (dev w) (stdin w) (os w)
                  (trace w ++ [Fwrite (f_name f) data nmemb n]))
  end.

(** [usage ()] prints its text and ends the process with status 1. *)
Definition usage {A} : M A :=
  emit Usage_text ;; goto (exited 1).

(** Lines 49-56. *)
Definition get_device_info : M device_info :=
  d <- call N51ICP_read_device_id ICP_read_device_id ;;
  c <- call N51ICP_read_cid ICP_read_cid ;;
  u <- call N51ICP_read_uid ICP_read_uid ;;
  uc <- call N51ICP_read_ucid ICP_read_ucid ;;
  ret (mk_device_info d c u uc).

(** Lines 58-70. *)
Definition print_device_info (info : device_info) : M unit :=
  printf "Device ID:\t0x%04x (%s)\n"
         [AInt (devid info);
          AStr (if devid info =? N76E003_DEVID then "N76E003" else "unknown")] ;;
  printf "CID:\t\t0x%02x\n" [AInt (cid info)] ;;
  printf "UID:\t\t" [] ;;
  for_upto 0 12 (fun i => printf "%02x " [AInt (nth i (uid info) 0)]) ;;
  printf "\nUCID:\t\t" [] ;;
  for_upto 0 16 (fun i => printf "%02x " [AInt (nth i (ucid info) 0)]) ;;
  printf "\n" [].

(** The option variables of [main], lines 108-113. *)
Record flags := mk_flags {
  write_aprom : Z;
  write_ldrom : Z;
  read_aprom : Z;
  dump_config : bool;
  lock_chip : bool;
  filename : option string;
  filename_ldrom : option string
}.

Definition init_flags : flags :=
  mk_flags 0 0 0 false false None None.

(** The [switch] of lines 126-150. *)
Definition option_case (it : getopt_item) (fl : flags) : M flags :=
  if Ascii.eqb (opt it) "u" then
    ret (mk_flags (write_aprom fl) (write_ldrom fl) (read_aprom fl) true
                  (lock_chip fl) (filename fl) (filename_ldrom fl))
  else if Ascii.eqb (opt it) "r" then
    ret (mk_flags (write_aprom fl) (write_ldrom fl) 1 (dump_config fl)
                  (lock_chip fl) (optarg it) (filename_ldrom fl))
  else if Ascii.eqb (opt it) "w" then
    ret (mk_flags 1 (write_ldrom fl) (read_aprom fl) (dump_config fl)
                  (lock_chip fl) (optarg it) (filename_ldrom fl))
  else if Ascii.eqb (opt it) "l" then
    ret (mk_flags (write_aprom fl) 1 (read_aprom fl) (dump_config fl)
                  (lock_chip fl) (filename fl) (optarg it))
  else if Ascii.eqb (opt it) "s" then
    ret (mk_flags (write_aprom fl) (write_ldrom fl) (read_aprom fl)
                  (dump_config fl) true (filename fl) (filename_ldrom fl))
  else
    eprintf "ERROR: Unknown option: %c\n\n" [AChar (opt it)] ;;
    usage.

(** The [while] of lines 125-154 over the items [getopt] delivers; the end
    of the list is [getopt] returning -1.  What [getopt] itself writes to
    stderr when it delivers '?' is the C library's and is not in the
    trace. *)
Fixpoint getopt_loop (items : list getopt_item) (fl : flags) : M flags :=
  match items with
  | [] => ret fl
  | it :: rest =>
      fl' <- option_case it fl ;;
      if dump_config fl' then ret fl' else getopt_loop rest fl'
  end.

(** Lines 164-179: the two [fopen]s. *)
Definition open_files (fl : flags) : M (option FILE * option FILE) :=
  if negb (dump_config fl) then
    file <- match filename fl with
            | Some name =>
                f <- fopen name (if truthy (write_aprom fl) then "rb" else "wb") ;;
                match f with
                | Some _ => ret f
                | None =>
                    eprintf "ERROR: Failed to open file: %s!\n\n" [AStr name] ;;
                    usage
                end
            | None => ret None
            end ;;
    file_ldrom <- match filename_ldrom fl with
                  | Some name =>
                      f <- fopen name "rb" ;;
                      match f with
                      | Some _ => ret f
                      | None =>
                          eprintf "ERROR: Failed to open file: %s!\n\n"
                                  [AStr name] ;;
                          usage
                      end
                  | None => ret None
                  end ;;
    ret (file, file_ldrom)
  else ret (None, None).

(** Lines 181-190: start the transport and identify the chip. *)
Definition bootstrap : M device_info :=
  r <- call (N51ICP_init true) (ICP_init true) ;;
  (if negb (r =? 0) then
     eprintf "ERROR: Failed to initialize ICP!\n\n" [] ;; goto err
   else ret tt) ;;
  devinfo <- get_device_info ;;
  if cid devinfo =? 0xFF then
    call_ (N51ICP_reentry 5000 1000 10) (ICP_reentry 5000 1000 10) ;;
    get_device_info
  else ret devinfo.

(** Lines 192-207: the device identity check and the mass-erase prompt. *)
Definition check_device (fl : flags) (devinfo : device_info) : M unit :=
  if negb (devid devinfo =? N76E003_DEVID) then
    if ((write_ldrom fl =? 1) || (write_aprom fl =? 1))
       && (cid devinfo =? 0xFF) then
      eprintf "N76E003 not found (may be locked), do you want to attempt a mass erase? (y/N)\n" [] ;;
      x <- getchar ;;
      let c := to_uint8 x in
      when_ ((c =? 121) || (c =? 89))
           (eprintf "Attempting mass erase...\n" [])
    else
      print_device_info devinfo ;;
      eprintf "ERROR: N76E003 not found!\n\n" [] ;;
      goto out_err
  else ret tt.

(** Lines 209-216: read the configuration bytes; a locked chip cannot be
    read. *)
Definition check_lock (fl : flags) (devinfo : device_info) : M config_flags :=
  data <- call (N51ICP_read_flash CFG_FLASH_ADDR CFG_FLASH_LEN)
               (fun data => ICP_read_flash CFG_FLASH_ADDR CFG_FLASH_LEN
                                           (Config (config_of_bytes data))) ;;
  let current_config := config_of_bytes data in
  (if (LOCK current_config =? 0) && (write_aprom fl =? 0)
      && (write_ldrom fl =? 0) then
     print_device_info devinfo ;;
     call_ (N51ICP_print_config current_config) (ICP_print_config current_config) ;;
     eprintf "ERROR: Device is locked, cannot read flash!\n\n" [] ;;
     goto out_err
   else ret tt) ;;
  ret current_config.

(** Lines 218-227: erase the entire flash before any write. *)
Definition erase (fl : flags) (devinfo : device_info)
           (current_config : config_flags) : M unit :=
  when_ (truthy (write_aprom fl) || truthy (write_ldrom fl))
       (call_ N51ICP_mass_erase ICP_mass_erase ;;
        when_ ((LOCK current_config =? 0) || (cid devinfo =? 0xFF))
             (call_ (N51ICP_reentry 5000 1000 10) (ICP_reentry 5000 1000 10))) ;;
  print_device_info devinfo ;;
  call_ (N51ICP_print_config current_config) (ICP_print_config current_config).

(** What the programming steps hand on: [chosen_ldrom_sz], [write_config]
    and the two image buffers. *)
Record locals := mk_locals {
  l_chosen_ldrom_sz : Z;
  l_write_config : config_flags;
  l_ldrom_data : list Z;
  l_write_data : list Z
}.

(** Lines 235-247: plan and program the loader region. *)
Definition program_ldrom (file_ldrom : option FILE) (lc : locals) : M locals :=
  eprintf "Programming LDROM...\n" [] ;;
  '(ldrom_program_size, bytes) <- fread LDROM_MAX_SIZE file_ldrom ;;
  let ldrom_data := buf_store (l_ldrom_data lc) 0 bytes in
  let kb := chosen_ldrom_sz_kb ldrom_program_size in
  let chosen := kb * 1024 in
  let write_config :=
    set_LDS (Z.land (7 - kb) 0x7) (set_CBS 0 (l_write_config lc)) in
  call_ (N51ICP_write_flash CFG_FLASH_ADDR CFG_FLASH_LEN (Config write_config))
        (ICP_write_flash CFG_FLASH_ADDR CFG_FLASH_LEN (Config write_config)) ;;
  call_ (N51ICP_write_flash (FLASH_SIZE - chosen) ldrom_program_size
                            (Bytes ldrom_data))
        (ICP_write_flash (FLASH_SIZE - chosen) ldrom_program_size
                         (Bytes ldrom_data)) ;;
  eprintf "Programmed LDROM (%d bytes)\n" [AInt ldrom_program_size] ;;
  ret (mk_locals chosen write_config ldrom_data (l_write_data lc)).

(** Lines 249-257: program the application region. *)
Definition program_aprom (file : option FILE) (lc : locals) : M locals :=
  eprintf "Programming APROM...\n" [] ;;
  '(aprom_program_size, bytes) <-
      fread (aprom_size (l_chosen_ldrom_sz lc)) file ;;
  let write_data := buf_store (l_write_data lc) 0 bytes in
  call_ (N51ICP_write_flash APROM_FLASH_ADDR aprom_program_size
                            (Bytes write_data))
        (ICP_write_flash APROM_FLASH_ADDR aprom_program_size
                         (Bytes write_data)) ;;
  eprintf "Programmed APROM (%d bytes)\n" [AInt aprom_program_size] ;;
  ret (mk_locals (l_chosen_ldrom_sz lc) (l_write_config lc)
                 (l_ldrom_data lc) write_data).

(** The buffer [write_data] after the [memcpy] of line 265: what the whole
    flash is expected to hold. *)
Definition expected_flash (lc : locals) : list Z :=
  memcpy (l_write_data lc) (FLASH_SIZE - l_chosen_ldrom_sz lc)
         (l_ldrom_data lc) (l_chosen_ldrom_sz lc).

(** Lines 259-277: read the flash back, compare, and only then lock. *)
Definition verify_and_lock (fl : flags) (read_data : list Z) (lc : locals)
  : M unit :=
  bytes <- call (N51ICP_read_flash APROM_FLASH_ADDR FLASH_SIZE)
                (fun bytes => ICP_read_flash APROM_FLASH_ADDR FLASH_SIZE
                                (Bytes (buf_store read_data 0 bytes))) ;;
  let read_data := buf_store read_data 0 bytes in
  let write_data := expected_flash lc in
  (if truthy (memcmp write_data read_data (Z.to_nat FLASH_SIZE)) then
     call_ N51ICP_dump_config ICP_dump_config ;;
     eprintf "\nError when verifying flash!\n" [] ;;
     goto out_err
   else ret tt) ;;
  eprintf "\nEntire Flash verified successfully!\n" [] ;;
  (if lock_chip fl then
     let write_config := set_LOCK 0 (l_write_config lc) in
     call_ (N51ICP_write_flash CFG_FLASH_ADDR CFG_FLASH_LEN (Config write_config))
           (ICP_write_flash CFG_FLASH_ADDR CFG_FLASH_LEN (Config write_config))
   else ret tt) ;;
  call_ N51ICP_dump_config ICP_dump_config.

(** Lines 278-289: no write was asked for; save the flash to the file. *)
Definition read_out (file : option FILE) (read_data : list Z) : M unit :=
  call_ N51ICP_dump_config ICP_dump_config ;;
  bytes <- call (N51ICP_read_flash APROM_FLASH_ADDR FLASH_SIZE)
                (fun bytes => ICP_read_flash APROM_FLASH_ADDR FLASH_SIZE
                                (Bytes (buf_store read_data 0 bytes))) ;;
  let read_data := buf_store read_data 0 bytes in
  n <- fwrite read_data FLASH_SIZE file ;;
  if negb (n =? FLASH_SIZE) then
    eprintf "Error writing file!\n" [] ;; goto out_err
  else eprintf "\nFlash successfully read.\n" [].

(** Lines 105-290: [main] up to its labels. *)
Definition main_body (argc : Z) (argv : list getopt_item) : M unit :=
  let read_data := memset 0xff FLASH_SIZE in
  let write_data := memset 0xff FLASH_SIZE in
  let ldrom_data := memset 0xff LDROM_MAX_SIZE in
  (if argc <=? 1 then usage else ret tt) ;;
  fl <- getopt_loop argv init_flags ;;
  (if truthy (read_aprom fl) && truthy (write_aprom fl) then
     eprintf "ERROR: Can't read and write APROM at the same time!\n\n" [] ;;
     usage
   else ret tt) ;;
  (if negb (truthy (read_aprom fl)) && negb (truthy (write_aprom fl))
      && negb (dump_config fl) then
     eprintf "ERROR: No action specified!\n\n" [] ;;
     usage
   else ret tt) ;;
  '(file, file_ldrom) <- open_files fl ;;
  devinfo <- bootstrap ;;
  check_device fl devinfo ;;
  current_config <- check_lock fl devinfo ;;
  erase fl devinfo current_config ;;
  (if dump_config fl then goto out else ret tt) ;;
  let lc := mk_locals 0 get_default_config ldrom_data write_data in
  lc <- (if truthy (write_ldrom fl) then program_ldrom file_ldrom lc
         else ret lc) ;;
  lc <- (if truthy (write_aprom fl) then program_aprom file lc
         else ret lc) ;;
  if truthy (write_aprom fl) || truthy (write_ldrom fl) then
    verify_and_lock fl read_data lc
  else
    read_out file read_data.

(** Lines 291-299: the labels.  Falling off the end of the body reaches
    [out]. *)
Definition shutdown : M unit :=
  call_ N51ICP_exit ICP_exit ;;
  call_ (N51PGM_deinit 0) (PGM_deinit 0).

Definition finish (rw : result unit * world) : outcome * world :=
  match rw with
  | (Normal _, w1) | (Goto out, w1) => (Returned 0, snd (shutdown w1))
  | (Goto out_err, w1) => (Returned 1, snd (shutdown w1))
  | (Goto err, w1) => (Returned 1, w1)
  | (Goto (exited status), w1) => (Exited status, w1)
  | (Goto null_stream, w1) => (Undefined, w1)
  end.

Definition main (argc : Z) (argv : list getopt_item) (w : world)
  : outcome * world :=
  finish (main_body argc argv w).

(** [main_body] cut in three: lines 105-230, up to the [goto out] of a run
    that only prints the configuration; the two programming steps of lines
    232-257; and lines 259-289, the verification or the dump. *)
Definition preparation (argc : Z) (argv : list getopt_item)
  : M (flags * option FILE * option FILE) :=
  (if argc <=? 1 then usage else ret tt) ;;
  fl <- getopt_loop argv init_flags ;;
  (if truthy (read_aprom fl) && truthy (write_aprom fl) then
     eprintf "ERROR: Can't read and write APROM at the same time!\n\n" [] ;;
     usage
   else ret tt) ;;
  (if negb (truthy (read_aprom fl)) && negb (truthy (write_aprom fl))
      && negb (dump_config fl) then
     eprintf "ERROR: No action specified!\n\n" [] ;;
     usage
   else ret tt) ;;
  '(file, file_ldrom) <- open_files fl ;;
  devinfo <- bootstrap ;;
  check_device fl devinfo ;;
  current_config <- check_lock fl devinfo ;;
  erase fl devinfo current_config ;;
  (if dump_config fl then goto out else ret tt) ;;
  ret (fl, file, file_ldrom).

(** The loader step of lines 232-247, from the locals as [main] sets them
    up. *)
Definition loader_step (fl : flags) (file_ldrom : option FILE) : M locals :=
  let lc := mk_locals 0 get_default_config (memset 0xff LDROM_MAX_SIZE)
                      (memset 0xff FLASH_SIZE) in
  if truthy (write_ldrom fl) then program_ldrom file_ldrom lc else ret lc.

(** The application step of lines 249-257. *)
Definition application_step (fl : flags) (file : option FILE) (lc : locals)
  : M locals :=
  if truthy (write_aprom fl) then program_aprom file lc else ret lc.

Definition programming (fl : flags) (file file_ldrom : option FILE)
  : M locals :=
  lc <- loader_step fl file_ldrom ;;
  application_step fl file lc.

Definition completion (fl : flags) (file : option FILE) (lc : locals)
  : M unit :=
  if truthy (write_aprom fl) || truthy (write_ldrom fl) then
    verify_and_lock fl (memset 0xff FLASH_SIZE) lc
  else
    read_out file (memset 0xff FLASH_SIZE).

End Program.

Arguments world D : clear implicits.
Arguments M D A : clear implicits.

(** ** A concrete chip, for running the program

    The N76E003: 18 KiB of flash, a loader region of at most 4 KiB, the
    configuration bytes at 0x30000.  CONFIG0 holds [LOCK] in bit 1 and [CBS]
    in bit 7, CONFIG1 holds [LDS] in its three low bits. *)

Module N76E003.

Definition bits (x : Z) (lo width : Z) : Z :=
  Z.land (Z.shiftr x lo) (Z.ones width).

Definition overlay (bytes : list Z) : config_flags :=
  let b := fun i => nth i bytes 0 in
  mk_config (bits (b 0%nat) 1 1) (bits (b 0%nat) 7 1) (bits (b 1%nat) 0 3)
            (bits (b 0%nat) 0 1
             + Z.shiftl (bits (b 0%nat) 2 5) 1
             + Z.shiftl (bits (b 1%nat) 3 5) 6
             + Z.shiftl (b 2%nat) 11
             + Z.shiftl (b 3%nat) 19
             + Z.shiftl (b 4%nat) 27).

Definition unoverlay (c : config_flags) : list Z :=
  let o := cfg_other c in
  [ bits o 0 1 + Z.shiftl (LOCK c) 1 + Z.shiftl (bits o 1 5) 2
    + Z.shiftl (CBS c) 7;
    LDS c + Z.shiftl (bits o 6 5) 3;
    bits o 11 8;
    bits o 19 8;
    bits o 27 8 ].

#[export] Instance layout : Layout := {|
  FLASH_SIZE := 18 * 1024;
  LDROM_MAX_SIZE := 4 * 1024;
  CFG_FLASH_ADDR := 0x30000;
  APROM_FLASH_ADDR := 0;
  config_of_bytes := overlay
|}.

(** The programmer and the chip behind it.  [writes_stick] is false for a
    chip whose flash does not take writes. *)
Record chip := mk_chip {
  init_ret : Z;
  chip_devid : Z;
  chip_cid : Z;
  chip_cfg : list Z;
  chip_flash : list Z;
  writes_stick : bool
}.

(** [len] bytes from [addr]; what lies beyond the memory reads as 0xFF. *)
Definition read_region (addr len : Z) (c : chip) : list Z :=
  let n := Z.to_nat len in
  if addr =? CFG_FLASH_ADDR then
    firstn n (chip_cfg c ++ repeat 0xFF n)
  else
    firstn n (skipn (Z.to_nat addr) (chip_flash c) ++ repeat 0xFF n).

Definition write_region (addr len : Z) (buf : buffer) (c : chip) : chip :=
  if writes_stick c then
    match buf with
    | Config cf =>
        mk_chip (init_ret c) (chip_devid c) (chip_cid c) (unoverlay cf)
                (chip_flash c) true
    | Bytes l =>
        mk_chip (init_ret c) (chip_devid c) (chip_cid c) (chip_cfg c)
                (buf_store (chip_flash c) (Z.to_nat addr)
                           (firstn (Z.to_nat len) l))
                true
    end
  else c.

Definition erase_all (c : chip) : chip :=
  mk_chip (init_ret c) N76E003_DEVID 0xDA blank_cfg
          (memset 0xff FLASH_SIZE) (writes_stick c).

#[export] Instance transport : N51ICP chip := {|
  N51ICP_init := fun _ c => (init_ret c, c);
  N51ICP_read_device_id := fun c => (chip_devid c, c);
  N51ICP_read_cid := fun c => (chip_cid c, c);
  N51ICP_read_uid := fun c => (repeat 0 12, c);
  N51ICP_read_ucid := fun c => (repeat 0 16, c);
  N51ICP_reentry := fun _ _ _ c => c;
  N51ICP_read_flash := fun addr len c => (read_region addr len c, c);
  N51ICP_write_flash := write_region;
  N51ICP_mass_erase := erase_all;
  N51ICP_print_config := fun _ c => c;
  N51ICP_dump_config := fun c => c;
  N51ICP_exit := fun c => c;
  N51PGM_deinit := fun _ c => c
|}.

(** A blank, responsive chip; one that is locked and does not identify
    itself; one whose flash is worn; a programmer that does not start. *)
Definition blank_chip : chip :=
  mk_chip 0 N76E003_DEVID 0xDA blank_cfg (memset 0xff FLASH_SIZE) true.

Definition locked_chip : chip :=
  mk_chip 0 0xFFFF 0xFF [0xFD; 0xFF; 0xFF; 0xFF; 0xFF]
          (memset 0x5a FLASH_SIZE) true.

(** A chip that identifies itself but has its flash read-protected. *)
Definition protected_chip : chip :=
  mk_chip 0 N76E003_DEVID 0xDA [0xFD; 0xFF; 0xFF; 0xFF; 0xFF]
          (memset 0x5a FLASH_SIZE) true.

Definition worn_chip : chip :=
  mk_chip 0 N76E003_DEVID 0xDA blank_cfg (memset 0x00 FLASH_SIZE) false.

Definition dead_programmer : chip :=
  mk_chip (-1) 0 0 blank_cfg (memset 0xff FLASH_SIZE) true.

(** A file system holding the named files, and accepting every write. *)
Definition files (fs : list (string * list Z)) : os_env :=
  mk_os (fun name mode =>
           if String.eqb mode "wb" then Some []
           else
             match find (fun p => String.eqb (fst p) name) fs with
             | Some p => Some (snd p)
             | None => None
             end)
        (fun _ data => Z.of_nat (List.length data)).

Definition opt_w (name : string) : getopt_item := mk_item "w" (Some name).
Definition opt_r (name : string) : getopt_item := mk_item "r" (Some name).
Definition opt_l (name : string) : getopt_item := mk_item "l" (Some name).
Definition opt_s : getopt_item := mk_item "s" None.

Definition start (c : chip) (input : list Z) (fs : list (string * list Z))
  : world chip :=
  mk_world c input (files fs) [].

Definition opt_u : getopt_item := mk_item "u" None.
Definition opt_h : getopt_item := mk_item "h" None.

(** A chip of another kind, not locked. *)
Definition foreign_chip : chip :=
  mk_chip 0 0x1234 0x5A blank_cfg (memset 0xff FLASH_SIZE) true.

(** Files and runs for the examples. *)
Definition app_image : list Z := [1; 2; 3; 4].
Definition loader_2500 : FILE := mk_FILE "ldrom.bin" "rb" (repeat 0xAA 2500).
Definition loader_4097 : FILE := mk_FILE "ldrom.bin" "rb" (repeat 0xAA 4097).
Definition app_file : FILE := mk_FILE "aprom.bin" "rb" app_image.
Definition disk : list (string * list Z) :=
  [("aprom.bin"%string, app_image); ("ldrom.bin"%string, repeat 0xAA 4097)].
(** An application image as large as the flash. *)
Definition full_image : list Z := repeat 0x55 (Z.to_nat FLASH_SIZE).
Definition full_file : FILE := mk_FILE "full.bin" "rb" full_image.
Definition disk_full : list (string * list Z) :=
  ("full.bin"%string, full_image) :: disk.
Definition dump_file : FILE := mk_FILE "dump.bin" "wb" [].
Definition some_info : device_info :=
  mk_device_info N76E003_DEVID 0xDA (repeat 0x11 12) (repeat 0x22 16).

End N76E003.

(** ** Vocabulary for traces *)

Definition verified_msg : string := "\nEntire Flash verified successfully!\n".
Definition verify_error_msg : string := "\nError when verifying flash!\n".
Definition locked_msg : string := "ERROR: Device is locked, cannot read flash!\n\n".

(** The formats of the messages [main] prints on its way to a failing
    exit. *)
Definition fatal_formats : list string :=
  [ "ERROR: Unknown option: %c\n\n"%string;
    "ERROR: Can't read and write APROM at the same time!\n\n"%string;
    "ERROR: No action specified!\n\n"%string;
    "ERROR: Failed to open file: %s!\n\n"%string;
    "ERROR: Failed to initialize ICP!\n\n"%string;
    "ERROR: N76E003 not found!\n\n"%string;
    locked_msg;
    verify_error_msg;
    "Error writing file!\n"%string ].

Definition is_stderr (s : string) (e : event) : bool :=
  match e with
  | Fprintf_stderr fmt [] => String.eqb fmt s
  | _ => false
  end.

Definition is_fatal (e : event) : bool :=
  match e with
  | Fprintf_stderr fmt _ => existsb (String.eqb fmt) fatal_formats
  | _ => false
  end.

(** A configuration write that clears [LOCK], which locks the chip. *)
Definition is_lock_write (e : event) : bool :=
  match e with
  | ICP_write_flash _ _ (Config c) => LOCK c =? 0
  | _ => false
  end.

(** Any flash read into a byte buffer. *)
Definition is_flash_read (e : event) : bool :=
  match e with
  | ICP_read_flash _ _ (Bytes _) => true
  | _ => false
  end.

(** A configuration read that found [LOCK] cleared. *)
Definition is_locked_config_read (e : event) : bool :=
  match e with
  | ICP_read_flash _ _ (Config c) => LOCK c =? 0
  | _ => false
  end.

Definition is_mass_erase (e : event) : bool :=
  match e with
  | ICP_mass_erase => true
  | _ => false
  end.

(** The calls that change the flash. *)
Definition is_destructive (e : event) : bool :=
  match e with
  | ICP_mass_erase | ICP_write_flash _ _ _ => true
  | _ => false
  end.

Definition is_shutdown (e : event) : bool :=
  match e with
  | ICP_exit | PGM_deinit _ => true
  | _ => false
  end.

Definition is_dump_config (e : event) : bool :=
  match e with
  | ICP_dump_config => true
  | _ => false
  end.

Definition is_getchar (e : event) : bool :=
  match e with
  | Getchar _ => true
  | _ => false
  end.

Definition is_init_failure (e : event) : bool :=
  match e with
  | ICP_init _ r => negb (r =? 0)
  | _ => false
  end.

Definition is_init_success (e : event) : bool :=
  match e with
  | ICP_init _ r => r =? 0
  | _ => false
  end.

(** Every element that satisfies [q] has an earlier one that satisfies
    [p]. *)
Fixpoint preceded_by {A} (p q : A -> bool) (t : list A) : bool :=
  match t with
  | [] => true
  | e :: t' =>
      if q e then false else if p e then true else preceded_by p q t'
  end.

(** Every element that satisfies [p] has a later one that satisfies [q]. *)
Fixpoint followed_by {A} (p q : A -> bool) (t : list A) : bool :=
  match t with
  | [] => true
  | e :: t' => (if p e then existsb q t' else true) && followed_by p q t'
  end.

(** No element satisfies [q] once one has satisfied [p]. *)
Fixpoint none_after {A} (p q : A -> bool) (t : list A) : bool :=
  match t with
  | [] => true
  | e :: t' => if p e then negb (existsb q t') else none_after p q t'
  end.

Definition failed (o : outcome) : bool :=
  match o with
  | Returned s | Exited s => negb (s =? 0)
  | Undefined => false
  end.

Definition returned_1 (o : outcome) : bool :=
  match o with
  | Returned s => s =? 1
  | _ => false
  end.

(** The option variables hold 0 or 1. *)
Definition flags01 (fl : flags) : Prop :=
  (write_aprom fl = 0 \/ write_aprom fl = 1) /\
  (write_ldrom fl = 0 \/ write_ldrom fl = 1) /\
  (read_aprom fl = 0 \/ read_aprom fl = 1).

(** The spec's wording of the loader size: the image length rounded up to
    the next KiB, in KiB. *)
Definition round_up_kib (len : Z) : Z := (len + 1023) / 1024.

(** The locals of [main] before any programming step: no loader region, the
    blank configuration, both image buffers filled with 0xff. *)
Definition initial_locals `{Layout} : locals :=
  mk_locals 0 get_default_config (memset 0xff LDROM_MAX_SIZE)
            (memset 0xff FLASH_SIZE).

(** What [fread] at line 237 delivers of a loader file: at most
    [LDROM_MAX_SIZE] bytes. *)
Definition ldrom_size `{Layout} (f : FILE) : Z :=
  Z.of_nat (List.length (firstn (Z.to_nat LDROM_MAX_SIZE) (f_data f))).

(** ** Traces seen through a set of observations

    A property of a whole run only looks at a few facts about each event.
    [observe ps e] keeps the answers of the tests [ps] on [e];  an event on
    which no test fires is dropped, so the observed trace of a run is short
    and a run can be followed on it alone. *)

Definition observe (ps : list (event -> bool)) (e : event) : list bool :=
  map (fun p => p e) ps.

Definition loud (ps : list (event -> bool)) (e : event) : bool :=
  existsb (fun p => p e) ps.

Definition watch (ps : list (event -> bool)) (e : event) : list (list bool) :=
  if loud ps e then [observe ps e] else [].

Definition observed (ps : list (event -> bool)) (t : list event)
  : list (list bool) :=
  flat_map (watch ps) t.

Definition bit (i : nat) (o : list bool) : bool := nth i o false.

(** The tests each claim about whole runs looks through. *)
Definition prompt_tests : list (event -> bool) :=
  [is_getchar; is_mass_erase].

Definition locked_tests : list (event -> bool) :=
  [is_locked_config_read; is_stderr locked_msg; is_flash_read;
   is_destructive].

Definition shutdown_tests : list (event -> bool) :=
  [is_init_failure; is_init_success; is_shutdown; is_fatal; is_destructive].

(** The [i]-th test of [ps], on an event. *)
Definition test (ps : list (event -> bool)) (i : nat) (e : event) : bool :=
  bit i (observe ps e).

(** The observed trace did not move. *)
Definition same (s s' : list (list bool)) : Prop := s' = s.

Section Observed.

Context {L : Layout} {D : Type} {T : N51ICP D}.

Variable ps : list (event -> bool).

(** From any world whose observed trace is [s], [m] ends with a result and
    an observed trace that satisfy [G]. *)
Definition wp {A} (m : M D A) (s : list (list bool))
           (G : result A -> list (list bool) -> Prop) : Prop :=
  forall w, observed ps (trace w) = s ->
            G (fst (m w)) (observed ps (trace (snd (m w)))).

(** [m] may leave through a label, but where it goes on it has added
    nothing to the observed trace; [C] holds if it goes on at all. *)
Definition framed {A B} (C : Prop) (s : list (list bool))
           (G : result B -> list (list bool) -> Prop)
  : result A -> list (list bool) -> Prop :=
  fun r s' =>
    match r with
    | Normal _ => same s s' /\ C
    | Goto l => G (Goto l) s'
    end.

(** [finish] on the observed trace. *)
Definition finish_observed (r : result unit) (s : list (list bool))
  : outcome * list (list bool) :=
  match r with
  | Normal _ | Goto out =>
      (Returned 0, s ++ watch ps ICP_exit ++ watch ps (PGM_deinit 0))
  | Goto out_err =>
      (Returned 1, s ++ watch ps ICP_exit ++ watch ps (PGM_deinit 0))
  | Goto err => (Returned 1, s)
  | Goto (exited status) => (Exited status, s)
  | Goto null_stream => (Undefined, s)
  end.

(** A run of [main] from a world with an empty trace: its outcome and its
    trace. *)
Definition run_outcome (argc : Z) (argv : list getopt_item)
           (d : D) (input : list Z) (env : os_env) : outcome :=
  fst (main argc argv (mk_world d input env [])).

Definition run_trace (argc : Z) (argv : list getopt_item)
           (d : D) (input : list Z) (env : os_env) : list event :=
  trace (snd (main argc argv (mk_world d input env []))).

End Observed.

(** ** More vocabulary, for the properties of whole runs *)

Definition prompt_msg : string :=
  "N76E003 not found (may be locked), do you want to attempt a mass erase? (y/N)\n".
Definition not_found_msg : string := "ERROR: N76E003 not found!\n\n".
Definition read_ok_msg : string := "\nFlash successfully read.\n".
Definition conflict_msg : string :=
  "ERROR: Can't read and write APROM at the same time!\n\n".
Definition no_action_msg : string := "ERROR: No action specified!\n\n".
Definition unknown_option_fmt : string := "ERROR: Unknown option: %c\n\n".

Definition is_init (e : event) : bool :=
  match e with
  | ICP_init _ _ => true
  | _ => false
  end.

(** A call of the transport other than [N51ICP_init]. *)
Definition is_later_transport (e : event) : bool :=
  match e with
  | ICP_read_device_id _ | ICP_read_cid _ | ICP_read_uid _ | ICP_read_ucid _
  | ICP_reentry _ _ _ | ICP_read_flash _ _ _ | ICP_write_flash _ _ _
  | ICP_mass_erase | ICP_print_config _ | ICP_dump_config | ICP_exit
  | PGM_deinit _ => true
  | _ => false
  end.

Definition is_transport (e : event) : bool :=
  is_init e || is_later_transport e.

Definition is_fopen (e : event) : bool :=
  match e with
  | Fopen _ _ _ => true
  | _ => false
  end.

Definition is_fopen_failed (e : event) : bool :=
  match e with
  | Fopen _ _ opened => negb opened
  | _ => false
  end.

Definition is_fread (e : event) : bool :=
  match e with
  | Fread _ _ _ => true
  | _ => false
  end.

Definition is_file_io (e : event) : bool :=
  match e with
  | Fopen _ _ _ | Fread _ _ _ | Fwrite _ _ _ _ => true
  | _ => false
  end.

(** An [fwrite] of [FLASH_SIZE] bytes that reports all of them written. *)
Definition is_full_fwrite `{Layout} (e : event) : bool :=
  match e with
  | Fwrite _ _ n r => (n =? FLASH_SIZE) && (r =? FLASH_SIZE)
  | _ => false
  end.

Definition is_usage (e : event) : bool :=
  match e with
  | Usage_text => true
  | _ => false
  end.

Definition is_write (e : event) : bool :=
  match e with
  | ICP_write_flash _ _ _ => true
  | _ => false
  end.

Definition is_any_flash_read (e : event) : bool :=
  match e with
  | ICP_read_flash _ _ _ => true
  | _ => false
  end.

Definition is_exited (o : outcome) : bool :=
  match o with
  | Exited _ => true
  | _ => false
  end.

Definition exited_1 (o : outcome) : bool :=
  match o with
  | Exited s => s =? 1
  | _ => false
  end.

Definition returned_0 (o : outcome) : bool :=
  match o with
  | Returned s => s =? 0
  | _ => false
  end.

Definition is_undefined (o : outcome) : bool :=
  match o with
  | Undefined => true
  | _ => false
  end.

(** [getopt] with the option string "uhsr:w:l:" delivers an argument with
    each of r, w and l. *)
Definition has_arg (it : getopt_item) : bool :=
  if Ascii.eqb (opt it) "r" || Ascii.eqb (opt it) "w" || Ascii.eqb (opt it) "l"
  then match optarg it with
       | Some _ => true
       | None => false
       end
  else true.

(** A file name stands behind every action that needs one. *)
Definition files_named (fl : flags) : Prop :=
  (truthy (read_aprom fl) || truthy (write_aprom fl) = true ->
   filename fl <> None) /\
  (truthy (write_ldrom fl) = true -> filename_ldrom fl <> None).

(** An option character the [switch] of [main] has a case for, other than
    u. *)
Definition sets_a_flag (it : getopt_item) : bool :=
  Ascii.eqb (opt it) "r" || Ascii.eqb (opt it) "w" || Ascii.eqb (opt it) "l"
  || Ascii.eqb (opt it) "s".

Definition known_option (it : getopt_item) : bool :=
  Ascii.eqb (opt it) "u" || sets_a_flag it.

(** What [open_files] hands on: a stream for every file name. *)
Definition opened (fl : flags) (fs : option FILE * option FILE) : Prop :=
  (filename fl <> None -> fst fs <> None) /\
  (filename_ldrom fl <> None -> snd fs <> None).

(** A device-ID read that found an N76E003, or the prompt that offers the
    mass erase. *)
Definition is_identified_or_prompt (e : event) : bool :=
  match e with
  | ICP_read_device_id r => r =? N76E003_DEVID
  | Fprintf_stderr fmt [] => String.eqb fmt prompt_msg
  | _ => false
  end.

(** ** Monitors

    A check on a trace that only has to remember whether something has
    happened is followed by a monitor: a verdict that each event may move,
    from [Idle] to [Armed] and from there, or directly, to [Broken].  Runs
    that differ in events the monitors do not tell apart reach the same
    verdicts. *)

Inductive verdict :=
| Idle
| Armed
| Broken.

Inductive check :=
| Seen (p : event -> bool)
| Precedes (p q : event -> bool)
| Excludes (p q : event -> bool).

(** [Seen p] is armed by an event that satisfies [p].  [Precedes p q] is
    broken by a [q] that comes before every [p].  [Excludes p q] is broken
    by a [q] that comes after a [p]. *)
Definition advance (c : check) (e : event) (v : verdict) : verdict :=
  match v with
  | Idle =>
      match c with
      | Seen p => if p e then Armed else Idle
      | Precedes p q => if q e then Broken else if p e then Armed else Idle
      | Excludes p q => if p e then Armed else Idle
      end
  | Armed =>
      match c with
      | Excludes p q => if q e then Broken else Armed
      | _ => Armed
      end
  | Broken => Broken
  end.

Fixpoint advance_all (cs : list check) (e : event) (vs : list verdict)
  : list verdict :=
  match cs, vs with
  | c :: cs', v :: vs' => advance c e v :: advance_all cs' e vs'
  | _, _ => []
  end.

Definition idle (cs : list check) : list verdict := map (fun _ => Idle) cs.

Definition verdicts_from (cs : list check) (vs : list verdict)
           (t : list event) : list verdict :=
  fold_left (fun vs e => advance_all cs e vs) t vs.

Definition verdicts (cs : list check) (t : list event) : list verdict :=
  verdicts_from cs (idle cs) t.

Definition verdict_from (c : check) (v : verdict) (t : list event) : verdict :=
  fold_left (fun v e => advance c e v) t v.

Definition armed (i : nat) (vs : list verdict) : bool :=
  match nth i vs Idle with
  | Armed => true
  | _ => false
  end.

Definition kept (i : nat) (vs : list verdict) : bool :=
  match nth i vs Broken with
  | Broken => false
  | _ => true
  end.

(** The verdicts did not move. *)
Definition settled (q q' : list verdict) : Prop := q' = q.

Section Monitored.

Context {L : Layout} {D : Type} {T : N51ICP D}.

Variable cs : list check.

(** From any world whose trace has led the monitors to [q], [m] ends with a
    result and verdicts that satisfy [G]. *)
Definition wpm {A} (m : M D A) (q : list verdict)
           (G : result A -> list verdict -> Prop) : Prop :=
  forall w, verdicts cs (trace w) = q ->
            G (fst (m w)) (verdicts cs (trace (snd (m w)))).

(** [m] may leave through a label; wherever it goes on, the monitors stand
    at [q'], and [C] holds if it goes on at all. *)
Definition merged {A B} (C : Prop) (q' : list verdict)
           (G : result B -> list verdict -> Prop)
  : result A -> list verdict -> Prop :=
  fun r q =>
    match r with
    | Normal _ => settled q' q /\ C
    | Goto l => G (Goto l) q
    end.

(** [finish] on the verdicts. *)
Definition finish_verdicts (r : result unit) (q : list verdict)
  : outcome * list verdict :=
  match r with
  | Normal _ | Goto out =>
      (Returned 0, advance_all cs (PGM_deinit 0) (advance_all cs ICP_exit q))
  | Goto out_err =>
      (Returned 1, advance_all cs (PGM_deinit 0) (advance_all cs ICP_exit q))
  | Goto err => (Returned 1, q)
  | Goto (exited status) => (Exited status, q)
  | Goto null_stream => (Undefined, q)
  end.

End Monitored.

(** The monitors each property of whole runs is followed on. *)
Definition order_checks_list : list check :=
  [ Seen is_init;
    Seen is_usage;
    Precedes is_init is_later_transport;
    Excludes is_init is_init;
    Excludes is_init_failure is_later_transport;
    Excludes is_init is_fopen;
    Seen is_fopen_failed;
    Precedes is_mass_erase is_write;
    Excludes is_write is_mass_erase;
    Excludes is_mass_erase is_mass_erase;
    Precedes (is_stderr prompt_msg) is_getchar;
    Excludes is_getchar is_getchar ].

Definition report_checks_list `{Layout} : list check :=
  [ Seen is_fatal;
    Seen is_usage;
    Seen (is_stderr verified_msg);
    Seen is_full_fwrite;
    Seen is_file_io;
    Seen (is_stderr not_found_msg);
    Seen is_any_flash_read;
    Seen is_destructive ].

Definition read_only_checks_list : list check :=
  [ Seen is_destructive; Seen is_getchar; Seen is_fread ].

Definition dump_checks_list : list check :=
  [ Seen is_file_io; Seen is_write; Seen is_flash_read; Seen is_dump_config;
    Seen is_mass_erase ].

Definition lock_write_monitor : list check := [ Seen is_lock_write ].

Definition identity_checks_list : list check :=
  [ Precedes is_identified_or_prompt is_destructive ].

(** ** Rules for following a run on its observed trace *)

Section Rules.

Context {L : Layout} {D : Type} {T : N51ICP D}.

Variable ps : list (event -> bool).

Lemma observed_app t1 t2 :
  observed ps (t1 ++ t2) = observed ps t1 ++ observed ps t2.
Proof. apply flat_map_app. Qed.

Lemma observed_one e : observed ps [e] = watch ps e.
Proof. unfold observed. cbn. apply app_nil_r. Qed.

Lemma wp_mono {A} (m : M D A) s (G1 G2 : result A -> _ -> Prop) :
  wp ps m s G1 -> (forall r s', G1 r s' -> G2 r s') -> wp ps m s G2.
Proof. intros H HG w Hw. apply HG, H, Hw. Qed.

Lemma wp_bind {A B} (m : M D A) (k : A -> M D B) s G :
  wp ps m s (fun r s' => match r with
                         | Normal a => wp ps (k a) s' G
                         | Goto l => G (Goto l) s'
                         end) ->
  wp ps (bind m k) s G.
Proof.
  intros H w Hw. specialize (H w Hw). unfold bind.
  destruct (m w) as [[a|l] w']; cbn [fst snd] in *.
  - apply H. reflexivity.
  - exact H.
Qed.

(** A step that adds nothing to the observed trace is passed over: what
    follows it is examined once, whichever way the step went, and not at
    all if the step always leaves through a label. *)
Lemma wp_bind_frame {A B} (m : M D A) (k : A -> M D B) (C : Prop) s G :
  wp ps m s (framed C s G) ->
  (C -> forall a, wp ps (k a) s G) ->
  wp ps (bind m k) s G.
Proof.
  intros Hm Hk. apply wp_bind. apply (wp_mono _ _ _ _ Hm).
  intros [a|l] s'; unfold framed, same.
  - intros [-> HC]. apply Hk, HC.
  - auto.
Qed.

Lemma wp_ret {A} (a : A) s (G : result A -> _ -> Prop) :
  G (Normal a) s -> wp ps (@ret D A a) s G.
Proof. intros H w Hw. cbn. rewrite Hw. exact H. Qed.

Lemma wp_goto {A} l s (G : result A -> _ -> Prop) :
  G (Goto l) s -> wp ps (@goto D A l) s G.
Proof. intros H w Hw. cbn. rewrite Hw. exact H. Qed.

Lemma wp_emit e l s (G : result unit -> _ -> Prop) :
  watch ps e = l ->
  G (Normal tt) (s ++ l) -> wp ps (@emit D e) s G.
Proof.
  intros <- H w Hw. cbn [emit fst snd trace].
  rewrite observed_app, observed_one, Hw. exact H.
Qed.

(** The transport may answer anything. *)
Lemma wp_call {A} (f : D -> A * D) ev l s (G : result A -> _ -> Prop) :
  (forall a, watch ps (ev a) = l a) ->
  (forall a, G (Normal a) (s ++ l a)) -> wp ps (call f ev) s G.
Proof.
  intros El H w Hw. cbn [call fst snd trace].
  rewrite observed_app, observed_one, Hw, El. apply H.
Qed.

Lemma wp_call_ (f : D -> D) e l s (G : result unit -> _ -> Prop) :
  watch ps e = l ->
  G (Normal tt) (s ++ l) -> wp ps (call_ f e) s G.
Proof.
  intros <- H w Hw. cbn [call_ fst snd trace].
  rewrite observed_app, observed_one, Hw. exact H.
Qed.

Lemma wp_getchar l s (G : result Z -> _ -> Prop) :
  (forall x, watch ps (Getchar x) = l x) ->
  (forall x, G (Normal x) (s ++ l x)) -> wp ps (@getchar D) s G.
Proof.
  intros El H w Hw. unfold getchar.
  destruct (stdin w); cbn [fst snd trace];
    rewrite observed_app, observed_one, Hw, El; apply H.
Qed.

Lemma wp_fopen name mode l1 l2 s (G : result (option FILE) -> _ -> Prop) :
  watch ps (Fopen name mode true) = l1 ->
  watch ps (Fopen name mode false) = l2 ->
  (forall data, G (Normal (Some (mk_FILE name mode data))) (s ++ l1)) ->
  G (Normal None) (s ++ l2) ->
  wp ps (@fopen D name mode) s G.
Proof.
  intros <- <- H1 H2 w Hw. unfold fopen.
  destruct (env_fopen (os w) name mode); cbn [fst snd trace];
    rewrite observed_app, observed_one, Hw; [apply H1 | apply H2].
Qed.

Lemma wp_fwrite buf nmemb f l s (G : result Z -> _ -> Prop) :
  (forall n, watch ps (Fwrite (f_name f) (firstn (Z.to_nat nmemb) buf)
                              nmemb n) = l n) ->
  (forall n, G (Normal n) (s ++ l n)) ->
  wp ps (@fwrite D buf nmemb (Some f)) s G.
Proof.
  intros El H w Hw. cbn [fwrite fst snd trace].
  rewrite observed_app, observed_one, Hw, El. apply H.
Qed.

(** [print_device_info] only calls [printf]. *)
Lemma wp_print_device_info info s (G : result unit -> _ -> Prop) :
  (forall fmt args, watch ps (Printf fmt args) = []) ->
  G (Normal tt) s ->
  wp ps (@print_device_info D info) s G.
Proof.
  intros Hq H. unfold print_device_info. cbn [for_upto].
  repeat (first [ apply wp_bind
                | eapply wp_emit; [apply Hq | rewrite app_nil_r]
                | apply wp_ret ];
          cbv beta iota).
  exact H.
Qed.

Lemma option_case_cases it fl (w : world D) :
  flags01 fl ->
  (exists fl', flags01 fl' /\
               forall w' : world D, option_case it fl w' = (Normal fl', w')) \/
  option_case it fl w =
    (Goto (exited 1),
     mk_world (dev w) (stdin w) (os w)
       (trace w ++
        [Fprintf_stderr "ERROR: Unknown option: %c\n\n" [AChar (opt it)];
         Usage_text])).
Proof.
  intros (Ha & Hl & Hr). unfold option_case.
  repeat match goal with
         | |- context [if Ascii.eqb ?a ?b then _ else _] =>
             destruct (Ascii.eqb a b)
         end;
    try (left; eexists; split; cycle 1;
         [intros w'; reflexivity | unfold flags01; cbn; tauto]).
  right. unfold bind, eprintf, emit, usage, bind, goto; cbn.
  rewrite <- ?app_assoc. reflexivity.
Qed.

(** The option loop either returns flags that depend on the options alone,
    leaving the world as it was, or ends in [usage]. *)
Lemma getopt_loop_cases items : forall fl (w : world D),
  flags01 fl ->
  (exists fl', flags01 fl' /\
               forall w' : world D, getopt_loop items fl w' = (Normal fl', w')) \/
  (exists c, getopt_loop items fl w =
    (Goto (exited 1),
     mk_world (dev w) (stdin w) (os w)
       (trace w ++
        [Fprintf_stderr "ERROR: Unknown option: %c\n\n" [AChar c];
         Usage_text]))).
Proof.
  induction items as [|it rest IH]; intros fl w F.
  - left. exists fl. split; [assumption | reflexivity].
  - cbn [getopt_loop]. unfold bind.
    destruct (option_case_cases it fl w F) as [(fl' & F' & E) | E].
    + destruct (dump_config fl') eqn:Hd.
      * left. exists fl'. split; [assumption|].
        intros w'. rewrite E, Hd. reflexivity.
      * destruct (IH fl' w F') as [(fl2 & F2 & E2) | (c & E2)].
        -- left. exists fl2. split; [assumption|].
           intros w'. rewrite E, Hd. apply E2.
        -- right. exists c. rewrite E, Hd. exact E2.
    + right. exists (opt it). rewrite E. reflexivity.
Qed.

Lemma wp_getopt_loop items l s (G : result flags -> _ -> Prop) :
  (forall c, watch ps (Fprintf_stderr "ERROR: Unknown option: %c\n\n" [AChar c])
             ++ watch ps Usage_text = l) ->
  (forall fl, flags01 fl ->
              (forall w : world D,
                  getopt_loop items init_flags w = (Normal fl, w)) ->
              G (Normal fl) s) ->
  G (Goto (exited 1)) (s ++ l) ->
  wp ps (@getopt_loop D items init_flags) s G.
Proof.
  intros El H1 H2 w Hw.
  destruct (getopt_loop_cases items init_flags w) as [(fl & F & E) | (c & E)].
  - unfold flags01; cbn; tauto.
  - rewrite E. cbn [fst snd]. rewrite Hw. apply H1; assumption.
  - rewrite E. cbn [fst snd trace].
    rewrite observed_app, Hw.
    change [Fprintf_stderr "ERROR: Unknown option: %c\n\n" [AChar c]; Usage_text]
      with ([Fprintf_stderr "ERROR: Unknown option: %c\n\n" [AChar c]]
              ++ [Usage_text]).
    rewrite observed_app, !observed_one, El. exact H2.
Qed.

(** A property of the label [main_body] leaves through, of the outcome and
    of the observed trace of the whole run. *)
Lemma main_observed argc argv (d : D) input env
      (P : result unit -> outcome * list (list bool) -> Prop) :
  wp ps (main_body argc argv) [] (fun r s => P r (finish_observed ps r s)) ->
  P (fst (main_body argc argv (mk_world d input env [])))
    (run_outcome argc argv d input env,
     observed ps (run_trace argc argv d input env)).
Proof.
  intros H. specialize (H (mk_world d input env []) eq_refl).
  unfold run_outcome, run_trace, main.
  destruct (main_body argc argv _) as [[u|l] w1]; cbn [fst snd] in *.
  - unfold finish, finish_observed, shutdown, bind, call_ in *.
    cbn [fst snd trace]. rewrite !observed_app, !observed_one, <- app_assoc.
    exact H.
  - destruct l; unfold finish, finish_observed, shutdown, bind, call_ in *;
      cbn [fst snd trace];
      rewrite ?observed_app, ?observed_one, <- ?app_assoc; exact H.
Qed.

End Rules.

(** Symbolic execution on the observed trace. *)

Ltac head_of t :=
  lazymatch t with
  | ?f _ => head_of f
  | _ => t
  end.

(** The leftmost test of a condition. *)
Ltac atom_of c :=
  lazymatch c with
  | negb ?x => atom_of x
  | ?x || _ => atom_of x
  | ?x && _ => atom_of x
  | _ => c
  end.

(** Decide a test: by a fact at hand, or by cases. *)
Ltac decide_atom a :=
  first
    [ is_var a; destruct a
    | match goal with
      | H : a = _ |- _ => rewrite H
      end
    | destruct a eqn:? ].

(** What one event adds to the observed trace. *)
Ltac watch_it :=
  intros; unfold watch, loud, observe; cbn; rewrite ?Z.eqb_refl;
  cbn [andb orb negb]; reflexivity.

Ltac wp_simpl :=
  cbv beta iota delta [framed];
  repeat lazymatch goal with
    | |- context [_ ++ (if ?c then _ else _)] =>
        let a := atom_of c in
        decide_atom a; cbn [negb andb orb]
    end;
  cbn [fst snd app
       write_aprom write_ldrom read_aprom dump_config lock_chip filename
       filename_ldrom devid cid uid ucid
       l_chosen_ldrom_sz l_write_config l_ldrom_data l_write_data
       f_name f_mode f_data
       truthy negb andb orb Z.eqb Pos.eqb].

Ltac is_prim m :=
  let h := head_of m in
  lazymatch h with
  | @ret => idtac
  | @goto => idtac
  | @emit => idtac
  | @eprintf => idtac
  | @printf => idtac
  | @call => idtac
  | @call_ => idtac
  | @getchar => idtac
  | @fopen => idtac
  | @fwrite => idtac
  | @fread => idtac
  | @usage => idtac
  | @print_device_info => idtac
  | @getopt_loop => idtac
  end.

Ltac split_flags fl F :=
  let wa := fresh "wa" in let wl := fresh "wl" in let ra := fresh "ra" in
  let dc := fresh "dc" in let lk := fresh "lk" in
  let fn := fresh "fn" in let fnl := fresh "fnl" in
  destruct fl as [wa wl ra dc lk fn fnl];
  let Ha := fresh in let Hl := fresh in let Hr := fresh in
  destruct F as (Ha & Hl & Hr); cbn in Ha, Hl, Hr;
  destruct Ha, Hl, Hr; subst wa wl ra; destruct dc.

(** One step; [hook] runs once the option flags are known. *)
Ltac wp_step_with hook :=
  lazymatch goal with
  | |- wp _ (bind ?m _) _ _ =>
      first
        [ is_prim m; apply wp_bind
        | eapply wp_bind_frame;
          [ repeat (wp_step_with hook);
            lazymatch goal with
            | |- same _ _ /\ _ => split; [reflexivity | exact I]
            | |- _ => idtac
            end
          | lazymatch goal with
            | |- ?C -> _ =>
                tryif is_evar C
                then (unify C False; intros [])
                else (intros _ ?)
            end ]
        | apply wp_bind ]
  | |- wp _ (ret _) _ _ => apply wp_ret
  | |- wp _ (goto _) _ _ => apply wp_goto
  | |- wp _ (emit _) _ _ => eapply wp_emit; [watch_it | ]
  | |- wp _ (eprintf _ _) _ _ => eapply wp_emit; [watch_it | ]
  | |- wp _ (printf _ _) _ _ => eapply wp_emit; [watch_it | ]
  | |- wp _ (call _ _) _ _ => eapply wp_call; [watch_it | intros ? ]
  | |- wp _ (call_ _ _) _ _ => eapply wp_call_; [watch_it | ]
  | |- wp _ getchar _ _ => eapply wp_getchar; [watch_it | intros ? ]
  | |- wp _ (fopen _ _) _ _ =>
      eapply wp_fopen; [watch_it | watch_it | intros ? | ]
  | |- wp _ (fwrite _ _ (Some _)) _ _ =>
      eapply wp_fwrite; [watch_it | intros ? ]
  | |- wp _ (fwrite _ _ None) _ _ => apply wp_goto
  | |- wp _ (fwrite _ _ ?f) _ _ => destruct f
  | |- wp _ (fread _ (Some _)) _ _ => unfold fread
  | |- wp _ (fread _ None) _ _ => apply wp_goto
  | |- wp _ (fread _ ?f) _ _ => destruct f
  | |- wp _ (print_device_info _) _ _ =>
      apply wp_print_device_info; [watch_it | ]
  | |- wp _ (getopt_loop _ _) _ _ =>
      let fl := fresh "fl" in
      let F := fresh "F" in
      let E := fresh "E" in
      eapply wp_getopt_loop;
      [ watch_it | intros fl F E; split_flags fl F; hook | ]
  | |- wp _ (when_ _ _) _ _ => unfold when_
  | |- wp _ usage _ _ => unfold usage
  | |- wp _ (if _ then _ else _) _ _ =>
      rewrite ?andb_false_r, ?orb_true_r, ?andb_true_r, ?orb_false_r;
      lazymatch goal with
      | |- wp _ (if ?c then _ else _) _ _ =>
          let a := atom_of c in decide_atom a
      | _ => idtac
      end
  | |- wp _ (match ?x with Some _ => _ | None => _ end) _ _ => destruct x
  | |- wp _ (let (_, _) := ?x in _) _ _ => destruct x
  | |- wp _ ?m _ _ => let h := head_of m in unfold h
  end; wp_simpl.

Ltac wp_step := wp_step_with ltac:(idtac).

(** Follow [main] from an empty trace down to each of its exits. *)
Ltac run_main_with hook :=
  unfold main_body; cbv zeta;
  repeat (wp_step_with hook);
  cbv beta iota delta [finish_observed];
  repeat lazymatch goal with
    | |- context [watch ?ps ?e] =>
        let x := eval cbv beta iota delta [watch loud observe existsb map] in
                   (watch ps e) in
        let y := eval cbn in x in
        change (watch ps e) with y
    end;
  cbn [app fst snd].

Ltac run_main := run_main_with ltac:(idtac).

(** ** What the checks on an observed trace say about the trace *)

Section Checks.

Context {A : Type}.

Lemma preceded_by_sound (p q : A -> bool) t :
  preceded_by p q t = true ->
  forall pre e post, t = pre ++ e :: post -> q e = true ->
  exists e', In e' pre /\ p e' = true.
Proof.
  induction t as [|x t IH]; intros H pre e post E Hq.
  - destruct pre; discriminate.
  - cbn [preceded_by] in H.
    destruct pre as [|y pre]; cbn in E; inversion E; subst.
    + rewrite Hq in H. discriminate.
    + destruct (q y); [discriminate|]. destruct (p y) eqn:Hp.
      * exists y. split; [left; reflexivity | assumption].
      * destruct (IH H pre e post eq_refl Hq) as (e' & Hin & He').
        exists e'. split; [right; assumption | assumption].
Qed.

Lemma followed_by_sound (p q : A -> bool) t :
  followed_by p q t = true ->
  forall pre e post, t = pre ++ e :: post -> p e = true ->
  exists e', In e' post /\ q e' = true.
Proof.
  induction t as [|x t IH]; intros H pre e post E Hp.
  - destruct pre; discriminate.
  - cbn [followed_by] in H. apply andb_true_iff in H. destruct H as [H1 H2].
    destruct pre as [|y pre]; cbn in E; inversion E; subst.
    + rewrite Hp in H1. apply existsb_exists in H1. exact H1.
    + exact (IH H2 pre e post eq_refl Hp).
Qed.

Lemma existsb_false_In (p : A -> bool) l :
  existsb p l = false -> forall x, In x l -> p x = false.
Proof.
  intros H x Hin. destruct (p x) eqn:Hp; [|reflexivity].
  assert (existsb p l = true) by (apply existsb_exists; eauto). congruence.
Qed.

Lemma none_after_sound (p q : A -> bool) t :
  none_after p q t = true ->
  forall pre e post, t = pre ++ e :: post -> p e = true ->
  forall e', In e' post -> q e' = false.
Proof.
  induction t as [|x t IH]; intros H pre e post E Hp.
  - destruct pre; discriminate.
  - cbn [none_after] in H.
    destruct pre as [|y pre]; cbn in E; inversion E; subst.
    + rewrite Hp in H. apply negb_true_iff in H.
      apply existsb_false_In. exact H.
    + destruct (p y) eqn:Hy.
      * apply negb_true_iff in H. intros e' Hin.
        apply (existsb_false_In _ _ H). apply in_or_app. right. right.
        exact Hin.
      * exact (IH H pre e post eq_refl Hp).
Qed.

End Checks.

Section Transfer.

Variable ps : list (event -> bool).

Lemma bit_quiet i e : loud ps e = false -> bit i (observe ps e) = false.
Proof.
  unfold loud, bit, observe. revert i.
  induction ps as [|p l IH]; intros i H; [destruct i; reflexivity|].
  cbn in H. apply orb_false_iff in H. destruct H as [Hp Hl].
  destruct i; cbn; [exact Hp | apply IH, Hl].
Qed.

Lemma existsb_observed i t :
  existsb (bit i) (observed ps t) = existsb (test ps i) t.
Proof.
  induction t as [|e t IH]; [reflexivity|].
  unfold observed in *. cbn [flat_map existsb]. unfold watch at 1.
  destruct (loud ps e) eqn:Hl.
  - cbn [app existsb]. rewrite IH. reflexivity.
  - cbn [app]. unfold test in *. rewrite (bit_quiet i e Hl). exact IH.
Qed.

Lemma preceded_by_observed i j t :
  preceded_by (bit i) (bit j) (observed ps t) = preceded_by (test ps i) (test ps j) t.
Proof.
  induction t as [|e t IH]; [reflexivity|].
  unfold observed in *. cbn [flat_map preceded_by]. unfold watch at 1.
  destruct (loud ps e) eqn:Hl.
  - cbn [app preceded_by]. rewrite IH. reflexivity.
  - cbn [app]. unfold test in *.
    rewrite (bit_quiet i e Hl), (bit_quiet j e Hl). exact IH.
Qed.

Lemma followed_by_observed i j t :
  followed_by (bit i) (bit j) (observed ps t) = followed_by (test ps i) (test ps j) t.
Proof.
  induction t as [|e t IH]; [reflexivity|].
  change (observed ps (e :: t)) with (watch ps e ++ observed ps t).
  cbn [followed_by]. rewrite <- IH, <- existsb_observed.
  unfold watch. destruct (loud ps e) eqn:Hl.
  - reflexivity.
  - cbn [app]. unfold test. rewrite (bit_quiet i e Hl). reflexivity.
Qed.

Lemma none_after_observed i j t :
  none_after (bit i) (bit j) (observed ps t) = none_after (test ps i) (test ps j) t.
Proof.
  induction t as [|e t IH]; [reflexivity|].
  change (observed ps (e :: t)) with (watch ps e ++ observed ps t).
  cbn [none_after]. rewrite <- IH, <- existsb_observed.
  unfold watch. destruct (loud ps e) eqn:Hl.
  - reflexivity.
  - cbn [app]. unfold test. rewrite (bit_quiet i e Hl). reflexivity.
Qed.

(** The four checks, read on the trace itself. *)

Lemma seen_spec i t :
  existsb (bit i) (observed ps t) = true ->
  exists e, In e t /\ bit i (observe ps e) = true.
Proof. rewrite existsb_observed. apply existsb_exists. Qed.

Lemma seen_intro i t e :
  In e t -> bit i (observe ps e) = true ->
  existsb (bit i) (observed ps t) = true.
Proof.
  intros Hin He. rewrite existsb_observed. apply existsb_exists. eauto.
Qed.

Lemma unseen_spec i t :
  existsb (bit i) (observed ps t) = false ->
  forall e, In e t -> bit i (observe ps e) = false.
Proof. rewrite existsb_observed. apply existsb_false_In. Qed.

Lemma preceded_by_spec i j t :
  preceded_by (bit i) (bit j) (observed ps t) = true ->
  forall pre e post, t = pre ++ e :: post -> bit j (observe ps e) = true ->
  exists e', In e' pre /\ bit i (observe ps e') = true.
Proof. rewrite preceded_by_observed. apply preceded_by_sound. Qed.

Lemma followed_by_spec i j t :
  followed_by (bit i) (bit j) (observed ps t) = true ->
  forall pre e post, t = pre ++ e :: post -> bit i (observe ps e) = true ->
  exists e', In e' post /\ bit j (observe ps e') = true.
Proof. rewrite followed_by_observed. apply followed_by_sound. Qed.

Lemma none_after_spec i j t :
  none_after (bit i) (bit j) (observed ps t) = true ->
  forall pre e post, t = pre ++ e :: post -> bit i (observe ps e) = true ->
  forall e', In e' post -> bit j (observe ps e') = false.
Proof. rewrite none_after_observed. apply none_after_sound. Qed.

End Transfer.

(** Reading a test back into the shape of the event. *)

Lemma is_stderr_eq s e : is_stderr s e = true -> e = Fprintf_stderr s [].
Proof.
  destruct e; try discriminate. cbn. destruct args; [|discriminate].
  intros H. apply String.eqb_eq in H. subst. reflexivity.
Qed.

Lemma is_stderr_refl s : is_stderr s (Fprintf_stderr s []) = true.
Proof. cbn. apply String.eqb_refl. Qed.

Lemma is_mass_erase_eq e : is_mass_erase e = true -> e = ICP_mass_erase.
Proof. destruct e; try discriminate. reflexivity. Qed.

(** ** Rules for following a run on its monitors *)

Section MonitorRules.

Context {L : Layout} {D : Type} {T : N51ICP D}.

Variable cs : list check.

Lemma verdicts_snoc t e :
  verdicts cs (t ++ [e]) = advance_all cs e (verdicts cs t).
Proof. unfold verdicts, verdicts_from. rewrite fold_left_app. reflexivity. Qed.

Lemma wpm_mono {A} (m : M D A) q (G1 G2 : result A -> _ -> Prop) :
  wpm cs m q G1 -> (forall r q', G1 r q' -> G2 r q') -> wpm cs m q G2.
Proof. intros H HG w Hw. apply HG, H, Hw. Qed.

Lemma wpm_bind {A B} (m : M D A) (k : A -> M D B) q G :
  wpm cs m q (fun r q' => match r with
                          | Normal a => wpm cs (k a) q' G
                          | Goto l => G (Goto l) q'
                          end) ->
  wpm cs (bind m k) q G.
Proof.
  intros H w Hw. specialize (H w Hw). unfold bind.
  destruct (m w) as [[a|l] w']; cbn [fst snd] in *.
  - apply H. reflexivity.
  - exact H.
Qed.

(** Where every way through a step leaves the monitors at the same
    verdicts, what follows the step is examined once. *)
Lemma wpm_bind_merge {A B} (m : M D A) (k : A -> M D B) (C : Prop) q q' G :
  wpm cs m q (merged C q' G) ->
  (C -> forall a, wpm cs (k a) q' G) ->
  wpm cs (bind m k) q G.
Proof.
  intros Hm Hk. apply wpm_bind. apply (wpm_mono _ _ _ _ Hm).
  intros [a|l] q''; unfold merged, settled.
  - intros [-> HC]. apply Hk, HC.
  - auto.
Qed.

(** The same, keeping a fact [R] about the value the step hands on. *)
Lemma wpm_bind_keep {A B} (m : M D A) (k : A -> M D B) (C : Prop)
      (R : A -> Prop) q q' G :
  wpm cs m q (fun r q'' => match r with
                           | Normal a => settled q' q'' /\ C /\ R a
                           | Goto l => G (Goto l) q''
                           end) ->
  (C -> forall a, R a -> wpm cs (k a) q' G) ->
  wpm cs (bind m k) q G.
Proof.
  intros Hm Hk. apply wpm_bind. apply (wpm_mono _ _ _ _ Hm).
  intros [a|l] q''; unfold settled.
  - intros (-> & HC & HR). apply Hk; assumption.
  - auto.
Qed.

Lemma wpm_ret {A} (a : A) q (G : result A -> _ -> Prop) :
  G (Normal a) q -> wpm cs (@ret D A a) q G.
Proof. intros H w Hw. cbn. rewrite Hw. exact H. Qed.

Lemma wpm_goto {A} l q (G : result A -> _ -> Prop) :
  G (Goto l) q -> wpm cs (@goto D A l) q G.
Proof. intros H w Hw. cbn. rewrite Hw. exact H. Qed.

Lemma wpm_emit e q q' (G : result unit -> _ -> Prop) :
  advance_all cs e q = q' ->
  G (Normal tt) q' -> wpm cs (@emit D e) q G.
Proof.
  intros <- H w Hw. cbn [emit fst snd trace].
  rewrite verdicts_snoc, Hw. exact H.
Qed.

(** The transport may answer anything. *)
Lemma wpm_call {A} (f : D -> A * D) ev q q' (G : result A -> _ -> Prop) :
  (forall a, advance_all cs (ev a) q = q' a) ->
  (forall a, G (Normal a) (q' a)) -> wpm cs (call f ev) q G.
Proof.
  intros El H w Hw. cbn [call fst snd trace].
  rewrite verdicts_snoc, Hw, El. apply H.
Qed.

Lemma wpm_call_ (f : D -> D) e q q' (G : result unit -> _ -> Prop) :
  advance_all cs e q = q' ->
  G (Normal tt) q' -> wpm cs (call_ f e) q G.
Proof.
  intros <- H w Hw. cbn [call_ fst snd trace].
  rewrite verdicts_snoc, Hw. exact H.
Qed.

Lemma wpm_getchar q q' (G : result Z -> _ -> Prop) :
  (forall x, advance_all cs (Getchar x) q = q' x) ->
  (forall x, G (Normal x) (q' x)) -> wpm cs (@getchar D) q G.
Proof.
  intros El H w Hw. unfold getchar.
  destruct (stdin w); cbn [fst snd trace];
    rewrite verdicts_snoc, Hw, El; apply H.
Qed.

Lemma wpm_fopen name mode q q1 q2 (G : result (option FILE) -> _ -> Prop) :
  advance_all cs (Fopen name mode true) q = q1 ->
  advance_all cs (Fopen name mode false) q = q2 ->
  (forall data, G (Normal (Some (mk_FILE name mode data))) q1) ->
  G (Normal None) q2 ->
  wpm cs (@fopen D name mode) q G.
Proof.
  intros <- <- H1 H2 w Hw. unfold fopen.
  destruct (env_fopen (os w) name mode); cbn [fst snd trace];
    rewrite verdicts_snoc, Hw; [apply H1 | apply H2].
Qed.

Lemma wpm_fwrite buf nmemb f q q' (G : result Z -> _ -> Prop) :
  (forall n, advance_all cs (Fwrite (f_name f) (firstn (Z.to_nat nmemb) buf)
                                    nmemb n) q = q' n) ->
  (forall n, G (Normal n) (q' n)) ->
  wpm cs (@fwrite D buf nmemb (Some f)) q G.
Proof.
  intros El H w Hw. cbn [fwrite fst snd trace].
  rewrite verdicts_snoc, Hw, El. apply H.
Qed.

(** [print_device_info] only calls [printf]. *)
Lemma wpm_print_device_info info q (G : result unit -> _ -> Prop) :
  (forall fmt args, advance_all cs (Printf fmt args) q = q) ->
  G (Normal tt) q ->
  wpm cs (@print_device_info D info) q G.
Proof.
  intros Hq H. unfold print_device_info. cbn [for_upto].
  repeat (first [ apply wpm_bind
                | eapply wpm_emit; [apply Hq | ]
                | apply wpm_ret ];
          cbv beta iota).
  exact H.
Qed.

Lemma wpm_getopt_loop items q q' (G : result flags -> _ -> Prop) :
  (forall c, advance_all cs Usage_text
               (advance_all cs
                  (Fprintf_stderr "ERROR: Unknown option: %c\n\n" [AChar c]) q)
             = q') ->
  (forall fl, flags01 fl ->
              (forall w : world D,
                  getopt_loop items init_flags w = (Normal fl, w)) ->
              G (Normal fl) q) ->
  G (Goto (exited 1)) q' ->
  wpm cs (@getopt_loop D items init_flags) q G.
Proof.
  intros El H1 H2 w Hw.
  destruct (getopt_loop_cases items init_flags w) as [(fl & F & E) | (c & E)].
  - unfold flags01; cbn; tauto.
  - rewrite E. cbn [fst snd]. rewrite Hw. apply H1; assumption.
  - rewrite E. cbn [fst snd trace].
    change [Fprintf_stderr "ERROR: Unknown option: %c\n\n" [AChar c]; Usage_text]
      with ([Fprintf_stderr "ERROR: Unknown option: %c\n\n" [AChar c]]
              ++ [Usage_text]).
    rewrite app_assoc, !verdicts_snoc, Hw, El. exact H2.
Qed.

(** A property of the label [main_body] leaves through, of the outcome and
    of the verdicts on the whole run. *)
Lemma main_verdicts argc argv (d : D) input env
      (P : result unit -> outcome * list verdict -> Prop) :
  wpm cs (main_body argc argv) (idle cs)
      (fun r q => P r (finish_verdicts cs r q)) ->
  P (fst (main_body argc argv (mk_world d input env [])))
    (run_outcome argc argv d input env,
     verdicts cs (run_trace argc argv d input env)).
Proof.
  intros H. specialize (H (mk_world d input env []) eq_refl).
  unfold run_outcome, run_trace, main.
  destruct (main_body argc argv _) as [[u|l] w1]; cbn [fst snd] in *.
  - unfold finish, finish_verdicts, shutdown, bind, call_ in *.
    cbn [fst snd trace]. rewrite !verdicts_snoc. exact H.
  - destruct l; unfold finish, finish_verdicts, shutdown, bind, call_ in *;
      cbn [fst snd trace]; rewrite ?verdicts_snoc; exact H.
Qed.

End MonitorRules.

(** Symbolic execution on the monitors. *)

(** What one event does to the verdicts. *)
Ltac advance_it :=
  intros; cbn; rewrite ?Z.eqb_refl; cbn [andb orb negb]; reflexivity.

Ltac wpm_simpl :=
  cbv beta iota delta [merged];
  repeat lazymatch goal with
    | |- wpm _ _ ?q _ =>
        lazymatch q with
        | context [if ?c then _ else _] =>
            let a := atom_of c in
            decide_atom a; cbn [negb andb orb]
        end
    | |- ?G =>
        lazymatch G with
        | context [if ?c then Armed else _] =>
            let a := atom_of c in
            decide_atom a; cbn [negb andb orb]
        | context [if ?c then Broken else _] =>
            let a := atom_of c in
            decide_atom a; cbn [negb andb orb]
        end
    end;
  cbn [fst snd
       write_aprom write_ldrom read_aprom dump_config lock_chip filename
       filename_ldrom devid cid uid ucid
       l_chosen_ldrom_sz l_write_config l_ldrom_data l_write_data
       f_name f_mode f_data
       truthy negb andb orb Z.eqb Pos.eqb].

(** One step; [hook] runs once the option flags are known, and steps are
    merged where [allow] lets them. *)
Ltac wpm_step_gen allow hook :=
  lazymatch goal with
  | |- wpm _ (bind ?m _) _ _ =>
      first
        [ is_prim m; apply wpm_bind
        | allow; eapply wpm_bind_merge;
          [ repeat (wpm_step_gen allow hook);
            lazymatch goal with
            | |- settled _ _ /\ _ => split; [reflexivity | exact I]
            | |- _ => idtac
            end
          | lazymatch goal with
            | |- ?C -> _ =>
                tryif is_evar C
                then (unify C False;
                      lazymatch goal with
                      | |- _ -> forall _, wpm _ _ ?q _ =>
                          unify q (@nil verdict)
                      end;
                      intros [])
                else (intros _ ?)
            end ]
        | apply wpm_bind ]
  | |- wpm _ (ret _) _ _ => apply wpm_ret
  | |- wpm _ (goto _) _ _ => apply wpm_goto
  | |- wpm _ (emit _) _ _ => eapply wpm_emit; [advance_it | ]
  | |- wpm _ (eprintf _ _) _ _ => eapply wpm_emit; [advance_it | ]
  | |- wpm _ (printf _ _) _ _ => eapply wpm_emit; [advance_it | ]
  | |- wpm _ (call _ _) _ _ => eapply wpm_call; [advance_it | intros ? ]
  | |- wpm _ (call_ _ _) _ _ => eapply wpm_call_; [advance_it | ]
  | |- wpm _ getchar _ _ => eapply wpm_getchar; [advance_it | intros ? ]
  | |- wpm _ (fopen _ _) _ _ =>
      eapply wpm_fopen; [advance_it | advance_it | intros ? | ]
  | |- wpm _ (fwrite _ _ (Some _)) _ _ =>
      eapply wpm_fwrite; [advance_it | intros ? ]
  | |- wpm _ (fwrite _ _ None) _ _ => apply wpm_goto
  | |- wpm _ (fwrite _ _ ?f) _ _ => destruct f
  | |- wpm _ (fread _ (Some _)) _ _ => unfold fread
  | |- wpm _ (fread _ None) _ _ => apply wpm_goto
  | |- wpm _ (fread _ ?f) _ _ => destruct f
  | |- wpm _ (print_device_info _) _ _ =>
      apply wpm_print_device_info; [advance_it | ]
  | |- wpm _ (getopt_loop _ _) _ _ =>
      let fl := fresh "fl" in
      let F := fresh "F" in
      let E := fresh "E" in
      eapply wpm_getopt_loop;
      [ advance_it | intros fl F E; split_flags fl F; hook | ]
  | |- wpm _ (when_ _ _) _ _ => unfold when_
  | |- wpm _ usage _ _ => unfold usage
  | |- wpm _ (if _ then _ else _) _ _ =>
      rewrite ?andb_false_r, ?orb_true_r, ?andb_true_r, ?orb_false_r;
      lazymatch goal with
      | |- wpm _ (if ?c then _ else _) _ _ =>
          let a := atom_of c in decide_atom a
      | _ => idtac
      end
  | |- wpm _ (match ?x with Some _ => _ | None => _ end) _ _ => destruct x
  | |- wpm _ (let (_, _) := ?x in _) _ _ => destruct x
  | |- wpm _ ?m _ _ => let h := head_of m in unfold h
  end; wpm_simpl.

Ltac wpm_step_with hook := wpm_step_gen ltac:(idtac) hook.

(** Follow [main] from idle monitors down to each of its exits. *)
Ltac watch_main_with hook :=
  unfold main_body; cbv zeta;
  repeat (wpm_step_with hook);
  cbv beta iota delta [finish_verdicts];
  cbn [advance_all advance fst snd].

Ltac watch_main := watch_main_with ltac:(idtac).

(** ** What the verdicts say about the trace *)

Section MonitorSound.

Lemma advance_all_nth cs e : forall vs i c v,
  nth_error cs i = Some c -> nth_error vs i = Some v ->
  nth_error (advance_all cs e vs) i = Some (advance c e v).
Proof.
  induction cs as [|c0 cs IH]; intros vs i c v Hc Hv.
  - destruct i; discriminate.
  - destruct vs as [|v0 vs]; [destruct i; discriminate|].
    destruct i as [|i]; cbn in *.
    + inversion Hc. inversion Hv. reflexivity.
    + apply IH; assumption.
Qed.

Lemma verdicts_from_nth cs i c t : forall vs v,
  nth_error cs i = Some c -> nth_error vs i = Some v ->
  nth_error (verdicts_from cs vs t) i = Some (verdict_from c v t).
Proof.
  induction t as [|e t IH]; intros vs v Hc Hv; [exact Hv|].
  cbn. apply IH; [assumption|]. apply advance_all_nth; assumption.
Qed.

Lemma verdicts_nth cs i c t :
  nth_error cs i = Some c ->
  nth_error (verdicts cs t) i = Some (verdict_from c Idle t).
Proof.
  intros Hc. apply verdicts_from_nth; [assumption|].
  unfold idle. rewrite nth_error_map, Hc. reflexivity.
Qed.

Lemma verdict_from_cons c v e t :
  verdict_from c v (e :: t) = verdict_from c (advance c e v) t.
Proof. reflexivity. Qed.

Lemma verdict_from_broken c t : verdict_from c Broken t = Broken.
Proof. induction t; [reflexivity | assumption]. Qed.

Lemma verdict_from_armed c t :
  (forall p q, c <> Excludes p q) -> verdict_from c Armed t = Armed.
Proof.
  intros Hc. induction t as [|e t IH]; [reflexivity|].
  rewrite verdict_from_cons. destruct c; try exact IH.
  exfalso. exact (Hc _ _ eq_refl).
Qed.

Lemma seen_verdict p t :
  verdict_from (Seen p) Idle t = if existsb p t then Armed else Idle.
Proof.
  induction t as [|e t IH]; [reflexivity|].
  rewrite verdict_from_cons. cbn [advance existsb orb].
  destruct (p e); [|exact IH].
  apply verdict_from_armed. discriminate.
Qed.

Lemma precedes_verdict p q t :
  verdict_from (Precedes p q) Idle t <> Broken -> preceded_by p q t = true.
Proof.
  induction t as [|e t IH]; [reflexivity|].
  rewrite verdict_from_cons. cbn [advance preceded_by]. destruct (q e).
  - rewrite verdict_from_broken. congruence.
  - destruct (p e); [reflexivity | exact IH].
Qed.

Lemma excludes_armed p q t :
  verdict_from (Excludes p q) Armed t <> Broken -> existsb q t = false.
Proof.
  induction t as [|e t IH]; [reflexivity|].
  rewrite verdict_from_cons. cbn [advance existsb orb]. destruct (q e).
  - rewrite verdict_from_broken. congruence.
  - exact IH.
Qed.

Lemma excludes_verdict p q t :
  verdict_from (Excludes p q) Idle t <> Broken -> none_after p q t = true.
Proof.
  induction t as [|e t IH]; [reflexivity|].
  rewrite verdict_from_cons. cbn [advance none_after].
  destruct (p e); [|exact IH].
  intros H. rewrite (excludes_armed p q t H). reflexivity.
Qed.

Lemma kept_not_broken i vs v :
  nth_error vs i = Some v -> kept i vs = true -> v <> Broken.
Proof.
  intros Hv. unfold kept. rewrite (nth_error_nth _ _ _ Hv).
  destruct v; congruence.
Qed.

(** The three kinds of check, read on the trace itself. *)

Lemma seen_armed cs i p t :
  nth_error cs i = Some (Seen p) ->
  armed i (verdicts cs t) = existsb p t.
Proof.
  intros Hc. unfold armed.
  rewrite (nth_error_nth _ _ _ (verdicts_nth cs i _ t Hc)), seen_verdict.
  destruct (existsb p t); reflexivity.
Qed.

Lemma seen_in cs i p t :
  nth_error cs i = Some (Seen p) ->
  armed i (verdicts cs t) = true -> exists e, In e t /\ p e = true.
Proof. intros Hc. rewrite (seen_armed cs i p t Hc). apply existsb_exists. Qed.

Lemma unseen_in cs i p t :
  nth_error cs i = Some (Seen p) ->
  armed i (verdicts cs t) = false -> forall e, In e t -> p e = false.
Proof. intros Hc. rewrite (seen_armed cs i p t Hc). apply existsb_false_In. Qed.

Lemma precedes_kept cs i p q t :
  nth_error cs i = Some (Precedes p q) ->
  kept i (verdicts cs t) = true ->
  forall pre e post, t = pre ++ e :: post -> q e = true ->
  exists e', In e' pre /\ p e' = true.
Proof.
  intros Hc Hk. apply preceded_by_sound, precedes_verdict.
  exact (kept_not_broken _ _ _ (verdicts_nth cs i _ t Hc) Hk).
Qed.

Lemma excludes_kept cs i p q t :
  nth_error cs i = Some (Excludes p q) ->
  kept i (verdicts cs t) = true ->
  forall pre e post, t = pre ++ e :: post -> p e = true ->
  forall e', In e' post -> q e' = false.
Proof.
  intros Hc Hk. apply none_after_sound, excludes_verdict.
  exact (kept_not_broken _ _ _ (verdicts_nth cs i _ t Hc) Hk).
Qed.

End MonitorSound.

(** ** The planner arithmetic *)

Lemma kb_no_wrap n :
  1 <= n <= 255 * 1024 -> chosen_ldrom_sz_kb n = (n - 1) / 1024 + 1.
Proof.
  intros Hn. unfold chosen_ldrom_sz_kb, to_uint8, c_div.
  rewrite Z.quot_div_nonneg by lia. apply Z.mod_small.
  assert (0 <= (n - 1) / 1024) by (apply Z.div_pos; lia).
  assert ((n - 1) / 1024 < 255) by (apply Z.div_lt_upper_bound; lia).
  lia.
Qed.

Lemma round_up_kib_eq n : round_up_kib n = (n - 1) / 1024 + 1.
Proof.
  unfold round_up_kib. replace (n + 1023) with (n - 1 + 1 * 1024) by lia.
  apply Z.div_add. lia.
Qed.

(** [((n - 1) / 1024 + 1) * 1024] is the least multiple of 1024 that is at
    least [n]. *)
Lemma least_kib_multiple n :
  let sz := ((n - 1) / 1024 + 1) * 1024 in
  sz mod 1024 = 0 /\ n <= sz /\
  forall m, m mod 1024 = 0 -> n <= m -> sz <= m.
Proof.
  intros sz. subst sz.
  pose proof (Z.div_mod (n - 1) 1024 ltac:(lia)) as Hd.
  pose proof (Z.mod_pos_bound (n - 1) 1024 ltac:(lia)) as Hr.
  split; [apply Z.mod_mul; lia|]. split; [lia|].
  intros m Hm Hle.
  pose proof (Z.div_mod m 1024 ltac:(lia)) as Hk. rewrite Hm in Hk. lia.
Qed.

Lemma chosen_ldrom_sz_least n :
  1 <= n <= 255 * 1024 ->
  chosen_ldrom_sz n mod 1024 = 0 /\ n <= chosen_ldrom_sz n /\
  forall m, m mod 1024 = 0 -> n <= m -> chosen_ldrom_sz n <= m.
Proof.
  intros Hn. unfold chosen_ldrom_sz. rewrite (kb_no_wrap n Hn).
  apply least_kib_multiple.
Qed.

(** With a loader size limit that is a whole number of KiB, the region
    never exceeds the limit, whatever [fread] delivered. *)
Lemma chosen_ldrom_sz_bounded `{L : Layout} (HL : LayoutOk L) n :
  0 <= n <= LDROM_MAX_SIZE ->
  1024 <= chosen_ldrom_sz n <= LDROM_MAX_SIZE.
Proof.
  intros Hn. destruct HL as [_ Hpos Hkib Hsmall _].
  pose proof (Z.div_mod LDROM_MAX_SIZE 1024 ltac:(lia)) as Hm.
  rewrite Hkib in Hm.
  destruct (Z.eq_dec n 0) as [-> | Hnz].
  - change (chosen_ldrom_sz 0) with 1024. lia.
  - destruct (chosen_ldrom_sz_least n ltac:(lia)) as (H1 & H2 & H3).
    specialize (H3 LDROM_MAX_SIZE Hkib ltac:(lia)).
    pose proof (Z.div_mod (chosen_ldrom_sz n) 1024 ltac:(lia)) as Hc.
    rewrite H1 in Hc. lia.
Qed.

Lemma land_7_mod_8 x : Z.land x 7 mod 8 = Z.land x 7.
Proof.
  change 7 with (Z.ones 3). rewrite Z.land_ones by lia.
  change (2 ^ 3) with 8. apply Z.mod_mod. lia.
Qed.

(** ** Buffers *)

Lemma length_memset c n : List.length (memset c n) = Z.to_nat n.
Proof. apply repeat_length. Qed.

Lemma fread_count (nmemb : Z) (data : list Z) :
  0 <= nmemb ->
  Z.of_nat (List.length (firstn (Z.to_nat nmemb) data))
  = Z.min (Z.of_nat (List.length data)) nmemb.
Proof. intros H. rewrite length_firstn. lia. Qed.

Lemma skipn_repeat {A} (x : A) k n : skipn k (repeat x n) = repeat x (n - k).
Proof.
  revert n. induction k as [|k IH]; intros n.
  - cbn. f_equal. lia.
  - destruct n as [|n]; [reflexivity|]. cbn. apply IH.
Qed.

Lemma memcmp_zero_iff n : forall a b,
  (n <= List.length a)%nat -> (n <= List.length b)%nat ->
  (memcmp a b n = 0 <-> firstn n a = firstn n b).
Proof.
  induction n as [|n IH]; intros a b Ha Hb.
  - cbn. split; reflexivity.
  - destruct a as [|x a]; [cbn in Ha; lia|].
    destruct b as [|y b]; [cbn in Hb; lia|].
    cbn in Ha, Hb. cbn [memcmp firstn].
    destruct (x =? y) eqn:E.
    + apply Z.eqb_eq in E. subst y.
      rewrite (IH a b) by lia. split; intros H; [f_equal; exact H|].
      inversion H. reflexivity.
    + apply Z.eqb_neq in E. split; intros H; [lia|].
      inversion H. contradiction.
Qed.

(** ** The programming steps, run *)

Section Steps.

Context {L : Layout} {D : Type} {T : N51ICP D}.

Lemma program_ldrom_run f lc (w : world D) :
  let n := ldrom_size f in
  let ldrom_data :=
    buf_store (l_ldrom_data lc) 0 (firstn (Z.to_nat LDROM_MAX_SIZE) (f_data f)) in
  let cfg :=
    set_LDS (Z.land (7 - chosen_ldrom_sz_kb n) 0x7)
            (set_CBS 0 (l_write_config lc)) in
  program_ldrom (Some f) lc w =
  (Normal (mk_locals (chosen_ldrom_sz n) cfg ldrom_data (l_write_data lc)),
   mk_world
     (N51ICP_write_flash (FLASH_SIZE - chosen_ldrom_sz n) n (Bytes ldrom_data)
        (N51ICP_write_flash CFG_FLASH_ADDR CFG_FLASH_LEN (Config cfg) (dev w)))
     (stdin w) (os w)
     (trace w ++
      [Fprintf_stderr "Programming LDROM...\n" [];
       Fread (f_name f) LDROM_MAX_SIZE n;
       ICP_write_flash CFG_FLASH_ADDR CFG_FLASH_LEN (Config cfg);
       ICP_write_flash (FLASH_SIZE - chosen_ldrom_sz n) n (Bytes ldrom_data);
       Fprintf_stderr "Programmed LDROM (%d bytes)\n" [AInt n]])).
Proof.
  destruct w as [d i o t].
  unfold program_ldrom, fread, eprintf, bind, emit, call_, ret, ldrom_size,
    chosen_ldrom_sz.
  cbn [dev stdin os trace fst snd]. repeat rewrite <- app_assoc. reflexivity.
Qed.

Lemma program_aprom_run f lc (w : world D) :
  let cap := aprom_size (l_chosen_ldrom_sz lc) in
  let bytes := firstn (Z.to_nat cap) (f_data f) in
  let n := Z.of_nat (List.length bytes) in
  let write_data := buf_store (l_write_data lc) 0 bytes in
  program_aprom (Some f) lc w =
  (Normal (mk_locals (l_chosen_ldrom_sz lc) (l_write_config lc)
                     (l_ldrom_data lc) write_data),
   mk_world
     (N51ICP_write_flash APROM_FLASH_ADDR n (Bytes write_data) (dev w))
     (stdin w) (os w)
     (trace w ++
      [Fprintf_stderr "Programming APROM...\n" [];
       Fread (f_name f) cap n;
       ICP_write_flash APROM_FLASH_ADDR n (Bytes write_data);
       Fprintf_stderr "Programmed APROM (%d bytes)\n" [AInt n]])).
Proof.
  destruct w as [d i o t].
  unfold program_aprom, fread, eprintf, bind, emit, call_, ret.
  cbn [dev stdin os trace fst snd]. repeat rewrite <- app_assoc. reflexivity.
Qed.

Lemma verify_and_lock_run fl read_data lc (w : world D) :
  let r := N51ICP_read_flash APROM_FLASH_ADDR FLASH_SIZE (dev w) in
  let b := buf_store read_data 0 (fst r) in
  let readback := ICP_read_flash APROM_FLASH_ADDR FLASH_SIZE (Bytes b) in
  let lock_cfg := set_LOCK 0 (l_write_config lc) in
  let lock_write :=
    ICP_write_flash CFG_FLASH_ADDR CFG_FLASH_LEN (Config lock_cfg) in
  let res := verify_and_lock fl read_data lc w in
  if memcmp (expected_flash lc) b (Z.to_nat FLASH_SIZE) =? 0 then
    fst res = Normal tt /\
    trace (snd res) =
      trace w ++ [readback; Fprintf_stderr verified_msg []]
        ++ (if lock_chip fl then [lock_write] else [])
        ++ [ICP_dump_config]
  else
    fst res = Goto out_err /\
    trace (snd res) =
      trace w ++ [readback; ICP_dump_config;
                  Fprintf_stderr verify_error_msg []].
Proof.
  destruct w as [d i o t]. cbv zeta.
  unfold verify_and_lock, bind, call. cbn [dev stdin os trace fst snd].
  unfold truthy.
  destruct (memcmp _ _ _ =? 0); cbn [negb].
  - unfold eprintf, ret, bind, emit. cbn [dev stdin os trace fst snd].
    destruct (lock_chip fl); unfold call_, bind;
      cbn [dev stdin os trace fst snd]; repeat rewrite <- app_assoc;
      split; reflexivity.
  - unfold eprintf, goto, bind, emit, call_. cbn [dev stdin os trace fst snd].
    repeat rewrite <- app_assoc. split; reflexivity.
Qed.

End Steps.

(** ** [main] by its phases *)

Section Phases.

Context {L : Layout} {D : Type} {T : N51ICP D}.

Lemma bind_run {A B} (m : M D A) (k : A -> M D B) (w : world D) :
  bind m k w = match m w with
               | (Normal a, w') => k a w'
               | (Goto l, w') => (Goto l, w')
               end.
Proof. reflexivity. Qed.

(** [main_body] is its three parts in sequence. *)
Lemma main_body_phases argc argv (w : world D) :
  main_body argc argv w =
  match preparation argc argv w with
  | (Normal (fl, file, file_ldrom), w1) =>
      match programming fl file file_ldrom w1 with
      | (Normal lc, w2) => completion fl file lc w2
      | (Goto l, w2) => (Goto l, w2)
      end
  | (Goto l, w1) => (Goto l, w1)
  end.
Proof.
  unfold main_body, preparation, programming, loader_step, application_step,
    completion.
  cbv zeta.
  repeat (rewrite ?bind_run; cbv beta iota delta [ret];
          lazymatch goal with
          | |- match ?m ?w0 with _ => _ end = _ =>
              destruct (m w0) as [[? | ?] ?]; [|reflexivity]
          | |- (let (_, _) := ?x in _) _ = _ => destruct x
          end).
  reflexivity.
Qed.

Lemma finish_trace (r : result unit) (w : world D) :
  exists tail,
    trace (snd (finish (r, w))) = trace w ++ tail /\
    (tail = [] \/ tail = [ICP_exit; PGM_deinit 0]).
Proof.
  assert (Hs : trace (snd (shutdown w)) = trace w ++ [ICP_exit; PGM_deinit 0]).
  { unfold shutdown, bind, call_. cbn [fst snd trace].
    rewrite <- app_assoc. reflexivity. }
  destruct r as [u | l]; [|destruct l]; cbn [finish snd];
    first
      [ exists [ICP_exit; PGM_deinit 0]; split; [exact Hs | right; reflexivity]
      | exists []; rewrite app_nil_r; split; [reflexivity | left; reflexivity] ].
Qed.

(** A run ends in [shutdown] exactly when it leaves the body at its end or
    through [out] or [out_err]. *)
Lemma finish_shutdown (r : result unit) (w : world D) :
  r = Normal tt \/ r = Goto out \/ r = Goto out_err ->
  trace (snd (finish (r, w))) = trace w ++ [ICP_exit; PGM_deinit 0].
Proof.
  assert (Hs : trace (snd (shutdown w)) = trace w ++ [ICP_exit; PGM_deinit 0]).
  { unfold shutdown, bind, call_. cbn [fst snd trace].
    rewrite <- app_assoc. reflexivity. }
  intros [-> | [-> | ->]]; exact Hs.
Qed.

(** The one element of a list that satisfies [p] marks one place. *)
Lemma split_at_unique {A} (p : A -> bool) (y : A) (l2 : list A) :
  forall l1 pre x post,
    (forall e, In e l1 -> p e = false) ->
    (forall e, In e l2 -> p e = false) ->
    l1 ++ y :: l2 = pre ++ x :: post ->
    p x = true ->
    pre = l1 /\ x = y /\ post = l2.
Proof.
  induction l1 as [|a l1 IH]; intros pre x post H1 H2 E Hx.
  - destruct pre as [|z pre]; cbn in E; inversion E; subst.
    + auto.
    + rewrite (H2 x) in Hx; [discriminate|].
      apply in_or_app. right. left. reflexivity.
  - destruct pre as [|z pre]; cbn in E; inversion E; subst.
    + rewrite (H1 x) in Hx; [discriminate | left; reflexivity].
    + destruct (IH pre x post) as (-> & -> & ->); auto.
      intros e He. apply H1. right. exact He.
Qed.

(** No step before the verification writes a configuration with LOCK
    cleared, and neither does the dump. *)
Lemma preparation_locks_nothing argc argv :
  wpm lock_write_monitor (preparation argc argv) (idle lock_write_monitor)
      (fun _ q => q = idle lock_write_monitor).
Proof. unfold preparation. repeat (wpm_step_with ltac:(idtac)); reflexivity. Qed.

Lemma programming_locks_nothing fl file file_ldrom :
  wpm lock_write_monitor (programming fl file file_ldrom)
      (idle lock_write_monitor) (fun _ q => q = idle lock_write_monitor).
Proof. repeat (wpm_step_with ltac:(idtac)); reflexivity. Qed.

Lemma read_out_locks_nothing file read_data :
  wpm lock_write_monitor (read_out file read_data) (idle lock_write_monitor)
      (fun _ q => q = idle lock_write_monitor).
Proof. repeat (wpm_step_with ltac:(idtac)); reflexivity. Qed.

Lemma unlocked_trace (t : list event) :
  verdicts lock_write_monitor t = idle lock_write_monitor ->
  forall e, In e t -> is_lock_write e = false.
Proof.
  intros H. apply (unseen_in lock_write_monitor 0 _ t eq_refl).
  rewrite H. reflexivity.
Qed.

Lemma unlocked_app (t1 t2 : list event) :
  (forall e, In e t1 -> is_lock_write e = false) ->
  (forall e, In e t2 -> is_lock_write e = false) ->
  forall e, In e (t1 ++ t2) -> is_lock_write e = false.
Proof. intros H1 H2 e He. apply in_app_or in He. destruct He; auto. Qed.

End Phases.

(** * The claims *)

(** ** The planner: claims C1, C2, C3 and C10 *)

Section Planner.

Context {L : Layout} {D : Type} {T : N51ICP D}.

Lemma ldrom_size_small (f : FILE) :
  Z.of_nat (List.length (f_data f)) <= LDROM_MAX_SIZE ->
  ldrom_size f = Z.of_nat (List.length (f_data f)).
Proof. intros H. unfold ldrom_size. rewrite length_firstn. lia. Qed.

Lemma ldrom_size_large (f : FILE) :
  0 <= LDROM_MAX_SIZE <= Z.of_nat (List.length (f_data f)) ->
  ldrom_size f = LDROM_MAX_SIZE.
Proof. intros H. unfold ldrom_size. rewrite length_firstn. lia. Qed.

(** C1: for a loader image of length L in [1, LDROM_MAX_SIZE], the loader
    region that [main] plans, in bytes, is (((L - 1) / 1024) + 1) * 1024,
    the least multiple of 1024 that is at least L, and the application
    capacity [FLASH_SIZE - chosen_ldrom_sz] plus that region is
    [FLASH_SIZE].  The loader size in KiB is held in a [uint8_t], so the
    limit must stay within 255 KiB. *)
Theorem C1_loader_region_is_least_kib_multiple
        (f : FILE) (lc : locals) (w : world D) :
  LDROM_MAX_SIZE <= 255 * 1024 ->
  let len := Z.of_nat (List.length (f_data f)) in
  1 <= len <= LDROM_MAX_SIZE ->
  exists lc' w',
    program_ldrom (Some f) lc w = (Normal lc', w') /\
    let sz := l_chosen_ldrom_sz lc' in
    sz = (((len - 1) / 1024) + 1) * 1024 /\
    sz mod 1024 = 0 /\
    len <= sz /\
    (forall m, m mod 1024 = 0 -> len <= m -> sz <= m) /\
    aprom_size sz + sz = FLASH_SIZE.
Proof.
  intros Hmax len Hlen.
  eexists. eexists. split; [apply program_ldrom_run|].
  cbn [l_chosen_ldrom_sz]. rewrite ldrom_size_small by (fold len; lia).
  fold len. assert (Hin : 1 <= len <= 255 * 1024) by lia.
  destruct (chosen_ldrom_sz_least len Hin) as (H1 & H2 & H3).
  repeat split; try assumption.
  - unfold chosen_ldrom_sz. rewrite kb_no_wrap by lia. reflexivity.
  - unfold aprom_size. lia.
Qed.

(** C2: for a loader image of length L in [1, LDROM_MAX_SIZE], the
    configuration [main] writes starts from the all-ones blank value, holds
    LDS = (7 - loaderSizeKb) & 0x7 with loaderSizeKb the length rounded up
    to the next KiB, and CBS = 0 (boot from the loader region); LOCK and the
    other bits keep their blank value. *)
Theorem C2_loader_configuration (f : FILE) (w : world D) :
  LDROM_MAX_SIZE <= 255 * 1024 ->
  let len := Z.of_nat (List.length (f_data f)) in
  1 <= len <= LDROM_MAX_SIZE ->
  get_default_config = mk_config 1 1 7 (Z.ones 35) /\
  exists lc' w',
    program_ldrom (Some f) initial_locals w = (Normal lc', w') /\
    l_write_config lc' =
      mk_config 1 0 (Z.land (7 - round_up_kib len) 0x7) (Z.ones 35) /\
    In (ICP_write_flash CFG_FLASH_ADDR CFG_FLASH_LEN
                        (Config (l_write_config lc')))
       (trace w').
Proof.
  intros Hmax len Hlen. split; [reflexivity|].
  eexists. eexists. split; [apply program_ldrom_run|].
  cbn [l_write_config trace]. rewrite ldrom_size_small by (fold len; lia).
  fold len. split.
  - rewrite kb_no_wrap by lia. rewrite round_up_kib_eq.
    unfold set_LDS, set_CBS, initial_locals, get_default_config.
    cbn [l_write_config LOCK CBS LDS cfg_other].
    rewrite land_7_mod_8. reflexivity.
  - apply in_or_app. right. cbn. auto.
Qed.

(** C3, as the code has it: a loader image longer than [LDROM_MAX_SIZE] is
    not rejected.  [fread] delivers its first [LDROM_MAX_SIZE] bytes and the
    plan is that of the image cut to this length: the region is
    [LDROM_MAX_SIZE] bytes, the largest loader size in KiB, which is also
    what an image of exactly [LDROM_MAX_SIZE] bytes plans to. *)
Theorem C3_oversized_loader_is_cut (HL : LayoutOk L)
        (f : FILE) (lc : locals) (w : world D) :
  LDROM_MAX_SIZE <= Z.of_nat (List.length (f_data f)) ->
  let cut := mk_FILE (f_name f) (f_mode f)
                     (firstn (Z.to_nat LDROM_MAX_SIZE) (f_data f)) in
  exists lc' w',
    program_ldrom (Some f) lc w = (Normal lc', w') /\
    program_ldrom (Some cut) lc w = (Normal lc', w') /\
    Z.of_nat (List.length (f_data cut)) = LDROM_MAX_SIZE /\
    l_chosen_ldrom_sz lc' = LDROM_MAX_SIZE /\
    chosen_ldrom_sz_kb LDROM_MAX_SIZE = LDROM_MAX_SIZE / 1024.
Proof.
  intros Hlen cut. pose proof HL as [_ Hpos Hkib Hsmall _].
  assert (Hsz : ldrom_size f = LDROM_MAX_SIZE)
    by (apply ldrom_size_large; lia).
  assert (Hcut : ldrom_size cut = LDROM_MAX_SIZE).
  { unfold ldrom_size, cut. cbn [f_data]. rewrite !length_firstn. lia. }
  assert (Hchosen : chosen_ldrom_sz LDROM_MAX_SIZE = LDROM_MAX_SIZE).
  { assert (Hin : 0 <= LDROM_MAX_SIZE <= LDROM_MAX_SIZE) by lia.
    assert (Hin' : 1 <= LDROM_MAX_SIZE <= 255 * 1024) by lia.
    pose proof (chosen_ldrom_sz_bounded HL LDROM_MAX_SIZE Hin).
    destruct (chosen_ldrom_sz_least LDROM_MAX_SIZE Hin') as (_ & ? & _).
    lia. }
  eexists. eexists. split; [apply program_ldrom_run|].
  split; [|split; [|split]].
  - rewrite program_ldrom_run. cbv zeta. rewrite Hsz, Hcut.
    unfold cut. cbn [f_name f_data]. rewrite firstn_firstn, Nat.min_id.
    reflexivity.
  - unfold cut. cbn [f_data]. rewrite length_firstn. lia.
  - cbn [l_chosen_ldrom_sz]. rewrite Hsz. exact Hchosen.
  - unfold chosen_ldrom_sz in Hchosen. rewrite <- Hchosen at 2.
    rewrite Z.div_mul by lia. reflexivity.
Qed.

(** C10: an empty loader file still reserves a loader region of 1 KiB.
    [fread] returns 0, (0 - 1) / 1024 truncates toward zero to 0, so the
    size in KiB is 1, the region is 1024 bytes, LDS is 6 and CBS is 0; the
    loader write that follows has length 0. *)
Theorem C10_empty_loader_reserves_one_kib (name mode : string) (w : world D) :
  c_div (0 - 1) 1024 = 0 /\
  chosen_ldrom_sz_kb 0 = 1 /\
  exists lc' w',
    program_ldrom (Some (mk_FILE name mode [])) initial_locals w
    = (Normal lc', w') /\
    l_chosen_ldrom_sz lc' = 1024 /\
    LDS (l_write_config lc') = 6 /\
    CBS (l_write_config lc') = 0 /\
    In (ICP_write_flash CFG_FLASH_ADDR CFG_FLASH_LEN
                        (Config (l_write_config lc')))
       (trace w') /\
    In (ICP_write_flash (FLASH_SIZE - 1024) 0 (Bytes (l_ldrom_data lc')))
       (trace w').
Proof.
  split; [reflexivity|]. split; [reflexivity|].
  eexists. eexists. split; [apply program_ldrom_run|].
  assert (Hz : ldrom_size (mk_FILE name mode []) = 0).
  { unfold ldrom_size. cbn [f_data]. rewrite firstn_nil. reflexivity. }
  cbn [l_chosen_ldrom_sz l_write_config l_ldrom_data trace]. rewrite Hz.
  repeat split.
  - apply in_or_app. right. cbn. auto.
  - apply in_or_app. right. cbn. auto 6.
Qed.

End Planner.

(** ** The sequencer's writes and its comparison: claims C6 and C7 *)

Section Sequencer.

Context {L : Layout} {D : Type} {T : N51ICP D}.

Lemma firstn_length_firstn {A} k (l : list A) :
  firstn (List.length (firstn k l)) l = firstn k l.
Proof.
  rewrite length_firstn. destruct (Nat.le_ge_cases k (List.length l)).
  - rewrite Nat.min_l by assumption. reflexivity.
  - rewrite Nat.min_r by assumption.
    rewrite firstn_all, firstn_all2 by assumption. reflexivity.
Qed.

Lemma buf_store_prefix buf src :
  firstn (List.length src) (buf_store buf 0 src) = src.
Proof.
  unfold buf_store. cbn [firstn app].
  rewrite firstn_app, Nat.sub_diag, firstn_all. cbn. apply app_nil_r.
Qed.

(** The loader region [main] has chosen when it comes to the application:
    none, or the one [program_ldrom] has planned. *)
Lemma chosen_region_fits (HL : LayoutOk L) (lc : locals) :
  (lc = initial_locals \/
   exists (f : FILE) (w0 w1 : world D),
     program_ldrom (Some f) initial_locals w0 = (Normal lc, w1)) ->
  0 <= l_chosen_ldrom_sz lc <= FLASH_SIZE.
Proof.
  pose proof HL as [_ Hpos _ _ Hfit].
  intros [-> | (f & w0 & w1 & E)].
  - cbn. lia.
  - rewrite program_ldrom_run in E. inversion E. cbn [l_chosen_ldrom_sz].
    assert (Hn : 0 <= ldrom_size f <= LDROM_MAX_SIZE).
    { unfold ldrom_size. rewrite length_firstn. lia. }
    pose proof (chosen_ldrom_sz_bounded HL (ldrom_size f) Hn). lia.
Qed.

(** The application step alone, from locals the loader step can have left:
    the write starts at [APROM_FLASH_ADDR], which is 0, its length is the
    lesser of the image length and [FLASH_SIZE - chosen_ldrom_sz], and the
    bytes it sends are the image's. *)
Lemma application_write_below_region (HL : LayoutOk L)
        (f : FILE) (lc : locals) (w : world D) :
  (lc = initial_locals \/
   exists (fl : FILE) (w0 w1 : world D),
     program_ldrom (Some fl) initial_locals w0 = (Normal lc, w1)) ->
  let len := Z.of_nat (List.length (f_data f)) in
  let capacity := FLASH_SIZE - l_chosen_ldrom_sz lc in
  let n := Z.min len capacity in
  exists lc' w' write_data,
    program_aprom (Some f) lc w = (Normal lc', w') /\
    trace w' =
      trace w ++
      [Fprintf_stderr "Programming APROM...\n" [];
       Fread (f_name f) capacity n;
       ICP_write_flash APROM_FLASH_ADDR n (Bytes write_data);
       Fprintf_stderr "Programmed APROM (%d bytes)\n" [AInt n]] /\
    APROM_FLASH_ADDR = 0 /\
    0 <= n /\
    APROM_FLASH_ADDR + n <= FLASH_SIZE - l_chosen_ldrom_sz lc /\
    firstn (Z.to_nat n) write_data = firstn (Z.to_nat n) (f_data f).
Proof.
  intros Hlc len capacity n.
  pose proof (chosen_region_fits HL lc Hlc) as Hfit.
  pose proof (aprom_at_zero L HL) as Hzero.
  assert (Hn : Z.of_nat (List.length (firstn (Z.to_nat capacity) (f_data f)))
               = n).
  { rewrite fread_count by (unfold capacity; lia). reflexivity. }
  eexists. eexists. eexists. split; [apply program_aprom_run|].
  cbv zeta. cbn [trace]. unfold aprom_size. fold capacity. rewrite Hn.
  split; [reflexivity|]. split; [exact Hzero|].
  split; [unfold n, len, capacity; lia|].
  split; [unfold n, capacity; lia|].
  rewrite <- Hn, Nat2Z.id, buf_store_prefix, firstn_length_firstn.
  reflexivity.
Qed.

(** C7: an application image A of length at most [FLASH_SIZE], written with
    no loader image, gives the expected buffer A followed by 0xFF up to
    [FLASH_SIZE]; with a read-back of [FLASH_SIZE] bytes, verification goes
    on past the comparison exactly when the read-back equals that buffer. *)
Theorem C7_expected_image_and_comparison (f : FILE) (w : world D) :
  Z.of_nat (List.length (f_data f)) <= FLASH_SIZE ->
  exists lc1 w1,
    program_aprom (Some f) initial_locals w = (Normal lc1, w1) /\
    expected_flash lc1
    = f_data f ++ repeat 0xFF (Z.to_nat FLASH_SIZE - List.length (f_data f)) /\
    List.length (expected_flash lc1) = Z.to_nat FLASH_SIZE /\
    forall (fl : flags) (w2 : world D),
      let readback :=
        fst (N51ICP_read_flash APROM_FLASH_ADDR FLASH_SIZE (dev w2)) in
      List.length readback = Z.to_nat FLASH_SIZE ->
      (fst (verify_and_lock fl (memset 0xff FLASH_SIZE) lc1 w2) = Normal tt
       <-> readback = expected_flash lc1).
Proof.
  intros Hlen.
  assert (Hall : firstn (Z.to_nat (aprom_size 0)) (f_data f) = f_data f).
  { apply firstn_all2. unfold aprom_size. lia. }
  assert (Hexp :
    expected_flash
      (mk_locals 0 get_default_config (memset 255 LDROM_MAX_SIZE)
         (buf_store (memset 255 FLASH_SIZE) 0 (f_data f)))
    = f_data f ++ repeat 255 (Z.to_nat FLASH_SIZE - List.length (f_data f))).
  { unfold expected_flash, memcpy, buf_store, memset.
    cbn [l_write_data l_chosen_ldrom_sz l_ldrom_data firstn app List.length].
    change (Z.to_nat 0) with 0%nat. cbn [firstn app List.length Nat.add].
    rewrite Z.sub_0_r, Nat.add_0_r, skipn_repeat.
    rewrite skipn_all2, app_nil_r, firstn_all2;
      [reflexivity | |]; rewrite length_app, repeat_length; lia. }
  assert (Hexp_len :
    List.length
      (f_data f ++ repeat 255 (Z.to_nat FLASH_SIZE - List.length (f_data f)))
    = Z.to_nat FLASH_SIZE).
  { rewrite length_app, repeat_length. lia. }
  exists (mk_locals 0 get_default_config (memset 255 LDROM_MAX_SIZE)
            (buf_store (memset 255 FLASH_SIZE) 0 (f_data f))).
  eexists. split.
  { rewrite program_aprom_run. cbv zeta. unfold initial_locals.
    cbn [l_chosen_ldrom_sz l_write_config l_ldrom_data l_write_data].
    rewrite Hall. reflexivity. }
  rewrite Hexp. split; [reflexivity|]. split; [exact Hexp_len|].
  intros fl w2 readback Hrb.
  pose proof (verify_and_lock_run fl (memset 255 FLASH_SIZE)
                (mk_locals 0 get_default_config (memset 255 LDROM_MAX_SIZE)
                   (buf_store (memset 255 FLASH_SIZE) 0 (f_data f))) w2) as Hv.
  cbv zeta in Hv. rewrite Hexp in Hv. fold readback in Hv.
  assert (Hbuf : buf_store (memset 255 FLASH_SIZE) 0 readback = readback).
  { unfold buf_store. cbn [firstn app Nat.add].
    rewrite skipn_all2, app_nil_r; [reflexivity|].
    rewrite length_memset. lia. }
  rewrite Hbuf in Hv.
  pose proof (memcmp_zero_iff (Z.to_nat FLASH_SIZE)
                (f_data f ++
                   repeat 255 (Z.to_nat FLASH_SIZE - List.length (f_data f)))
                readback ltac:(lia) ltac:(lia)) as Hm.
  rewrite (firstn_all2 readback) in Hm by lia.
  rewrite firstn_all2 in Hm by lia.
  destruct (memcmp _ readback _ =? 0) eqn:Hc; destruct Hv as [Hres _].
  - apply Z.eqb_eq in Hc. split; [intros _; symmetry; apply Hm, Hc|].
    intros _. exact Hres.
  - apply Z.eqb_neq in Hc. split.
    + intros H. rewrite Hres in H. discriminate.
    + intros H. exfalso. apply Hc, Hm. symmetry. exact H.
Qed.

End Sequencer.

(** ** The application write in a run: claim C6 *)

Section ApplicationWrite.

Context {L : Layout} {D : Type} {T : N51ICP D}.

Variables (argc : Z) (argv : list getopt_item).
Variables (d : D) (input : list Z) (env : os_env).

(** C6: in every run that comes to program an application image, the
    application write starts at [APROM_FLASH_ADDR], which is 0, and its
    length is the lesser of the image length and the capacity [FLASH_SIZE]
    less the loader region.  The region is the one the loader step of the
    same run has left in [chosen_ldrom_sz]: 0 without a loader, and with one
    the region whose loader write, at [FLASH_SIZE] less the region, comes
    earlier in the trace.  So the application write ends at or below the
    start of the loader region. *)
Theorem C6_application_write_stays_below_loader (HL : LayoutOk L)
        (fl : flags) (f : FILE) (file_ldrom : option FILE) (w1 : world D) :
  preparation argc argv (mk_world d input env [])
  = (Normal (fl, Some f, file_ldrom), w1) ->
  write_aprom fl = 1 ->
  (truthy (write_ldrom fl) = true -> file_ldrom <> None) ->
  let len := Z.of_nat (List.length (f_data f)) in
  exists lc1 w1' write_data post,
    loader_step fl file_ldrom w1 = (Normal lc1, w1') /\
    let region := l_chosen_ldrom_sz lc1 in
    let capacity := FLASH_SIZE - region in
    let n := Z.min len capacity in
    run_trace argc argv d input env =
      trace w1' ++
      [Fprintf_stderr "Programming APROM...\n" [];
       Fread (f_name f) capacity n;
       ICP_write_flash APROM_FLASH_ADDR n (Bytes write_data);
       Fprintf_stderr "Programmed APROM (%d bytes)\n" [AInt n]] ++ post /\
    APROM_FLASH_ADDR = 0 /\
    0 <= n /\
    APROM_FLASH_ADDR + n <= FLASH_SIZE - region /\
    0 <= region <= FLASH_SIZE /\
    firstn (Z.to_nat n) write_data = firstn (Z.to_nat n) (f_data f) /\
    (truthy (write_ldrom fl) = false -> region = 0 /\ w1' = w1) /\
    (truthy (write_ldrom fl) = true ->
     exists fld cfg data,
       file_ldrom = Some fld /\
       region = chosen_ldrom_sz (ldrom_size fld) /\
       trace w1' =
         trace w1 ++
         [Fprintf_stderr "Programming LDROM...\n" [];
          Fread (f_name fld) LDROM_MAX_SIZE (ldrom_size fld);
          ICP_write_flash CFG_FLASH_ADDR CFG_FLASH_LEN (Config cfg);
          ICP_write_flash (FLASH_SIZE - region) (ldrom_size fld) (Bytes data);
          Fprintf_stderr "Programmed LDROM (%d bytes)\n"
                         [AInt (ldrom_size fld)]]).
Proof.
  intros Hprep Hw Hl len.
  (* the loader step *)
  assert (Hstep :
    exists lc1 w1',
      loader_step fl file_ldrom w1 = (Normal lc1, w1') /\
      (lc1 = initial_locals \/
       exists (fld : FILE) (wa wb : world D),
         program_ldrom (Some fld) initial_locals wa = (Normal lc1, wb)) /\
      (truthy (write_ldrom fl) = false ->
       l_chosen_ldrom_sz lc1 = 0 /\ w1' = w1) /\
      (truthy (write_ldrom fl) = true ->
       exists fld cfg data,
         file_ldrom = Some fld /\
         l_chosen_ldrom_sz lc1 = chosen_ldrom_sz (ldrom_size fld) /\
         trace w1' =
           trace w1 ++
           [Fprintf_stderr "Programming LDROM...\n" [];
            Fread (f_name fld) LDROM_MAX_SIZE (ldrom_size fld);
            ICP_write_flash CFG_FLASH_ADDR CFG_FLASH_LEN (Config cfg);
            ICP_write_flash (FLASH_SIZE - l_chosen_ldrom_sz lc1)
                            (ldrom_size fld) (Bytes data);
            Fprintf_stderr "Programmed LDROM (%d bytes)\n"
                           [AInt (ldrom_size fld)]])).
  { unfold loader_step. destruct (truthy (write_ldrom fl)) eqn:Ht.
    - destruct file_ldrom as [fld|]; [|exfalso; apply Hl; reflexivity].
      eexists. eexists. split; [apply program_ldrom_run|].
      split; [right; exists fld, w1; eexists; apply program_ldrom_run|].
      split; [discriminate|]. intros _.
      exists fld. eexists. eexists. split; [reflexivity|].
      split; reflexivity.
    - exists initial_locals, w1. split; [reflexivity|].
      split; [left; reflexivity|]. split; [intros _; split; reflexivity|].
      discriminate. }
  destruct Hstep as (lc1 & w1' & E1 & Hlc & Hno & Hyes).
  (* the application step *)
  destruct (application_write_below_region HL f lc1 w1' Hlc)
    as (lc2 & w2 & write_data & E2 & Ht2 & Hzero & Hn0 & Hn1 & Hdata).
  pose proof (chosen_region_fits HL lc1 Hlc) as Hfit.
  assert (Hprog : programming fl (Some f) file_ldrom w1 = (Normal lc2, w2)).
  { unfold programming. rewrite bind_run, E1. unfold application_step.
    rewrite Hw. exact E2. }
  (* what follows: the verification *)
  assert (Hrest : exists post,
             run_trace argc argv d input env = trace w2 ++ post).
  { unfold run_trace, main. rewrite main_body_phases, Hprep, Hprog.
    unfold completion. rewrite Hw. cbn [truthy Z.eqb negb orb].
    pose proof (verify_and_lock_run fl (memset 255 FLASH_SIZE) lc2 w2) as Hv.
    cbv zeta in Hv.
    destruct (verify_and_lock fl (memset 255 FLASH_SIZE) lc2 w2) as [r w3].
    cbn [fst snd] in Hv.
    destruct (memcmp _ _ _ =? 0); destruct Hv as [-> Hv];
      rewrite finish_shutdown by auto; rewrite Hv, <- app_assoc;
      eexists; reflexivity. }
  destruct Hrest as (post & Hpost).
  exists lc1, w1', write_data, post. split; [exact E1|]. cbv zeta.
  split; [rewrite Hpost, Ht2, <- app_assoc; reflexivity|].
  split; [exact Hzero|]. split; [exact Hn0|]. split; [exact Hn1|].
  split; [exact Hfit|]. split; [exact Hdata|]. split; [exact Hno|].
  intros Ht. destruct (Hyes Ht) as (fld & cfg & data & Hf & Hr & Htr).
  exists fld, cfg, data. split; [exact Hf|]. split; [exact Hr | exact Htr].
Qed.

End ApplicationWrite.

(** ** Whole runs: claims C4, C5, C8 and C9 *)

Section Runs.

Context {L : Layout} {D : Type} {T : N51ICP D}.

Variables (argc : Z) (argv : list getopt_item).
Variables (d : D) (input : list Z) (env : os_env).

Lemma prompt_checks :
  followed_by (bit 0) (bit 1)
              (observed prompt_tests (run_trace argc argv d input env)) = true.
Proof.
  apply (main_observed prompt_tests argc argv d input env
           (fun _ x => followed_by (bit 0) (bit 1) (snd x) = true)).
  run_main; reflexivity.
Qed.

(** C4, as the code has it: once the prompt has been answered, with
    whatever character, the mass erase is performed.  The answer is read and
    only decides whether "Attempting mass erase..." is printed. *)
Theorem C4_mass_erase_follows_any_answer (pre post : list event) (x : Z) :
  run_trace argc argv d input env = pre ++ Getchar x :: post ->
  In ICP_mass_erase post.
Proof.
  intros E.
  destruct (followed_by_spec prompt_tests 0 1 _ prompt_checks
              pre (Getchar x) post E eq_refl) as (e & Hin & He).
  apply is_mass_erase_eq in He. subst e. exact Hin.
Qed.

(** How the verification of a run, once the programming steps have
    returned with a write asked for, ends. *)
Lemma verification_of_a_run (fl : flags) (file file_ldrom : option FILE)
      (w1 : world D) (lc : locals) (w2 : world D) :
  preparation argc argv (mk_world d input env [])
  = (Normal (fl, file, file_ldrom), w1) ->
  programming fl file file_ldrom w1 = (Normal lc, w2) ->
  truthy (write_aprom fl) || truthy (write_ldrom fl) = true ->
  let b := buf_store (memset 0xff FLASH_SIZE) 0
             (fst (N51ICP_read_flash APROM_FLASH_ADDR FLASH_SIZE (dev w2))) in
  let readback := ICP_read_flash APROM_FLASH_ADDR FLASH_SIZE (Bytes b) in
  let lock_write :=
    ICP_write_flash CFG_FLASH_ADDR CFG_FLASH_LEN
                    (Config (set_LOCK 0 (l_write_config lc))) in
  if memcmp (expected_flash lc) b (Z.to_nat FLASH_SIZE) =? 0 then
    run_outcome argc argv d input env = Returned 0 /\
    run_trace argc argv d input env =
      (trace w2 ++ [readback; Fprintf_stderr verified_msg []])
        ++ (if lock_chip fl then [lock_write] else [])
        ++ [ICP_dump_config; ICP_exit; PGM_deinit 0]
  else
    run_outcome argc argv d input env = Returned 1 /\
    run_trace argc argv d input env =
      trace w2 ++ [readback; ICP_dump_config;
                   Fprintf_stderr verify_error_msg [];
                   ICP_exit; PGM_deinit 0].
Proof.
  intros Hprep Hprog Hw.
  pose proof (verify_and_lock_run fl (memset 255 FLASH_SIZE) lc w2) as Hv.
  cbv zeta in *.
  unfold run_outcome, run_trace, main.
  rewrite main_body_phases, Hprep, Hprog. unfold completion. rewrite Hw.
  destruct (verify_and_lock fl (memset 255 FLASH_SIZE) lc w2) as [r w3].
  cbn [fst snd] in Hv.
  destruct (memcmp _ _ _ =? 0); destruct Hv as [-> Hv].
  - split; [reflexivity|]. rewrite finish_shutdown by auto. rewrite Hv.
    destruct (lock_chip fl); cbn [app]; repeat rewrite <- app_assoc;
      reflexivity.
  - split; [reflexivity|]. rewrite finish_shutdown by auto. rewrite Hv.
    repeat rewrite <- app_assoc. reflexivity.
Qed.

(** The trace up to the verification holds no write that clears LOCK. *)
Lemma nothing_locked_before_verification
      (fl : flags) (file file_ldrom : option FILE)
      (w1 : world D) (r : result locals) (w2 : world D) :
  preparation argc argv (mk_world d input env [])
  = (Normal (fl, file, file_ldrom), w1) ->
  programming fl file file_ldrom w1 = (r, w2) ->
  verdicts lock_write_monitor (trace w2) = idle lock_write_monitor.
Proof.
  intros Hprep Hprog.
  pose proof (preparation_locks_nothing argc argv
                (mk_world d input env []) eq_refl) as H1.
  rewrite Hprep in H1. cbn [snd] in H1.
  pose proof (programming_locks_nothing fl file file_ldrom w1 H1) as H2.
  rewrite Hprog in H2. exact H2.
Qed.

(** A run either never writes a configuration with LOCK cleared, or it is a
    run whose comparison found no difference and that was asked to lock:
    then the write comes right after the message that the flash
    verified. *)
Lemma lock_write_of_a_run :
  let t := run_trace argc argv d input env in
  (forall e, In e t -> is_lock_write e = false) \/
  exists fl file file_ldrom w1 lc w2,
    preparation argc argv (mk_world d input env [])
    = (Normal (fl, file, file_ldrom), w1) /\
    programming fl file file_ldrom w1 = (Normal lc, w2) /\
    truthy (write_aprom fl) || truthy (write_ldrom fl) = true /\
    lock_chip fl = true /\
    (forall e, In e (trace w2) -> is_lock_write e = false) /\
    let b := buf_store (memset 0xff FLASH_SIZE) 0
               (fst (N51ICP_read_flash APROM_FLASH_ADDR FLASH_SIZE (dev w2))) in
    memcmp (expected_flash lc) b (Z.to_nat FLASH_SIZE) = 0 /\
    t = (trace w2 ++ [ICP_read_flash APROM_FLASH_ADDR FLASH_SIZE (Bytes b);
                      Fprintf_stderr verified_msg []])
          ++ ICP_write_flash CFG_FLASH_ADDR CFG_FLASH_LEN
                             (Config (set_LOCK 0 (l_write_config lc)))
          :: [ICP_dump_config; ICP_exit; PGM_deinit 0].
Proof.
  intros t.
  assert (Hquiet : forall r (w : world D),
             verdicts lock_write_monitor (trace w) = idle lock_write_monitor ->
             forall e, In e (trace (snd (finish (r, w)))) ->
                       is_lock_write e = false).
  { intros r w Hq. destruct (finish_trace r w) as (tail & -> & Htail).
    apply unlocked_app; [apply unlocked_trace, Hq|].
    destruct Htail as [-> | ->]; intros e He; cbn in He;
      intuition (subst; reflexivity). }
  pose proof (preparation_locks_nothing argc argv
                (mk_world d input env []) eq_refl) as H1.
  destruct (preparation argc argv (mk_world d input env []))
    as [[[[fl file] file_ldrom] | l] w1] eqn:Hprep; cbn [snd] in H1.
  2:{ left. subst t. unfold run_trace, main.
      rewrite main_body_phases, Hprep. apply Hquiet, H1. }
  destruct (programming fl file file_ldrom w1) as [[lc | l] w2] eqn:Hprog.
  2:{ left. subst t. unfold run_trace, main.
      rewrite main_body_phases, Hprep, Hprog. apply Hquiet.
      exact (nothing_locked_before_verification _ _ _ _ _ _ Hprep Hprog). }
  pose proof (nothing_locked_before_verification _ _ _ _ _ _ Hprep Hprog)
    as H2.
  destruct (truthy (write_aprom fl) || truthy (write_ldrom fl)) eqn:Hw.
  - pose proof (verification_of_a_run fl file file_ldrom w1 lc w2
                  Hprep Hprog Hw) as Hv.
    cbv zeta in Hv.
    destruct (memcmp _ _ _ =? 0) eqn:Hm; destruct Hv as [_ Ht].
    + destruct (lock_chip fl) eqn:Hlock.
      * right. exists fl, file, file_ldrom, w1, lc, w2.
        split; [reflexivity|]. split; [exact Hprog|]. split; [exact Hw|].
        split; [exact Hlock|]. split; [apply unlocked_trace, H2|].
        cbv zeta. split; [apply Z.eqb_eq, Hm | exact Ht].
      * left. subst t. rewrite Ht. cbn [app].
        repeat apply unlocked_app; try (apply unlocked_trace, H2);
          intros e He; cbn in He; intuition (subst; reflexivity).
    + left. subst t. rewrite Ht.
      apply unlocked_app; [apply unlocked_trace, H2|].
      intros e He; cbn in He; intuition (subst; reflexivity).
  - left. subst t. unfold run_trace, main.
    rewrite main_body_phases, Hprep, Hprog. unfold completion. rewrite Hw.
    pose proof (read_out_locks_nothing file (memset 255 FLASH_SIZE) w2 H2)
      as H3.
    destruct (read_out file (memset 255 FLASH_SIZE) w2) as [r w3].
    apply Hquiet, H3.
Qed.

(** C5: in every run, a write that clears LOCK is made only where the run
    has programmed the images, read the whole flash back and found, by
    [memcmp] over all [FLASH_SIZE] bytes, no difference with the expected
    image; it was asked for by -s, and it comes directly after the message
    that the flash verified, which follows the read-back.  And of a run
    that has come to the comparison: when the comparison finds no
    difference the run returns 0, with the lock write in that place exactly
    if locking was asked for; when it finds a difference the run dumps the
    configuration, prints the verification error and returns 1, and no
    write of the run clears LOCK. *)
Theorem C5_lock_only_after_verification :
  let o := run_outcome argc argv d input env in
  let t := run_trace argc argv d input env in
  let read_back (w : world D) :=
    buf_store (memset 0xff FLASH_SIZE) 0
      (fst (N51ICP_read_flash APROM_FLASH_ADDR FLASH_SIZE (dev w))) in
  (forall pre a n c post,
      t = pre ++ ICP_write_flash a n (Config c) :: post ->
      LOCK c = 0 ->
      exists fl file file_ldrom w1 lc w2,
        preparation argc argv (mk_world d input env [])
        = (Normal (fl, file, file_ldrom), w1) /\
        programming fl file file_ldrom w1 = (Normal lc, w2) /\
        lock_chip fl = true /\
        memcmp (expected_flash lc) (read_back w2) (Z.to_nat FLASH_SIZE) = 0 /\
        pre = trace w2 ++
              [ICP_read_flash APROM_FLASH_ADDR FLASH_SIZE
                              (Bytes (read_back w2));
               Fprintf_stderr verified_msg []] /\
        a = CFG_FLASH_ADDR /\
        n = CFG_FLASH_LEN /\
        c = set_LOCK 0 (l_write_config lc) /\
        post = [ICP_dump_config; ICP_exit; PGM_deinit 0]) /\
  (forall fl file file_ldrom w1 lc w2,
      preparation argc argv (mk_world d input env [])
      = (Normal (fl, file, file_ldrom), w1) ->
      programming fl file file_ldrom w1 = (Normal lc, w2) ->
      truthy (write_aprom fl) || truthy (write_ldrom fl) = true ->
      let readback :=
        ICP_read_flash APROM_FLASH_ADDR FLASH_SIZE (Bytes (read_back w2)) in
      let lock_write :=
        ICP_write_flash CFG_FLASH_ADDR CFG_FLASH_LEN
                        (Config (set_LOCK 0 (l_write_config lc))) in
      if memcmp (expected_flash lc) (read_back w2) (Z.to_nat FLASH_SIZE) =? 0
      then
        o = Returned 0 /\
        t = (trace w2 ++ [readback; Fprintf_stderr verified_msg []])
              ++ (if lock_chip fl then [lock_write] else [])
              ++ [ICP_dump_config; ICP_exit; PGM_deinit 0]
      else
        o = Returned 1 /\
        t = trace w2 ++ [readback; ICP_dump_config;
                         Fprintf_stderr verify_error_msg [];
                         ICP_exit; PGM_deinit 0] /\
        forall a n c, In (ICP_write_flash a n (Config c)) t -> LOCK c <> 0).
Proof.
  intros o t read_back. split.
  - intros pre a n c post E Hc.
    assert (Hx : is_lock_write (ICP_write_flash a n (Config c)) = true)
      by (cbn; apply Z.eqb_eq, Hc).
    destruct lock_write_of_a_run as [Hno | Hyes].
    + fold t in Hno. rewrite (Hno (ICP_write_flash a n (Config c))) in Hx;
        [discriminate|].
      rewrite E. apply in_or_app. right. left. reflexivity.
    + destruct Hyes
        as (fl & file & file_ldrom & w1 & lc & w2
            & Hprep & Hprog & _ & Hlock & Hpre & Hm & Ht).
      fold t in Ht. rewrite E in Ht. symmetry in Ht.
      apply (split_at_unique is_lock_write) in Ht; try assumption.
      * destruct Ht as (-> & Hev & ->). inversion Hev. subst.
        exists fl, file, file_ldrom, w1, lc, w2. repeat split; assumption.
      * apply unlocked_app; [exact Hpre|].
        intros e He; cbn in He; intuition (subst; reflexivity).
      * intros e He; cbn in He; intuition (subst; reflexivity).
  - intros fl file file_ldrom w1 lc w2 Hprep Hprog Hw.
    pose proof (verification_of_a_run fl file file_ldrom w1 lc w2
                  Hprep Hprog Hw) as Hv.
    cbv zeta in *. fold o t (read_back w2) in Hv.
    destruct (memcmp _ _ _ =? 0); [exact Hv|].
    destruct Hv as [Ho Ht]. split; [exact Ho|]. split; [exact Ht|].
    intros a n c Hin Hc.
    assert (Hx : is_lock_write (ICP_write_flash a n (Config c)) = false).
    { rewrite Ht in Hin. revert Hin. apply unlocked_app.
      - apply unlocked_trace.
        exact (nothing_locked_before_verification _ _ _ _ _ _ Hprep Hprog).
      - intros e He; cbn in He; intuition (subst; reflexivity). }
    cbn in Hx. apply Z.eqb_neq in Hx. contradiction.
Qed.

Lemma locked_checks (fl : flags) (w' : world D) :
  getopt_loop argv init_flags (mk_world d input env []) = (Normal fl, w') ->
  write_aprom fl = 0 -> write_ldrom fl = 0 ->
  let o := run_outcome argc argv d input env in
  let s := observed locked_tests (run_trace argc argv d input env) in
  implb (existsb (bit 0) s)
        (returned_1 o && existsb (bit 1) s
         && negb (existsb (bit 2) s) && negb (existsb (bit 3) s)) = true.
Proof.
  intros Hparse Ha Hl.
  apply (main_observed locked_tests argc argv d input env
           (fun _ x =>
              implb (existsb (bit 0) (snd x))
                    (returned_1 (fst x)
                     && existsb (bit 1) (snd x)
                     && negb (existsb (bit 2) (snd x))
                     && negb (existsb (bit 3) (snd x))) = true)).
  run_main_with
    ltac:(try solve
            [ exfalso;
              match goal with
              | E : forall w, getopt_loop _ _ w = _ |- _ =>
                  rewrite E in Hparse
              end;
              inversion Hparse; subst fl; cbn in Ha, Hl; discriminate ]);
    reflexivity.
Qed.

(** C8: when neither write was requested and the configuration read finds
    LOCK cleared, the run prints the device-locked error and returns 1; it
    never reads the flash into a byte buffer, and it neither erases nor
    writes. *)
Theorem C8_locked_chip_is_not_read (fl : flags) (w' : world D) :
  getopt_loop argv init_flags (mk_world d input env []) = (Normal fl, w') ->
  write_aprom fl = 0 ->
  write_ldrom fl = 0 ->
  let o := run_outcome argc argv d input env in
  let t := run_trace argc argv d input env in
  forall a n c,
    In (ICP_read_flash a n (Config c)) t ->
    LOCK c = 0 ->
    o = Returned 1 /\
    In (Fprintf_stderr locked_msg []) t /\
    (forall a' n' b, ~ In (ICP_read_flash a' n' (Bytes b)) t) /\
    ~ In ICP_mass_erase t /\
    (forall a' n' b, ~ In (ICP_write_flash a' n' b) t).
Proof.
  intros Hparse Ha Hl o t a n c Hin Hc.
  pose proof (locked_checks fl w' Hparse Ha Hl) as B.
  cbv zeta in B. fold o in B. fold t in B.
  assert (Hs : existsb (bit 0) (observed locked_tests t) = true).
  { apply (seen_intro locked_tests 0 t _ Hin). cbn. apply Z.eqb_eq, Hc. }
  rewrite Hs in B. cbn [implb] in B.
  apply andb_true_iff in B. destruct B as [B Hnd].
  apply andb_true_iff in B. destruct B as [B Hnr].
  apply andb_true_iff in B. destruct B as [Hret Hmsg].
  apply negb_true_iff in Hnd, Hnr.
  split; [|split; [|split; [|split]]].
  - destruct o as [s | s |]; try discriminate.
    cbn in Hret. apply Z.eqb_eq in Hret. subst. reflexivity.
  - apply seen_spec in Hmsg. destruct Hmsg as (e & He & Hb).
    apply is_stderr_eq in Hb. subst e. exact He.
  - intros a' n' b Hr.
    pose proof (unseen_spec locked_tests 2 t Hnr _ Hr). discriminate.
  - intros He.
    pose proof (unseen_spec locked_tests 3 t Hnd _ He). discriminate.
  - intros a' n' b Hw.
    pose proof (unseen_spec locked_tests 3 t Hnd _ Hw). discriminate.
Qed.

Lemma shutdown_checks :
  let o := run_outcome argc argv d input env in
  let s := observed shutdown_tests (run_trace argc argv d input env) in
  implb (existsb (bit 0) s) (returned_1 o && negb (existsb (bit 2) s))
  = true /\
  implb (existsb (bit 3) s) (failed o) = true /\
  none_after (bit 3) (bit 4) s = true /\
  match fst (main_body argc argv (mk_world d input env [])) with
  | Goto err => existsb (bit 1) s = false
  | _ => True
  end.
Proof.
  apply (main_observed shutdown_tests argc argv d input env
           (fun l x =>
              implb (existsb (bit 0) (snd x))
                    (returned_1 (fst x)
                     && negb (existsb (bit 2) (snd x))) = true /\
              implb (existsb (bit 3) (snd x)) (failed (fst x)) = true /\
              none_after (bit 3) (bit 4) (snd x) = true /\
              match l with
              | Goto err => existsb (bit 1) (snd x) = false
              | _ => True
              end)).
  run_main; repeat split; reflexivity.
Qed.

(** C9, as the code has it: on every path that returns after the transport
    was initialised, success or failure, [N51ICP_exit] and [N51PGM_deinit]
    are the last two calls; when [N51ICP_init] itself fails the run returns
    1 and calls neither.  Every fatal message comes with a non-zero
    outcome, and no erase or write follows a fatal message. *)
Theorem C9_shutdown_and_failure_reporting :
  let o := run_outcome argc argv d input env in
  let t := run_trace argc argv d input env in
  (forall ret,
      In (ICP_init true ret) t -> ret <> 0 ->
      o = Returned 1 /\
      ~ In ICP_exit t /\
      forall x, ~ In (PGM_deinit x) t) /\
  (In (ICP_init true 0) t ->
   forall s, o = Returned s ->
   exists pre, t = pre ++ [ICP_exit; PGM_deinit 0]) /\
  (forall e,
      In e t -> is_fatal e = true ->
      exists s, s <> 0 /\ (o = Returned s \/ o = Exited s)) /\
  (forall pre e post,
      t = pre ++ e :: post -> is_fatal e = true ->
      ~ In ICP_mass_erase post /\
      forall a n b, ~ In (ICP_write_flash a n b) post).
Proof.
  intros o t. destruct shutdown_checks as (B1 & B2 & B3 & B4).
  fold o in B1, B2. fold t in B1, B2, B3, B4.
  split; [|split; [|split]].
  - intros ret Hin Hret.
    assert (Hs : existsb (bit 0) (observed shutdown_tests t) = true).
    { apply (seen_intro shutdown_tests 0 t _ Hin). cbn.
      apply negb_true_iff, Z.eqb_neq, Hret. }
    rewrite Hs in B1. cbn [implb] in B1.
    apply andb_true_iff in B1. destruct B1 as [Hr Hno].
    apply negb_true_iff in Hno.
    split; [|split].
    + destruct o as [s | s |]; try discriminate.
      cbn in Hr. apply Z.eqb_eq in Hr. subst. reflexivity.
    + intros He.
      pose proof (unseen_spec shutdown_tests 2 t Hno _ He). discriminate.
    + intros x He.
      pose proof (unseen_spec shutdown_tests 2 t Hno _ He). discriminate.
  - clear B1 B2 B3. intros Hin s Hs.
    subst o t. unfold run_outcome, run_trace, main in *.
    destruct (main_body argc argv _) as [[u | l] w1]; cbn [fst] in B4.
    + exists (trace w1). cbn. rewrite <- app_assoc. reflexivity.
    + destruct l; cbn [finish fst snd] in *; try discriminate.
      * exists (trace w1). cbn. rewrite <- app_assoc. reflexivity.
      * exists (trace w1). cbn. rewrite <- app_assoc. reflexivity.
      * assert (Hse : existsb (bit 1) (observed shutdown_tests (trace w1))
                      = true)
          by (apply (seen_intro shutdown_tests 1 _ _ Hin); reflexivity).
        congruence.
  - intros e Hin He.
    assert (Hs : existsb (bit 3) (observed shutdown_tests t) = true)
      by (apply (seen_intro shutdown_tests 3 t _ Hin); exact He).
    rewrite Hs in B2. cbn [implb] in B2.
    destruct o as [s | s |]; try discriminate; cbn in B2;
      apply negb_true_iff, Z.eqb_neq in B2; exists s; auto.
  - intros pre e post E He.
    pose proof (none_after_spec shutdown_tests 3 4 t B3 pre e post E He) as Hn.
    split.
    + intros Hin. pose proof (Hn _ Hin). discriminate.
    + intros a n b Hin. pose proof (Hn _ Hin). discriminate.
Qed.

End Runs.

(** * Further properties of [main] *)

(** ** The command line *)

Section CommandLine.

Context {L : Layout} {D : Type} {T : N51ICP D}.

Lemma getopt_loop_stops_at_u (a : option string) (rest : list getopt_item) :
  forall (pre : list getopt_item) (fl : flags) (w : world D),
    getopt_loop (pre ++ mk_item "u" a :: rest) fl w
    = getopt_loop (pre ++ [mk_item "u" a]) fl w.
Proof.
  induction pre as [|it pre IH]; intros fl w.
  - reflexivity.
  - cbn [app getopt_loop]. unfold bind.
    destruct (option_case it fl w) as [[fl1 | l] w1]; [|reflexivity].
    destruct (dump_config fl1); [reflexivity | apply IH].
Qed.

(** The options reach the run only through the option loop. *)
Lemma main_by_options argc (argv argv' : list getopt_item) (w : world D) :
  (forall w' : world D,
      getopt_loop argv init_flags w' = getopt_loop argv' init_flags w') ->
  main argc argv w = main argc argv' w.
Proof.
  intros H. unfold main, main_body. cbv zeta. rewrite !bind_run.
  destruct ((if argc <=? 1 then usage else ret tt) w) as [[u | l] w1];
    [|reflexivity].
  rewrite !bind_run, H. reflexivity.
Qed.

Variables (argc : Z) (d : D) (input : list Z) (env : os_env).

(** X1: The option loop ends at the first -u: whatever options follow it on
    the command line, the run is the same as without them. *)
Theorem options_after_u_are_ignored
        (pre rest : list getopt_item) (a : option string) :
  run_outcome argc (pre ++ mk_item "u" a :: rest) d input env
  = run_outcome argc (pre ++ [mk_item "u" a]) d input env /\
  run_trace argc (pre ++ mk_item "u" a :: rest) d input env
  = run_trace argc (pre ++ [mk_item "u" a]) d input env.
Proof.
  unfold run_outcome, run_trace.
  rewrite (main_by_options argc (pre ++ mk_item "u" a :: rest)
             (pre ++ [mk_item "u" a]));
    [split; reflexivity|].
  intros w'. apply getopt_loop_stops_at_u.
Qed.

Lemma option_case_sets_a_flag it fl (w : world D) :
  sets_a_flag it = true ->
  exists fl', option_case it fl w = (Normal fl', w) /\
              dump_config fl' = dump_config fl.
Proof.
  unfold sets_a_flag, option_case. intros H.
  destruct (Ascii.eqb (opt it) "u") eqn:Eu.
  { apply Ascii.eqb_eq in Eu. rewrite Eu in H. discriminate. }
  destruct (Ascii.eqb (opt it) "r"); [eexists; split; reflexivity|].
  destruct (Ascii.eqb (opt it) "w"); [eexists; split; reflexivity|].
  destruct (Ascii.eqb (opt it) "l"); [eexists; split; reflexivity|].
  destruct (Ascii.eqb (opt it) "s"); [eexists; split; reflexivity|].
  discriminate.
Qed.

Lemma option_case_unknown it fl (w : world D) :
  known_option it = false ->
  option_case it fl w =
    (Goto (exited 1),
     mk_world (dev w) (stdin w) (os w)
       (trace w ++
        [Fprintf_stderr unknown_option_fmt [AChar (opt it)]; Usage_text])).
Proof.
  unfold known_option, sets_a_flag, option_case. intros H.
  destruct (Ascii.eqb (opt it) "u"); [discriminate|].
  destruct (Ascii.eqb (opt it) "r"); [discriminate|].
  destruct (Ascii.eqb (opt it) "w"); [discriminate|].
  destruct (Ascii.eqb (opt it) "l"); [discriminate|].
  destruct (Ascii.eqb (opt it) "s"); [discriminate|].
  unfold bind, eprintf, emit, usage, bind, goto. cbn.
  rewrite <- app_assoc. reflexivity.
Qed.

Lemma getopt_loop_unknown it rest : forall pre fl (w : world D),
  forallb sets_a_flag pre = true ->
  known_option it = false ->
  dump_config fl = false ->
  getopt_loop (pre ++ it :: rest) fl w =
    (Goto (exited 1),
     mk_world (dev w) (stdin w) (os w)
       (trace w ++
        [Fprintf_stderr unknown_option_fmt [AChar (opt it)]; Usage_text])).
Proof.
  induction pre as [|it0 pre IH]; intros fl w Hpre Hit Hd.
  - cbn [app getopt_loop]. unfold bind.
    rewrite option_case_unknown by assumption. reflexivity.
  - cbn [forallb] in Hpre. apply andb_true_iff in Hpre.
    destruct Hpre as [H0 Hpre].
    cbn [app getopt_loop]. unfold bind.
    destruct (option_case_sets_a_flag it0 fl w H0) as (fl' & -> & Hd').
    rewrite Hd', Hd. apply IH; [assumption | assumption | congruence].
Qed.

(** X2: -h has no case of its own in the [switch] and falls to [default]:
    it is refused like an unknown option.  After options that only set
    flags, the run prints "ERROR: Unknown option: h" and the usage text and
    nothing else, and the process exits with status 1, whatever options
    follow. *)
Theorem help_option_is_refused_as_unknown
        (pre rest : list getopt_item) (it : getopt_item) :
  1 < argc ->
  forallb sets_a_flag pre = true ->
  opt it = "h"%char ->
  run_outcome argc (pre ++ it :: rest) d input env = Exited 1 /\
  run_trace argc (pre ++ it :: rest) d input env
  = [Fprintf_stderr unknown_option_fmt [AChar "h"]; Usage_text].
Proof.
  intros Hargc Hpre Hit.
  assert (Hun : known_option it = false)
    by (unfold known_option, sets_a_flag; rewrite Hit; reflexivity).
  unfold run_outcome, run_trace, main, main_body. cbv zeta.
  replace (argc <=? 1) with false by (symmetry; apply Z.leb_gt; exact Hargc).
  rewrite !bind_run. cbn [ret]. rewrite !bind_run.
  rewrite (getopt_loop_unknown it rest pre init_flags _ Hpre Hun eq_refl).
  rewrite Hit. split; reflexivity.
Qed.

(** The option loop's flags come with the world as it was. *)
Lemma getopt_loop_world argv (fl : flags) (w w' : world D) :
  getopt_loop argv init_flags w = (Normal fl, w') -> w' = w.
Proof.
  intros E.
  destruct (getopt_loop_cases argv init_flags w) as [(fl' & _ & E') | (c & E')].
  - unfold flags01; cbn; tauto.
  - rewrite E' in E. inversion E. reflexivity.
  - rewrite E' in E. discriminate.
Qed.

Variable argv : list getopt_item.

(** X3: A command line that asks for nothing, or for reading and writing the
    application at once, or gives no option, is refused before any file
    is opened and before the transport is touched: the run prints its
    message and the usage text and exits with status 1. *)
Theorem unusable_command_lines_are_refused :
  let o := run_outcome argc argv d input env in
  let t := run_trace argc argv d input env in
  (argc <= 1 -> o = Exited 1 /\ t = [Usage_text]) /\
  (1 < argc ->
   forall fl w',
     getopt_loop argv init_flags (mk_world d input env []) = (Normal fl, w') ->
     (read_aprom fl = 1 -> write_aprom fl = 1 ->
      o = Exited 1 /\ t = [Fprintf_stderr conflict_msg []; Usage_text]) /\
     (read_aprom fl = 0 -> write_aprom fl = 0 -> dump_config fl = false ->
      o = Exited 1 /\ t = [Fprintf_stderr no_action_msg []; Usage_text])).
Proof.
  intros o t. subst o t.
  unfold run_outcome, run_trace, main, main_body. cbv zeta. split.
  - intros Hargc.
    replace (argc <=? 1) with true by (symmetry; apply Z.leb_le; exact Hargc).
    split; reflexivity.
  - intros Hargc fl w' E.
    pose proof (getopt_loop_world argv fl _ w' E). subst w'.
    replace (argc <=? 1) with false by (symmetry; apply Z.leb_gt; exact Hargc).
    rewrite !bind_run. cbn [ret]. rewrite !bind_run, E. split.
    + intros Hr Hw. rewrite !bind_run, Hr, Hw. split; reflexivity.
    + intros Hr Hw Hd. rewrite !bind_run, Hr, Hw.
      cbn [truthy Z.eqb negb andb ret]. rewrite !bind_run, Hd.
      split; reflexivity.
Qed.

End CommandLine.

(** ** The images and where they go *)

Section Images.

Context {L : Layout} {D : Type} {T : N51ICP D}.

Lemma ldrom_size_bounds (f : FILE) :
  0 <= ldrom_size f /\
  ldrom_size f <= Z.of_nat (List.length (f_data f)) /\
  ldrom_size f <= Z.max 0 LDROM_MAX_SIZE.
Proof. unfold ldrom_size. rewrite length_firstn. lia. Qed.

Lemma kb_small n :
  0 <= n <= 7 * 1024 -> 1 <= chosen_ldrom_sz_kb n <= 7.
Proof.
  intros Hn. destruct (Z.eq_dec n 0) as [-> | Hnz]; [cbv; split; discriminate|].
  rewrite kb_no_wrap by lia.
  assert (0 <= (n - 1) / 1024) by (apply Z.div_pos; lia).
  assert ((n - 1) / 1024 < 7) by (apply Z.div_lt_upper_bound; lia).
  lia.
Qed.

Lemma kb_eight n :
  7 * 1024 < n <= 8 * 1024 -> chosen_ldrom_sz_kb n = 8.
Proof.
  intros Hn. rewrite kb_no_wrap by lia.
  assert (7 <= (n - 1) / 1024) by (apply Z.div_le_lower_bound; lia).
  assert ((n - 1) / 1024 < 8) by (apply Z.div_lt_upper_bound; lia).
  lia.
Qed.

Lemma land_7_small x : 0 <= x < 8 -> Z.land x 7 = x.
Proof.
  intros H. change (Z.land x 7) with (Z.land x (Z.ones 3)).
  rewrite Z.land_ones by lia. apply Z.mod_small. exact H.
Qed.

(** X4: Up to 7 KiB read, the LDS field written says how large the loader
    region is: (7 - LDS) KiB.  From there to 8 KiB the field wraps to 7,
    the value of the blank configuration. *)
Theorem loader_region_is_told_by_LDS (f : FILE) (lc : locals) (w : world D) :
  exists lc' w',
    program_ldrom (Some f) lc w = (Normal lc', w') /\
    (ldrom_size f <= 7 * 1024 ->
     l_chosen_ldrom_sz lc' = (7 - LDS (l_write_config lc')) * 1024) /\
    (7 * 1024 < ldrom_size f <= 8 * 1024 ->
     l_chosen_ldrom_sz lc' = 8 * 1024 /\
     LDS (l_write_config lc') = LDS get_default_config).
Proof.
  eexists. eexists. split; [apply program_ldrom_run|].
  cbn [l_chosen_ldrom_sz l_write_config set_LDS LDS].
  rewrite land_7_mod_8. unfold chosen_ldrom_sz.
  pose proof (ldrom_size_bounds f) as (H0 & _ & _). split.
  - intros Hn.
    pose proof (kb_small (ldrom_size f) (conj H0 Hn)) as Hk.
    rewrite land_7_small by lia. lia.
  - intros Hn. rewrite (kb_eight _ Hn). split; reflexivity.
Qed.

(** X5: The loader image goes to the top of the flash: the write starts at
    [FLASH_SIZE] less the region, which is not below 0, sends the bytes
    read from the file, which are the lesser of the file's length and
    [LDROM_MAX_SIZE], and ends within the region. *)
Theorem loader_write_stays_in_its_region (HL : LayoutOk L)
        (f : FILE) (lc : locals) (w : world D) :
  let len := Z.of_nat (List.length (f_data f)) in
  let n := Z.min len LDROM_MAX_SIZE in
  exists lc' w' data,
    program_ldrom (Some f) lc w = (Normal lc', w') /\
    let region := l_chosen_ldrom_sz lc' in
    In (ICP_write_flash (FLASH_SIZE - region) n (Bytes data)) (trace w') /\
    region mod 1024 = 0 /\
    0 <= FLASH_SIZE - region /\
    0 <= n <= region /\
    firstn (Z.to_nat n) data = firstn (Z.to_nat n) (f_data f).
Proof.
  intros len n. pose proof HL as [_ Hpos Hkib Hsmall Hfit].
  assert (Hn : ldrom_size f = n).
  { unfold ldrom_size. rewrite fread_count by lia. reflexivity. }
  assert (Hin : 0 <= n <= LDROM_MAX_SIZE) by (unfold n, len; lia).
  pose proof (chosen_ldrom_sz_bounded HL n Hin) as Hb.
  eexists. eexists. eexists. split; [apply program_ldrom_run|].
  cbv zeta. cbn [l_chosen_ldrom_sz trace]. rewrite Hn.
  split; [apply in_or_app; right; cbn [In]; auto 6|].
  split; [unfold chosen_ldrom_sz; apply Z.mod_mul; lia|].
  split; [lia|]. split.
  - split; [lia|]. destruct (Z.eq_dec n 0) as [E | E]; [lia|].
    assert (Hr : 1 <= n <= 255 * 1024) by lia.
    destruct (chosen_ldrom_sz_least n Hr) as (_ & ? & _). lia.
  - rewrite <- Hn. unfold ldrom_size.
    rewrite Nat2Z.id, buf_store_prefix, firstn_length_firstn. reflexivity.
Qed.

Lemma firstn_repeat_le {A} (x : A) k m :
  (k <= m)%nat -> firstn k (repeat x m) = repeat x k.
Proof.
  revert m. induction k as [|k IH]; intros m H; [reflexivity|].
  destruct m as [|m]; [lia|]. cbn. f_equal. apply IH. lia.
Qed.

Lemma buf_store_blank (x : Z) n src :
  buf_store (repeat x n) 0 src = src ++ repeat x (n - List.length src).
Proof.
  unfold buf_store. cbn [firstn app Nat.add]. rewrite skipn_repeat.
  reflexivity.
Qed.

Lemma firstn_padded (x : Z) src k m :
  (List.length src <= k)%nat -> (k <= List.length src + m)%nat ->
  firstn k (src ++ repeat x m) = src ++ repeat x (k - List.length src).
Proof.
  intros H1 H2. rewrite firstn_app, firstn_all2 by assumption.
  rewrite firstn_repeat_le by lia. reflexivity.
Qed.

(** X6: With both images, the buffer the read-back is compared with holds the
    application bytes from 0, the loader bytes from [FLASH_SIZE] less the
    region, where they were written, and 0xFF everywhere else. *)
Theorem expected_image_with_loader (HL : LayoutOk L)
        (fl f : FILE) (w : world D) :
  let loader := firstn (Z.to_nat LDROM_MAX_SIZE) (f_data fl) in
  let region := chosen_ldrom_sz (ldrom_size fl) in
  let capacity := FLASH_SIZE - region in
  let app := firstn (Z.to_nat capacity) (f_data f) in
  exists lc1 w1 lc2 w2,
    program_ldrom (Some fl) initial_locals w = (Normal lc1, w1) /\
    program_aprom (Some f) lc1 w1 = (Normal lc2, w2) /\
    expected_flash lc2 =
      app ++ repeat 0xFF (Z.to_nat capacity - List.length app)
          ++ loader ++ repeat 0xFF (Z.to_nat region - List.length loader) /\
    List.length (expected_flash lc2) = Z.to_nat FLASH_SIZE.
Proof.
  intros loader region capacity app.
  pose proof HL as [_ Hpos Hkib Hsmall Hfit].
  pose proof (ldrom_size_bounds fl) as (Hn0 & _ & Hn1).
  assert (Hin : 0 <= ldrom_size fl <= LDROM_MAX_SIZE) by lia.
  pose proof (chosen_ldrom_sz_bounded HL _ Hin) as Hb. fold region in Hb.
  assert (Hll : Z.of_nat (List.length loader) = ldrom_size fl) by reflexivity.
  assert (Hlr : Z.of_nat (List.length loader) <= region).
  { rewrite Hll. destruct (Z.eq_dec (ldrom_size fl) 0) as [E | E]; [lia|].
    assert (Hr : 1 <= ldrom_size fl <= 255 * 1024) by lia.
    destruct (chosen_ldrom_sz_least (ldrom_size fl) Hr) as (_ & ? & _).
    assumption. }
  assert (Hla : (List.length app <= Z.to_nat capacity)%nat)
    by (unfold app; rewrite length_firstn; lia).
  assert (Hexp :
    memcpy (buf_store (memset 255 FLASH_SIZE) 0 app) capacity
           (buf_store (memset 255 LDROM_MAX_SIZE) 0 loader) region
    = app ++ repeat 255 (Z.to_nat capacity - List.length app)
          ++ loader ++ repeat 255 (Z.to_nat region - List.length loader)).
  { unfold memcpy, memset. rewrite !buf_store_blank.
    rewrite (firstn_padded 255 loader) by lia.
    unfold buf_store.
    rewrite (firstn_padded 255 app) by (unfold capacity; lia).
    rewrite skipn_all2, app_nil_r.
    - rewrite <- app_assoc. reflexivity.
    - rewrite !length_app, !repeat_length. unfold capacity in *. lia. }
  eexists. eexists. eexists. eexists.
  split; [apply program_ldrom_run|]. split; [apply program_aprom_run|].
  unfold expected_flash.
  cbn [l_write_data l_chosen_ldrom_sz l_ldrom_data initial_locals].
  unfold aprom_size. fold region. fold capacity. fold app. fold loader.
  rewrite Hexp. split; [reflexivity|].
  rewrite !length_app, !repeat_length. unfold capacity in *. lia.
Qed.

End Images.

(** ** Reading the flash out *)

Section Dump.

Context {L : Layout} {D : Type} {T : N51ICP D}.

(** X7: A dump hands to [fwrite] exactly the bytes the transport has read, all
    [FLASH_SIZE] of them; the run goes on to a successful end when
    [fwrite] reports [FLASH_SIZE] items written, and otherwise reports the
    write error and leaves through [out_err]. *)
Theorem dump_saves_what_was_read (f : FILE) (read_data : list Z) (w : world D) :
  let bytes :=
    fst (N51ICP_read_flash APROM_FLASH_ADDR FLASH_SIZE
                           (N51ICP_dump_config (dev w))) in
  let wrote := env_fwrite (os w) (f_name f) bytes in
  List.length bytes = Z.to_nat FLASH_SIZE ->
  (List.length read_data <= Z.to_nat FLASH_SIZE)%nat ->
  let res := read_out (Some f) read_data w in
  fst res = (if wrote =? FLASH_SIZE then Normal tt else Goto out_err) /\
  trace (snd res) =
    trace w ++
    [ICP_dump_config;
     ICP_read_flash APROM_FLASH_ADDR FLASH_SIZE (Bytes bytes);
     Fwrite (f_name f) bytes FLASH_SIZE wrote;
     Fprintf_stderr (if wrote =? FLASH_SIZE then read_ok_msg
                     else "Error writing file!\n") []].
Proof.
  intros bytes wrote Hb Hr.
  destruct w as [d0 i0 o0 t0]. cbn [dev os] in bytes, wrote.
  assert (Hbuf : buf_store read_data 0 bytes = bytes).
  { unfold buf_store. cbn [firstn app Nat.add].
    rewrite skipn_all2 by lia. apply app_nil_r. }
  assert (Hall : firstn (Z.to_nat FLASH_SIZE) bytes = bytes)
    by (apply firstn_all2; lia).
  cbv zeta. unfold read_out, fwrite, bind, call, call_.
  cbn [dev stdin os trace fst snd].
  change (fst (N51ICP_read_flash APROM_FLASH_ADDR FLASH_SIZE
                 (N51ICP_dump_config d0))) with bytes.
  rewrite Hbuf, Hall.
  change (env_fwrite o0 (f_name f) bytes) with wrote.
  destruct (wrote =? FLASH_SIZE); cbn [negb];
    unfold eprintf, bind, emit, goto; cbn [dev stdin os trace fst snd];
    repeat rewrite <- app_assoc; split; reflexivity.
Qed.

End Dump.

(** ** The device information *)

Section DeviceInfo.

Context {L : Layout} {D : Type} {T : N51ICP D}.

Lemma for_upto_emits (ev : nat -> event) n : forall i (w : world D),
  for_upto i n (fun j => emit (ev j)) w =
  (Normal tt,
   mk_world (dev w) (stdin w) (os w) (trace w ++ map ev (seq i n))).
Proof.
  induction n as [|n IH]; intros i w.
  - cbn. rewrite app_nil_r. destruct w; reflexivity.
  - cbn [for_upto seq map]. unfold bind at 1. cbn [emit]. rewrite IH.
    cbn [dev stdin os trace]. rewrite <- app_assoc. reflexivity.
Qed.

Lemma map_nth_seq {A B} (g : A -> B) (x : A) (l : list A) :
  map (fun j => g (nth j l x)) (seq 0 (List.length l)) = map g l.
Proof.
  induction l as [|a l IH]; [reflexivity|].
  cbn [List.length seq map nth]. f_equal.
  rewrite <- seq_shift, map_map. exact IH.
Qed.

(** X8: [print_device_info] prints the device ID, named N76E003 exactly when it
    is 0x3650, the CID, and the 12 bytes of the UID and the 16 of the UCID
    in order; it writes to standard output only and calls nothing of the
    transport. *)
Theorem print_device_info_prints_every_field
        (info : device_info) (w : world D) :
  List.length (uid info) = 12%nat ->
  List.length (ucid info) = 16%nat ->
  print_device_info info w =
  (Normal tt,
   mk_world (dev w) (stdin w) (os w)
     (trace w ++
      [Printf "Device ID:\t0x%04x (%s)\n"
              [AInt (devid info);
               AStr (if devid info =? 0x3650 then "N76E003" else "unknown")];
       Printf "CID:\t\t0x%02x\n" [AInt (cid info)];
       Printf "UID:\t\t" []]
      ++ map (fun b => Printf "%02x " [AInt b]) (uid info)
      ++ [Printf "\nUCID:\t\t" []]
      ++ map (fun b => Printf "%02x " [AInt b]) (ucid info)
      ++ [Printf "\n" []])).
Proof.
  intros Hu Huc.
  rewrite <- (map_nth_seq (fun b => Printf "%02x " [AInt b]) 0 (uid info)).
  rewrite <- (map_nth_seq (fun b => Printf "%02x " [AInt b]) 0 (ucid info)).
  rewrite Hu, Huc.
  unfold print_device_info, printf.
  unfold bind at 1. cbn [emit]. unfold bind at 1. cbn [emit].
  unfold bind at 1. cbn [emit]. unfold bind at 1.
  rewrite (for_upto_emits
             (fun j => Printf "%02x " [AInt (nth j (uid info) 0)])).
  unfold bind at 1. cbn [emit]. unfold bind at 1.
  rewrite (for_upto_emits
             (fun j => Printf "%02x " [AInt (nth j (ucid info) 0)])).
  unfold emit. cbn [dev stdin os trace].
  repeat rewrite <- app_assoc. cbn [app]. reflexivity.
Qed.

End DeviceInfo.

(** ** The order of calls in a run *)

Section Order.

Context {L : Layout} {D : Type} {T : N51ICP D}.

Variables (argc : Z) (argv : list getopt_item).
Variables (d : D) (input : list Z) (env : os_env).

Lemma order_verdicts :
  let o := run_outcome argc argv d input env in
  let q := verdicts order_checks_list (run_trace argc argv d input env) in
  implb (is_exited o) (exited_1 o && armed 1 q && negb (armed 0 q)) = true /\
  (kept 5 q = true /\
   implb (armed 6 q) (exited_1 o && negb (armed 0 q)) = true) /\
  (kept 7 q = true /\ kept 8 q = true /\ kept 9 q = true) /\
  (kept 10 q = true /\ kept 11 q = true) /\
  (kept 2 q = true /\ kept 3 q = true /\ kept 4 q = true).
Proof.
  apply (main_verdicts order_checks_list argc argv d input env
           (fun _ x =>
              implb (is_exited (fst x))
                    (exited_1 (fst x) && armed 1 (snd x)
                     && negb (armed 0 (snd x))) = true /\
              (kept 5 (snd x) = true /\
               implb (armed 6 (snd x))
                     (exited_1 (fst x) && negb (armed 0 (snd x))) = true) /\
              (kept 7 (snd x) = true /\ kept 8 (snd x) = true /\
               kept 9 (snd x) = true) /\
              (kept 10 (snd x) = true /\ kept 11 (snd x) = true) /\
              (kept 2 (snd x) = true /\ kept 3 (snd x) = true /\
               kept 4 (snd x) = true))).
  watch_main; repeat split; reflexivity.
Qed.

Lemma is_init_eq e : is_init e = true -> exists b r, e = ICP_init b r.
Proof. destruct e; try discriminate. eauto. Qed.

Lemma is_transport_cases e :
  is_transport e = true -> is_init e = true \/ is_later_transport e = true.
Proof. unfold is_transport. apply orb_true_iff. Qed.

(** A run in which [N51ICP_init] is not called calls nothing of the
    transport. *)
Lemma no_init_no_transport :
  let q := verdicts order_checks_list (run_trace argc argv d input env) in
  armed 0 q = false ->
  forall e, In e (run_trace argc argv d input env) -> is_transport e = false.
Proof.
  intros q H0 e Hin. destruct order_verdicts as (_ & _ & _ & _ & K2 & _).
  pose proof (unseen_in order_checks_list 0 _ _ eq_refl H0) as Hno.
  destruct (is_transport e) eqn:Ht; [|reflexivity].
  destruct (is_transport_cases e Ht) as [Hi | Hl].
  - rewrite (Hno e Hin) in Hi. discriminate.
  - destruct (in_split _ _ Hin) as (pre & post & E).
    destruct (precedes_kept order_checks_list 2 _ _ _ eq_refl K2
                pre e post E Hl) as (e' & Hin' & He').
    assert (In e' (run_trace argc argv d input env))
      by (rewrite E; apply in_or_app; left; exact Hin').
    rewrite (Hno e') in He' by assumption. discriminate.
Qed.

(** X9: The process is ended by [exit] only through [usage], with status 1,
    and only before anything of the transport has been called. *)
Theorem exit_happens_before_any_transport_call (s : Z) :
  run_outcome argc argv d input env = Exited s ->
  s = 1 /\
  In Usage_text (run_trace argc argv d input env) /\
  forall e, In e (run_trace argc argv d input env) -> is_transport e = false.
Proof.
  intros Ho. destruct order_verdicts as (B & _). rewrite Ho in B.
  cbn [is_exited implb exited_1] in B.
  apply andb_true_iff in B. destruct B as [B H0].
  apply andb_true_iff in B. destruct B as [Hs Hu].
  apply negb_true_iff in H0.
  split; [apply Z.eqb_eq, Hs|]. split.
  - destruct (seen_in order_checks_list 1 _ _ eq_refl Hu) as (e & Hin & He).
    destruct e; try discriminate. exact Hin.
  - apply no_init_no_transport, H0.
Qed.

(** X10: Files are opened before the transport is touched, and a file that does
    not open ends the run through [usage] without a call of the
    transport. *)
Theorem files_are_opened_before_the_transport :
  let o := run_outcome argc argv d input env in
  let t := run_trace argc argv d input env in
  (forall pre e post,
      t = pre ++ e :: post -> is_transport e = true ->
      forall name mode opened, ~ In (Fopen name mode opened) post) /\
  (forall name mode,
      In (Fopen name mode false) t ->
      o = Exited 1 /\ forall e, In e t -> is_transport e = false).
Proof.
  intros o t.
  destruct order_verdicts as (_ & (K5 & B6) & _ & _ & K2 & _).
  fold o in B6. fold t in K5, B6, K2. split.
  - intros pre e post E Ht name mode opened Hin.
    assert (Hinit : forall pre e post,
               t = pre ++ e :: post -> is_init e = true ->
               forall e', In e' post -> is_fopen e' = false)
      by exact (excludes_kept order_checks_list 5 _ _ _ eq_refl K5).
    destruct (is_transport_cases e Ht) as [Hi | Hl].
    + pose proof (Hinit pre e post E Hi _ Hin). discriminate.
    + destruct (precedes_kept order_checks_list 2 _ _ _ eq_refl K2
                  pre e post E Hl) as (e0 & Hin0 & He0).
      destruct (in_split _ _ Hin0) as (p1 & p2 & ->).
      rewrite <- app_assoc in E. cbn [app] in E.
      assert (Hlater : In (Fopen name mode opened) (p2 ++ e :: post))
        by (apply in_or_app; right; right; exact Hin).
      pose proof (Hinit p1 e0 _ E He0 _ Hlater). discriminate.
  - intros name mode Hin.
    assert (H6 : armed 6 (verdicts order_checks_list t) = true).
    { rewrite (seen_armed order_checks_list 6 _ t eq_refl).
      apply existsb_exists. eexists. split; [exact Hin | reflexivity]. }
    rewrite H6 in B6. cbn [implb] in B6.
    apply andb_true_iff in B6. destruct B6 as [Hs H0].
    apply negb_true_iff in H0. split.
    + destruct o as [s | s |]; try discriminate.
      cbn in Hs. apply Z.eqb_eq in Hs. subst. reflexivity.
    + apply no_init_no_transport, H0.
Qed.

(** X11: Every write to the flash comes after the mass erase, the mass erase is
    never repeated, and nothing is erased once something has been
    written. *)
Theorem mass_erase_comes_first_and_once :
  let t := run_trace argc argv d input env in
  (forall pre a n b post,
      t = pre ++ ICP_write_flash a n b :: post ->
      In ICP_mass_erase pre /\ ~ In ICP_mass_erase post) /\
  (forall pre post,
      t = pre ++ ICP_mass_erase :: post -> ~ In ICP_mass_erase post).
Proof.
  intros t. destruct order_verdicts as (_ & _ & (K7 & K8 & K9) & _).
  fold t in K7, K8, K9. split.
  - intros pre a n b post E. split.
    + destruct (precedes_kept order_checks_list 7 _ _ _ eq_refl K7
                  pre _ post E eq_refl) as (e & Hin & He).
      apply is_mass_erase_eq in He. subst e. exact Hin.
    + intros Hin.
      pose proof (excludes_kept order_checks_list 8 _ _ _ eq_refl K8
                    pre _ post E eq_refl _ Hin).
      discriminate.
  - intros pre post E Hin.
    pose proof (excludes_kept order_checks_list 9 _ _ _ eq_refl K9
                  pre _ post E eq_refl _ Hin).
    discriminate.
Qed.

(** X12: Standard input is read at most once, and only after the prompt that
    offers the mass erase. *)
Theorem stdin_is_read_once_after_the_prompt (pre post : list event) (x : Z) :
  run_trace argc argv d input env = pre ++ Getchar x :: post ->
  In (Fprintf_stderr prompt_msg []) pre /\
  forall y, ~ In (Getchar y) post.
Proof.
  intros E. destruct order_verdicts as (_ & _ & _ & (K10 & K11) & _). split.
  - destruct (precedes_kept order_checks_list 10 _ _ _ eq_refl K10
                pre _ post E eq_refl) as (e & Hin & He).
    apply is_stderr_eq in He. subst e. exact Hin.
  - intros y Hin.
    pose proof (excludes_kept order_checks_list 11 _ _ _ eq_refl K11
                  pre _ post E eq_refl _ Hin).
    discriminate.
Qed.

(** X13: [N51ICP_init] is the first call of the transport and is made once; when
    it reports a failure no other call of the transport follows. *)
Theorem init_is_the_first_transport_call :
  let t := run_trace argc argv d input env in
  (forall pre e post,
      t = pre ++ e :: post -> is_later_transport e = true ->
      exists b r, In (ICP_init b r) pre) /\
  (forall pre b r post,
      t = pre ++ ICP_init b r :: post ->
      (forall b' r', ~ In (ICP_init b' r') post) /\
      (r <> 0 -> forall e, In e post -> is_transport e = false)).
Proof.
  intros t. destruct order_verdicts as (_ & _ & _ & _ & K2 & K3 & K4).
  fold t in K2, K3, K4. split.
  - intros pre e post E He.
    destruct (precedes_kept order_checks_list 2 _ _ _ eq_refl K2
                pre e post E He) as (e' & Hin & He').
    apply is_init_eq in He'. destruct He' as (b & r & ->). eauto.
  - intros pre b r post E.
    assert (Honce : forall e, In e post -> is_init e = false)
      by exact (excludes_kept order_checks_list 3 _ _ _ eq_refl K3
                  pre _ post E eq_refl).
    split.
    + intros b' r' Hin. pose proof (Honce _ Hin). discriminate.
    + intros Hr e Hin. unfold is_transport. rewrite (Honce e Hin).
      apply (excludes_kept order_checks_list 4 _ _ _ eq_refl K4
               pre _ post E); [|exact Hin].
      cbn. apply negb_true_iff, Z.eqb_neq, Hr.
Qed.

End Order.

(** ** The chip's identity *)

Section Identity.

Context {L : Layout} {D : Type} {T : N51ICP D}.

Variables (argc : Z) (argv : list getopt_item).
Variables (d : D) (input : list Z) (env : os_env).

Lemma identity_verdicts :
  kept 0 (verdicts identity_checks_list (run_trace argc argv d input env))
  = true.
Proof.
  apply (main_verdicts identity_checks_list argc argv d input env
           (fun _ x => kept 0 (snd x) = true)).
  watch_main; reflexivity.
Qed.

(** X14: The flash is erased or written only on a chip that has answered the
    device-ID read with 0x3650, or after the prompt that offers the mass
    erase has been printed. *)
Theorem nothing_is_changed_on_an_unknown_chip_unprompted
        (pre post : list event) (e : event) :
  run_trace argc argv d input env = pre ++ e :: post ->
  is_destructive e = true ->
  In (ICP_read_device_id N76E003_DEVID) pre \/
  In (Fprintf_stderr prompt_msg []) pre.
Proof.
  intros E He.
  destruct (precedes_kept identity_checks_list 0 _ _ _ eq_refl
              identity_verdicts pre e post E He) as (e' & Hin & He').
  destruct e'; try discriminate; cbn in He'.
  - right. destruct args; [|discriminate].
    apply String.eqb_eq in He'. subst. exact Hin.
  - left. apply Z.eqb_eq in He'. subst. exact Hin.
Qed.

End Identity.

(** ** What a run reports *)

Section Reports.

Context {L : Layout} {D : Type} {T : N51ICP D}.

Variables (argc : Z) (argv : list getopt_item).
Variables (d : D) (input : list Z) (env : os_env).

Lemma report_verdicts :
  let o := run_outcome argc argv d input env in
  let q := verdicts report_checks_list (run_trace argc argv d input env) in
  is_undefined o || Bool.eqb (failed o) (armed 0 q || armed 1 q) = true /\
  implb (returned_0 o) (armed 2 q || armed 3 q || negb (armed 4 q)) = true /\
  implb (armed 5 q) (returned_1 o && negb (armed 6 q) && negb (armed 7 q))
  = true.
Proof.
  apply (main_verdicts report_checks_list argc argv d input env
           (fun _ x =>
              is_undefined (fst x)
              || Bool.eqb (failed (fst x))
                          (armed 0 (snd x) || armed 1 (snd x)) = true /\
              implb (returned_0 (fst x))
                    (armed 2 (snd x) || armed 3 (snd x)
                     || negb (armed 4 (snd x))) = true /\
              implb (armed 5 (snd x))
                    (returned_1 (fst x) && negb (armed 6 (snd x))
                     && negb (armed 7 (snd x))) = true)).
  watch_main; repeat split; reflexivity.
Qed.

Lemma is_usage_eq e : is_usage e = true -> e = Usage_text.
Proof. destruct e; try discriminate. reflexivity. Qed.

Lemma is_full_fwrite_eq e :
  is_full_fwrite e = true ->
  exists name data, e = Fwrite name data FLASH_SIZE FLASH_SIZE.
Proof.
  destruct e; try discriminate. cbn. intros H.
  apply andb_true_iff in H. destruct H as [Hn Hr].
  apply Z.eqb_eq in Hn, Hr. subst. eauto.
Qed.

(** X15: A run fails, with a non-zero status from [return] or [exit], exactly
    when it has printed one of the fatal messages or the usage text. *)
Theorem failure_is_never_silent :
  let o := run_outcome argc argv d input env in
  let t := run_trace argc argv d input env in
  o <> Undefined ->
  (failed o = true <->
   exists e, In e t /\ (is_fatal e = true \/ e = Usage_text)).
Proof.
  intros o t Ho. destruct report_verdicts as (B & _).
  fold o in B. fold t in B.
  destruct (is_undefined o) eqn:Hu; [destruct o; try discriminate; congruence|].
  cbn [orb] in B. apply eqb_prop in B. rewrite B. split.
  - intros H. apply orb_true_iff in H. destruct H as [H | H].
    + destruct (seen_in report_checks_list 0 _ _ eq_refl H) as (e & Hin & He).
      eauto.
    + destruct (seen_in report_checks_list 1 _ _ eq_refl H) as (e & Hin & He).
      apply is_usage_eq in He. subst e. eauto.
  - intros (e & Hin & [He | ->]); apply orb_true_iff.
    + left. rewrite (seen_armed report_checks_list 0 _ t eq_refl).
      apply existsb_exists. eauto.
    + right. rewrite (seen_armed report_checks_list 1 _ t eq_refl).
      apply existsb_exists. eexists. split; [exact Hin | reflexivity].
Qed.

(** X16: A run that returns 0 has verified the flash against the images, or has
    had [fwrite] accept all [FLASH_SIZE] bytes of the dump, or has not
    touched a file at all (it was asked for the configuration only). *)
Theorem status_zero_means_the_work_was_done :
  let t := run_trace argc argv d input env in
  run_outcome argc argv d input env = Returned 0 ->
  In (Fprintf_stderr verified_msg []) t \/
  (exists name data, In (Fwrite name data FLASH_SIZE FLASH_SIZE) t) \/
  (forall e, In e t -> is_file_io e = false).
Proof.
  intros t Ho. destruct report_verdicts as (_ & B & _).
  rewrite Ho in B. fold t in B. cbn [returned_0 Z.eqb implb] in B.
  apply orb_true_iff in B. destruct B as [B | B].
  - apply orb_true_iff in B. destruct B as [B | B].
    + left.
      destruct (seen_in report_checks_list 2 _ _ eq_refl B) as (e & Hin & He).
      apply is_stderr_eq in He. subst e. exact Hin.
    + right. left.
      destruct (seen_in report_checks_list 3 _ _ eq_refl B) as (e & Hin & He).
      apply is_full_fwrite_eq in He. destruct He as (name & data & ->). eauto.
  - right. right. apply negb_true_iff in B.
    exact (unseen_in report_checks_list 4 _ _ eq_refl B).
Qed.

(** X17: A run that reports that no N76E003 was found returns 1 and has not
    read, erased or written the flash, the configuration bytes
    included. *)
Theorem unidentified_chip_is_left_alone :
  let t := run_trace argc argv d input env in
  In (Fprintf_stderr not_found_msg []) t ->
  run_outcome argc argv d input env = Returned 1 /\
  (forall a n b, ~ In (ICP_read_flash a n b) t) /\
  ~ In ICP_mass_erase t /\
  (forall a n b, ~ In (ICP_write_flash a n b) t).
Proof.
  intros t Hin. destruct report_verdicts as (_ & _ & B). fold t in B.
  assert (H5 : armed 5 (verdicts report_checks_list t) = true).
  { rewrite (seen_armed report_checks_list 5 _ t eq_refl).
    apply existsb_exists. eexists. split; [exact Hin | reflexivity]. }
  rewrite H5 in B. cbn [implb] in B.
  apply andb_true_iff in B. destruct B as [B H7].
  apply andb_true_iff in B. destruct B as [Hr H6].
  apply negb_true_iff in H6, H7.
  pose proof (unseen_in report_checks_list 6 _ _ eq_refl H6) as Hread.
  pose proof (unseen_in report_checks_list 7 _ _ eq_refl H7) as Hdes.
  split; [|split; [|split]].
  - destruct (run_outcome argc argv d input env) as [s | s |];
      try discriminate.
    cbn in Hr. apply Z.eqb_eq in Hr. subst. reflexivity.
  - intros a n b H. pose proof (Hread _ H). discriminate.
  - intros H. pose proof (Hdes _ H). discriminate.
  - intros a n b H. pose proof (Hdes _ H). discriminate.
Qed.

End Reports.

(** ** Runs by what the options ask for *)

Section Modes.

Context {L : Layout} {D : Type} {T : N51ICP D}.

Variables (argc : Z) (argv : list getopt_item).
Variables (d : D) (input : list Z) (env : os_env).

Lemma read_only_verdicts (fl : flags) (w' : world D) :
  getopt_loop argv init_flags (mk_world d input env []) = (Normal fl, w') ->
  write_aprom fl = 0 -> write_ldrom fl = 0 ->
  let q := verdicts read_only_checks_list (run_trace argc argv d input env) in
  armed 0 q || armed 1 q || armed 2 q = false.
Proof.
  intros Hparse Ha Hl.
  apply (main_verdicts read_only_checks_list argc argv d input env
           (fun _ x =>
              armed 0 (snd x) || armed 1 (snd x) || armed 2 (snd x) = false)).
  watch_main_with
    ltac:(try solve
            [ exfalso;
              match goal with
              | E : forall w, getopt_loop _ _ w = _ |- _ =>
                  rewrite E in Hparse
              end;
              inversion Hparse; subst fl; cbn in Ha, Hl; discriminate ]);
    reflexivity.
Qed.

(** X18: When the options ask for no write (neither -w nor -l took effect), the
    run changes nothing on the chip: no mass erase, no write to the flash
    or to the configuration bytes.  It also reads no image file and does
    not read standard input. *)
Theorem runs_without_write_options_change_nothing (fl : flags) (w' : world D) :
  getopt_loop argv init_flags (mk_world d input env []) = (Normal fl, w') ->
  write_aprom fl = 0 ->
  write_ldrom fl = 0 ->
  let t := run_trace argc argv d input env in
  ~ In ICP_mass_erase t /\
  (forall a n b, ~ In (ICP_write_flash a n b) t) /\
  (forall name n r, ~ In (Fread name n r) t) /\
  (forall x, ~ In (Getchar x) t).
Proof.
  intros Hparse Ha Hl t.
  pose proof (read_only_verdicts fl w' Hparse Ha Hl) as B.
  cbv zeta in B. fold t in B.
  apply orb_false_iff in B. destruct B as [B H2].
  apply orb_false_iff in B. destruct B as [H0 H1].
  pose proof (unseen_in read_only_checks_list 0 _ _ eq_refl H0) as N0.
  pose proof (unseen_in read_only_checks_list 1 _ _ eq_refl H1) as N1.
  pose proof (unseen_in read_only_checks_list 2 _ _ eq_refl H2) as N2.
  split; [|split; [|split]].
  - intros H. pose proof (N0 _ H). discriminate.
  - intros a n b H. pose proof (N0 _ H). discriminate.
  - intros name n r H. pose proof (N2 _ H). discriminate.
  - intros x H. pose proof (N1 _ H). discriminate.
Qed.

Lemma dump_verdicts (fl : flags) (w' : world D) :
  getopt_loop argv init_flags (mk_world d input env []) = (Normal fl, w') ->
  dump_config fl = true ->
  let o := run_outcome argc argv d input env in
  let q := verdicts dump_checks_list (run_trace argc argv d input env) in
  armed 0 q || armed 1 q || armed 2 q || armed 3 q = false /\
  implb (returned_0 o && (truthy (write_aprom fl) || truthy (write_ldrom fl)))
        (armed 4 q) = true.
Proof.
  intros Hparse Hd.
  apply (main_verdicts dump_checks_list argc argv d input env
           (fun _ x =>
              armed 0 (snd x) || armed 1 (snd x) || armed 2 (snd x)
              || armed 3 (snd x) = false /\
              implb (returned_0 (fst x)
                     && (truthy (write_aprom fl) || truthy (write_ldrom fl)))
                    (armed 4 (snd x)) = true)).
  watch_main_with
    ltac:(match goal with
          | E : forall w, getopt_loop _ _ w = _ |- _ =>
              rewrite E in Hparse
          end;
          inversion Hparse; subst fl; cbn in Hd; try discriminate);
    split; reflexivity.
Qed.

(** X19: When the options end in -u, the run opens, reads and writes no file,
    writes nothing to the chip and reads none of its flash but the
    configuration bytes.  A -w or -l given before the -u still has the
    chip mass-erased: such a run, when it returns 0, has erased the flash
    and written nothing. *)
Theorem configuration_only_runs (fl : flags) (w' : world D) :
  getopt_loop argv init_flags (mk_world d input env []) = (Normal fl, w') ->
  dump_config fl = true ->
  let o := run_outcome argc argv d input env in
  let t := run_trace argc argv d input env in
  (forall e, In e t -> is_file_io e = false) /\
  (forall a n b, ~ In (ICP_write_flash a n b) t) /\
  (forall a n b, ~ In (ICP_read_flash a n (Bytes b)) t) /\
  ~ In ICP_dump_config t /\
  (write_aprom fl = 1 \/ write_ldrom fl = 1 ->
   o = Returned 0 -> In ICP_mass_erase t).
Proof.
  intros Hparse Hd o t.
  pose proof (dump_verdicts fl w' Hparse Hd) as [B E].
  fold o in E. fold t in B, E.
  apply orb_false_iff in B. destruct B as [B H3].
  apply orb_false_iff in B. destruct B as [B H2].
  apply orb_false_iff in B. destruct B as [H0 H1].
  pose proof (unseen_in dump_checks_list 1 _ _ eq_refl H1) as N1.
  pose proof (unseen_in dump_checks_list 2 _ _ eq_refl H2) as N2.
  pose proof (unseen_in dump_checks_list 3 _ _ eq_refl H3) as N3.
  split; [exact (unseen_in dump_checks_list 0 _ _ eq_refl H0)|].
  split; [|split; [|split]].
  - intros a n b H. pose proof (N1 _ H). discriminate.
  - intros a n b H. pose proof (N2 _ H). discriminate.
  - intros H. pose proof (N3 _ H). discriminate.
  - intros Hw Ho. rewrite Ho in E.
    assert (Ht : truthy (write_aprom fl) || truthy (write_ldrom fl) = true)
      by (destruct Hw as [-> | ->]; [reflexivity | apply orb_true_r]).
    rewrite Ht in E. cbn [returned_0 Z.eqb andb implb] in E.
    destruct (seen_in dump_checks_list 4 _ _ eq_refl E) as (e & Hin & He).
    apply is_mass_erase_eq in He. subst e. exact Hin.
Qed.

End Modes.

(** ** Streams *)

Section Streams.

Context {L : Layout} {D : Type} {T : N51ICP D}.

Lemma option_case_files_named it fl fl' (w w' : world D) :
  has_arg it = true -> files_named fl ->
  option_case it fl w = (Normal fl', w') -> files_named fl'.
Proof.
  unfold has_arg, option_case, files_named.
  intros Harg [H1 H2].
  destruct (Ascii.eqb (opt it) "u").
  { intros E. inversion E. cbn. auto. }
  destruct (Ascii.eqb (opt it) "r").
  { cbn in Harg. intros E. inversion E. cbn.
    destruct (optarg it); [|discriminate]. split; [discriminate | exact H2]. }
  destruct (Ascii.eqb (opt it) "w").
  { cbn in Harg. intros E. inversion E. cbn.
    destruct (optarg it); [|discriminate]. split; [discriminate | exact H2]. }
  destruct (Ascii.eqb (opt it) "l").
  { cbn in Harg. intros E. inversion E. cbn.
    destruct (optarg it); [|discriminate]. split; [exact H1 | discriminate]. }
  destruct (Ascii.eqb (opt it) "s").
  { intros E. inversion E. cbn. auto. }
  unfold bind, eprintf, emit, usage, bind, goto. cbn. discriminate.
Qed.

Lemma getopt_loop_files_named items : forall fl fl' (w w' : world D),
  forallb has_arg items = true -> files_named fl ->
  getopt_loop items fl w = (Normal fl', w') -> files_named fl'.
Proof.
  induction items as [|it rest IH]; intros fl fl' w w' Hargs Hn E.
  - inversion E. subst. exact Hn.
  - cbn [forallb] in Hargs. apply andb_true_iff in Hargs.
    destruct Hargs as [Hit Hrest].
    cbn [getopt_loop] in E. unfold bind in E.
    destruct (option_case it fl w) as [[fl1 | l] w1] eqn:E1; [|discriminate].
    pose proof (option_case_files_named it fl fl1 w w1 Hit Hn E1) as Hn1.
    destruct (dump_config fl1).
    + inversion E. subst. exact Hn1.
    + exact (IH fl1 fl' w1 w' Hrest Hn1 E).
Qed.

Lemma init_flags_files_named : files_named init_flags.
Proof. split; discriminate. Qed.

Variables (argc : Z) (argv : list getopt_item).
Variables (d : D) (input : list Z) (env : os_env).

(** X20: [getopt] hands an argument over with each of -r, -w and -l.  Then
    [main] never calls [fread] or [fwrite] on a stream that is null:
    whenever it comes to use a file, [fopen] has delivered it. *)
Theorem no_stream_is_used_unopened :
  forallb has_arg argv = true ->
  run_outcome argc argv d input env <> Undefined.
Proof.
  intros Hargs.
  enough (is_undefined (run_outcome argc argv d input env) = false) as H
    by (intros E; rewrite E in H; discriminate).
  apply (main_verdicts [] argc argv d input env
           (fun _ x => is_undefined (fst x) = false)).
  unfold main_body; cbv zeta.
  repeat
    first
      [ lazymatch goal with
        | |- wpm _ (bind (open_files ?fl) _) _ _ =>
            eapply (wpm_bind_keep _ _ _ _ (opened fl));
            [ repeat (wpm_step_gen ltac:(fail) ltac:(idtac));
              lazymatch goal with
              | |- settled _ _ /\ _ /\ _ =>
                  split; [reflexivity | split; [exact I |]];
                  split; cbn; intros; first [discriminate | assumption | contradiction]
              | |- _ => idtac
              end
            | let Hf := fresh "Hf" in
              let Hfl := fresh "Hfl" in
              intros _ [[f|] [f'|]] [Hf Hfl]; cbn in Hf, Hfl;
              try (exfalso; apply Hf; [discriminate | reflexivity]);
              try (exfalso; apply Hfl; [discriminate | reflexivity]) ]
        end
      | wpm_step_with
          ltac:(idtac;
                match goal with
                | E : forall w, getopt_loop _ _ w = _ |- _ =>
                    let H1 := fresh in
                    let H2 := fresh in
                    destruct (getopt_loop_files_named _ _ _ _ _ Hargs
                                init_flags_files_named
                                (E (mk_world d input env []))) as [H1 H2];
                    cbn in H1, H2;
                    try (specialize (H1 eq_refl));
                    try (specialize (H2 eq_refl));
                    repeat match goal with
                           | H : ?x <> None |- _ =>
                               is_var x;
                               destruct x;
                               [clear H | exfalso; apply H; reflexivity]
                           end
                end) ].
  all: cbv beta iota delta [finish_verdicts]; cbn [fst].
  all: try reflexivity.
Qed.

End Streams.

(** ** The claims on the N76E003 *)

Module Examples.

Import N76E003.

Lemma layout_ok : LayoutOk layout.
Proof. constructor; vm_compute; try reflexivity; discriminate. Qed.

(** A loader of 2500 bytes plans a region of 3072 bytes. *)
Lemma C1_witness :
  exists lc' w',
    program_ldrom (Some loader_2500) initial_locals (start blank_chip [] [])
    = (Normal lc', w') /\
    l_chosen_ldrom_sz lc' = 3072 /\
    aprom_size 3072 + 3072 = FLASH_SIZE.
Proof.
  destruct (C1_loader_region_is_least_kib_multiple
              loader_2500 initial_locals (start blank_chip [] []))
    as (lc' & w' & E & Hsz & _ & _ & _ & Hcap).
  - vm_compute. discriminate.
  - vm_compute. split; discriminate.
  - exists lc', w'. split; [exact E|]. split.
    + rewrite Hsz. reflexivity.
    + reflexivity.
Defined.

(** A loader of 2500 bytes is 3 KiB: LDS = (7 - 3) & 7 = 4. *)
Lemma C2_witness :
  exists lc' w',
    program_ldrom (Some loader_2500) initial_locals (start blank_chip [] [])
    = (Normal lc', w') /\
    l_write_config lc' = mk_config 1 0 4 (Z.ones 35).
Proof.
  destruct (C2_loader_configuration loader_2500 (start blank_chip [] []))
    as (_ & lc' & w' & E & Hcfg & _).
  - vm_compute. discriminate.
  - vm_compute. split; discriminate.
  - exists lc', w'. split; [exact E | exact Hcfg].
Defined.

(** A loader of 4097 bytes is not refused: the run programs its first 4096
    bytes at the top of the flash and returns 0. *)
Lemma C3_counterexample :
  let o := run_outcome 5 [opt_w "aprom.bin"; opt_l "ldrom.bin"]
                       blank_chip [] (files disk) in
  let t := run_trace 5 [opt_w "aprom.bin"; opt_l "ldrom.bin"]
                     blank_chip [] (files disk) in
  LDROM_MAX_SIZE < Z.of_nat (List.length (f_data loader_4097)) /\
  o = Returned 0 /\
  existsb (fun e => match e with
                    | ICP_write_flash a n (Bytes _) =>
                        (a =? FLASH_SIZE - LDROM_MAX_SIZE)
                        && (n =? LDROM_MAX_SIZE)
                    | _ => false
                    end)
          t = true.
Proof. vm_compute. repeat split. Qed.

Lemma C3_witness :
  exists lc' w',
    program_ldrom (Some loader_4097) initial_locals (start blank_chip [] [])
    = (Normal lc', w') /\
    l_chosen_ldrom_sz lc' = 4096.
Proof.
  destruct (C3_oversized_loader_is_cut layout_ok loader_4097 initial_locals
              (start blank_chip [] []))
    as (lc' & w' & E & _ & _ & Hsz & _).
  - vm_compute. discriminate.
  - exists lc', w'. split; [exact E | exact Hsz].
Defined.

(** The locked chip, an application image to write, and the answer "n":
    the mass erase is performed all the same. *)
Lemma C4_witness :
  let t := run_trace 3 [opt_w "aprom.bin"] locked_chip [110] (files disk) in
  In ICP_mass_erase (skipn 13 t).
Proof.
  intros t.
  apply (C4_mass_erase_follows_any_answer
           3 [opt_w "aprom.bin"] locked_chip [110] (files disk)
           (firstn 12 t) (skipn 13 t) 110).
  vm_compute. reflexivity.
Defined.

(** A blank chip, asked to write and lock: the write that clears LOCK
    comes after a comparison that found no difference.  A chip whose flash
    does not take writes, asked the same: the comparison finds a
    difference, the run returns 1 and the chip is not locked. *)
Lemma C5_witness :
  let argv := [opt_w "aprom.bin"; opt_s] in
  let t := run_trace 4 argv blank_chip [] (files disk) in
  let o' := run_outcome 4 argv worn_chip [] (files disk) in
  let t' := run_trace 4 argv worn_chip [] (files disk) in
  (exists lc w2,
      memcmp (expected_flash lc)
             (buf_store (memset 0xff FLASH_SIZE) 0
                (fst (N51ICP_read_flash APROM_FLASH_ADDR FLASH_SIZE (dev w2))))
             (Z.to_nat FLASH_SIZE) = 0 /\
      firstn 48 t =
        trace w2 ++
        [ICP_read_flash APROM_FLASH_ADDR FLASH_SIZE
           (Bytes (buf_store (memset 0xff FLASH_SIZE) 0
                     (fst (N51ICP_read_flash APROM_FLASH_ADDR FLASH_SIZE
                                             (dev w2)))));
         Fprintf_stderr verified_msg []]) /\
  o' = Returned 1 /\
  (forall a n c, In (ICP_write_flash a n (Config c)) t' -> LOCK c <> 0).
Proof.
  intros argv t o' t'. split.
  - pose proof (C5_lock_only_after_verification
                  4 argv blank_chip [] (files disk)) as H.
    cbv zeta in H. destruct H as [H _].
    destruct (H (firstn 48 t) CFG_FLASH_ADDR CFG_FLASH_LEN
                (set_LOCK 0 get_default_config) (skipn 49 t))
      as (fl & file & file_ldrom & w1 & lc & w2
          & _ & _ & _ & Hm & Hpre & _).
    + vm_compute. reflexivity.
    + reflexivity.
    + exists lc, w2. split; [exact Hm | exact Hpre].
  - pose proof (C5_lock_only_after_verification
                  4 argv worn_chip [] (files disk)) as H.
    cbv zeta in H. destruct H as [_ H].
    specialize (H (mk_flags 1 0 0 false true (Some "aprom.bin"%string) None)
                  (Some app_file) None
                  (snd (preparation 4 argv (start worn_chip [] disk)))
                  (mk_locals 0 get_default_config
                     (memset 0xff LDROM_MAX_SIZE)
                     (buf_store (memset 0xff FLASH_SIZE) 0 app_image))
                  (snd (programming
                          (mk_flags 1 0 0 false true
                                    (Some "aprom.bin"%string) None)
                          (Some app_file) None
                          (snd (preparation 4 argv
                                  (start worn_chip [] disk)))))).
    assert (H' := H ltac:(vm_compute; reflexivity)
                    ltac:(vm_compute; reflexivity) eq_refl).
    clear H.
    match type of H' with
    | if ?c then _ else _ =>
        assert (Hm : c = false) by (vm_compute; reflexivity);
        rewrite Hm in H'
    end.
    destruct H' as (Ho & _ & Hno). split; [exact Ho | exact Hno].
Defined.

(** An application image as large as the flash, written with a loader of
    4097 bytes: the loader takes the top 4 KiB and the application write
    is cut to the 14 KiB below it. *)
Lemma C6_witness :
  exists write_data,
    In (ICP_write_flash 0 14336 (Bytes write_data))
       (run_trace 5 [opt_w "full.bin"; opt_l "ldrom.bin"] blank_chip []
                  (files disk_full)).
Proof.
  destruct (C6_application_write_stays_below_loader
              5 [opt_w "full.bin"; opt_l "ldrom.bin"] blank_chip []
              (files disk_full) layout_ok
              (mk_flags 1 1 0 false false (Some "full.bin"%string)
                        (Some "ldrom.bin"%string))
              full_file (Some loader_4097)
              (snd (preparation 5 [opt_w "full.bin"; opt_l "ldrom.bin"]
                      (start blank_chip [] disk_full))))
    as (lc1 & w1' & wd & post & _ & Ht & _ & _ & _ & _ & _ & _ & Hyes).
  - vm_compute. reflexivity.
  - reflexivity.
  - intros _. discriminate.
  - destruct (Hyes eq_refl) as (fld & cfg & data & Hf & Hr & _).
    inversion Hf. subst fld. cbv zeta in Ht. rewrite Hr in Ht.
    replace (Z.min (Z.of_nat (List.length (f_data full_file)))
                   (FLASH_SIZE - chosen_ldrom_sz (ldrom_size loader_4097)))
      with 14336 in Ht by (vm_compute; reflexivity).
    exists wd. rewrite Ht. apply in_or_app. right. cbn [app In]. auto.
Defined.

Lemma C7_witness :
  exists lc1 w1,
    program_aprom (Some app_file) initial_locals (start blank_chip [] [])
    = (Normal lc1, w1) /\
    expected_flash lc1 = app_image ++ repeat 0xFF (Z.to_nat FLASH_SIZE - 4).
Proof.
  destruct (C7_expected_image_and_comparison
              app_file (start blank_chip [] []))
    as (lc1 & w1 & E & Hexp & _).
  - vm_compute. discriminate.
  - exists lc1, w1. split; [exact E | exact Hexp].
Defined.

(** Reading a protected chip: the run stops at the configuration bytes. *)
Lemma C8_witness :
  run_outcome 3 [opt_r "dump.bin"] protected_chip [] (files disk)
  = Returned 1 /\
  In (Fprintf_stderr locked_msg [])
     (run_trace 3 [opt_r "dump.bin"] protected_chip [] (files disk)).
Proof.
  destruct (C8_locked_chip_is_not_read
              3 [opt_r "dump.bin"] protected_chip [] (files disk)
              (mk_flags 0 0 1 false false (Some "dump.bin"%string) None)
              (start protected_chip [] disk)
              eq_refl eq_refl eq_refl
              CFG_FLASH_ADDR CFG_FLASH_LEN
              (overlay [0xFD; 0xFF; 0xFF; 0xFF; 0xFF]))
    as (Hr & Hm & _).
  - apply (nth_error_In _ 6). vm_compute. reflexivity.
  - reflexivity.
  - split; [exact Hr | exact Hm].
Defined.

(** A blank chip, written successfully: the run ends with the two shutdown
    calls. *)
Lemma C9_witness :
  exists pre,
    run_trace 3 [opt_w "aprom.bin"] blank_chip [] (files disk)
    = pre ++ [ICP_exit; PGM_deinit 0].
Proof.
  pose proof (C9_shutdown_and_failure_reporting
                3 [opt_w "aprom.bin"] blank_chip [] (files disk)) as H.
  cbv zeta in H. destruct H as (_ & H & _).
  apply (fun Hin => H Hin 0).
  - apply (nth_error_In _ 1). vm_compute. reflexivity.
  - vm_compute. reflexivity.
Defined.

(** A programmer that does not start: the run returns 1 and never calls
    [N51ICP_exit] or [N51PGM_deinit]. *)
Lemma C9_counterexample :
  let o := run_outcome 3 [opt_w "aprom.bin"] dead_programmer [] (files disk) in
  let t := run_trace 3 [opt_w "aprom.bin"] dead_programmer [] (files disk) in
  o = Returned 1 /\
  existsb is_init_failure t = true /\
  existsb is_shutdown t = false.
Proof. vm_compute. repeat split. Qed.

(** ** Further properties on the N76E003 *)

(** -w FILE -u -r FILE runs as -w FILE -u. *)
Lemma options_after_u_example :
  run_trace 6 ([opt_w "aprom.bin"] ++ opt_u :: [opt_r "dump.bin"])
            blank_chip [] (files disk)
  = run_trace 6 ([opt_w "aprom.bin"] ++ [opt_u]) blank_chip [] (files disk).
Proof.
  apply (options_after_u_are_ignored 6 blank_chip [] (files disk)
           [opt_w "aprom.bin"] [opt_r "dump.bin"] None).
Defined.

(** -h after -w: the unknown-option message, the usage text, status 1. *)
Lemma help_option_witness :
  run_outcome 4 ([opt_w "aprom.bin"] ++ opt_h :: []) blank_chip []
              (files disk) = Exited 1 /\
  run_trace 4 ([opt_w "aprom.bin"] ++ opt_h :: []) blank_chip [] (files disk)
  = [Fprintf_stderr unknown_option_fmt [AChar "h"]; Usage_text].
Proof.
  apply (help_option_is_refused_as_unknown 4 blank_chip [] (files disk)
           [opt_w "aprom.bin"] [] opt_h).
  - lia.
  - reflexivity.
  - reflexivity.
Defined.

(** No argument at all. *)
Lemma unusable_command_line_witness :
  run_outcome 1 [] blank_chip [] (files disk) = Exited 1 /\
  run_trace 1 [] blank_chip [] (files disk) = [Usage_text].
Proof.
  pose proof (unusable_command_lines_are_refused
                1 blank_chip [] (files disk) []) as H.
  cbv zeta in H. destruct H as [H _]. apply H. lia.
Defined.

(** A loader of 2500 bytes: LDS is 4 and the region 3 KiB. *)
Lemma loader_region_LDS_witness :
  exists lc' w',
    program_ldrom (Some loader_2500) initial_locals (start blank_chip [] [])
    = (Normal lc', w') /\
    l_chosen_ldrom_sz lc' = (7 - LDS (l_write_config lc')) * 1024.
Proof.
  destruct (loader_region_is_told_by_LDS
              loader_2500 initial_locals (start blank_chip [] []))
    as (lc' & w' & E & H & _).
  exists lc', w'. split; [exact E|]. apply H. vm_compute. discriminate.
Defined.

Lemma loader_write_witness :
  exists lc' w' data,
    program_ldrom (Some loader_2500) initial_locals (start blank_chip [] [])
    = (Normal lc', w') /\
    In (ICP_write_flash (FLASH_SIZE - l_chosen_ldrom_sz lc') 2500 (Bytes data))
       (trace w').
Proof.
  destruct (loader_write_stays_in_its_region layout_ok
              loader_2500 initial_locals (start blank_chip [] []))
    as (lc' & w' & data & E & H & _).
  exists lc', w', data. split; [exact E | exact H].
Defined.

Lemma expected_image_with_loader_witness :
  exists lc1 w1 lc2 w2,
    program_ldrom (Some loader_2500) initial_locals (start blank_chip [] [])
    = (Normal lc1, w1) /\
    program_aprom (Some app_file) lc1 w1 = (Normal lc2, w2) /\
    List.length (expected_flash lc2) = Z.to_nat FLASH_SIZE.
Proof.
  destruct (expected_image_with_loader layout_ok loader_2500 app_file
              (start blank_chip [] []))
    as (lc1 & w1 & lc2 & w2 & E1 & E2 & _ & Hlen).
  exists lc1, w1, lc2, w2. split; [exact E1|]. split; [exact E2 | exact Hlen].
Defined.

(** Dumping the blank chip: all 18 KiB go to the file. *)
Lemma dump_witness :
  fst (read_out (Some dump_file) (memset 0xff FLASH_SIZE)
                (start blank_chip [] disk))
  = Normal tt.
Proof.
  destruct (dump_saves_what_was_read dump_file (memset 0xff FLASH_SIZE)
              (start blank_chip [] disk)) as [H _].
  - vm_compute. reflexivity.
  - rewrite length_memset. lia.
  - rewrite H. vm_compute. reflexivity.
Defined.

Lemma print_device_info_witness :
  fst (print_device_info some_info (start blank_chip [] [])) = Normal tt.
Proof.
  rewrite (print_device_info_prints_every_field some_info
             (start blank_chip [] []));
    reflexivity.
Defined.

(** No argument: the run exits through [usage]. *)
Lemma exit_witness :
  In Usage_text (run_trace 1 [] blank_chip [] (files disk)).
Proof.
  destruct (exit_happens_before_any_transport_call
              1 [] blank_chip [] (files disk) 1) as (_ & H & _).
  - vm_compute. reflexivity.
  - exact H.
Defined.

(** A file that is not there. *)
Lemma files_before_transport_witness :
  run_outcome 3 [opt_w "nofile.bin"] blank_chip [] (files disk) = Exited 1.
Proof.
  pose proof (files_are_opened_before_the_transport
                3 [opt_w "nofile.bin"] blank_chip [] (files disk)) as H.
  cbv zeta in H. destruct H as [_ H].
  destruct (H "nofile.bin"%string "rb"%string) as [Ho _]; [|exact Ho].
  apply (nth_error_In _ 0). vm_compute. reflexivity.
Defined.

(** Writing the blank chip: the write of the application is number 44 in
    the trace, the mass erase number 7. *)
Lemma mass_erase_first_witness :
  let t := run_trace 3 [opt_w "aprom.bin"] blank_chip [] (files disk) in
  In ICP_mass_erase (firstn 44 t).
Proof.
  intros t.
  pose proof (mass_erase_comes_first_and_once
                3 [opt_w "aprom.bin"] blank_chip [] (files disk)) as H.
  cbv zeta in H. destruct H as [H _].
  destruct (H (firstn 44 t) 0 4 (Bytes (app_image ++ repeat 255 (Z.to_nat FLASH_SIZE - 4)))
              (skipn 45 t)) as [Hin _]; [|exact Hin].
  vm_compute. reflexivity.
Defined.

Lemma stdin_witness :
  let t := run_trace 3 [opt_w "aprom.bin"] locked_chip [110] (files disk) in
  In (Fprintf_stderr prompt_msg []) (firstn 12 t).
Proof.
  intros t.
  destruct (stdin_is_read_once_after_the_prompt
              3 [opt_w "aprom.bin"] locked_chip [110] (files disk)
              (firstn 12 t) (skipn 13 t) 110) as [H _]; [|exact H].
  vm_compute. reflexivity.
Defined.

Lemma init_first_witness :
  let t := run_trace 3 [opt_w "aprom.bin"] blank_chip [] (files disk) in
  exists b r, In (ICP_init b r) (firstn 7 t).
Proof.
  intros t.
  pose proof (init_is_the_first_transport_call
                3 [opt_w "aprom.bin"] blank_chip [] (files disk)) as H.
  cbv zeta in H. destruct H as [H _].
  apply (H (firstn 7 t) ICP_mass_erase (skipn 8 t)).
  - vm_compute. reflexivity.
  - reflexivity.
Defined.

Lemma identity_witness :
  let t := run_trace 3 [opt_w "aprom.bin"] blank_chip [] (files disk) in
  In (ICP_read_device_id N76E003_DEVID) (firstn 7 t) \/
  In (Fprintf_stderr prompt_msg []) (firstn 7 t).
Proof.
  intros t.
  apply (nothing_is_changed_on_an_unknown_chip_unprompted
           3 [opt_w "aprom.bin"] blank_chip [] (files disk)
           (firstn 7 t) (skipn 8 t) ICP_mass_erase).
  - vm_compute. reflexivity.
  - reflexivity.
Defined.

Lemma failure_witness :
  exists e,
    In e (run_trace 3 [opt_w "aprom.bin"] dead_programmer [] (files disk)) /\
    (is_fatal e = true \/ e = Usage_text).
Proof.
  pose proof (failure_is_never_silent
                3 [opt_w "aprom.bin"] dead_programmer [] (files disk)) as H.
  cbv zeta in H. apply H.
  - vm_compute. discriminate.
  - vm_compute. reflexivity.
Defined.

Lemma status_zero_witness :
  let t := run_trace 3 [opt_w "aprom.bin"] blank_chip [] (files disk) in
  In (Fprintf_stderr verified_msg []) t \/
  (exists name data, In (Fwrite name data FLASH_SIZE FLASH_SIZE) t) \/
  (forall e, In e t -> is_file_io e = false).
Proof.
  apply (status_zero_means_the_work_was_done
           3 [opt_w "aprom.bin"] blank_chip [] (files disk)).
  vm_compute. reflexivity.
Defined.

(** A chip of another kind, asked for a dump. *)
Lemma unidentified_chip_witness :
  run_outcome 3 [opt_r "dump.bin"] foreign_chip [] (files disk) = Returned 1 /\
  ~ In ICP_mass_erase
       (run_trace 3 [opt_r "dump.bin"] foreign_chip [] (files disk)).
Proof.
  destruct (unidentified_chip_is_left_alone
              3 [opt_r "dump.bin"] foreign_chip [] (files disk))
    as (Ho & _ & He & _).
  - apply (nth_error_In _ 39). vm_compute. reflexivity.
  - split; [exact Ho | exact He].
Defined.

(** A dump of the blank chip changes nothing on it. *)
Lemma read_only_witness :
  let t := run_trace 3 [opt_r "dump.bin"] blank_chip [] (files disk) in
  ~ In ICP_mass_erase t /\ (forall a n b, ~ In (ICP_write_flash a n b) t).
Proof.
  intros t.
  destruct (runs_without_write_options_change_nothing
              3 [opt_r "dump.bin"] blank_chip [] (files disk)
              (mk_flags 0 0 1 false false (Some "dump.bin"%string) None)
              (start blank_chip [] disk) eq_refl eq_refl eq_refl)
    as (He & Hw & _).
  split; [exact He | exact Hw].
Defined.

(** -w FILE -u: nothing is written, and the chip is erased. *)
Lemma configuration_only_witness :
  let t := run_trace 4 [opt_w "aprom.bin"; opt_u] blank_chip [] (files disk) in
  (forall a n b, ~ In (ICP_write_flash a n b) t) /\ In ICP_mass_erase t.
Proof.
  intros t.
  destruct (configuration_only_runs
              4 [opt_w "aprom.bin"; opt_u] blank_chip [] (files disk)
              (mk_flags 1 0 0 true false (Some "aprom.bin"%string) None)
              (start blank_chip [] disk) eq_refl eq_refl)
    as (_ & Hw & _ & _ & He).
  split; [exact Hw|]. apply He.
  - left. reflexivity.
  - vm_compute. reflexivity.
Defined.

Lemma no_stream_witness :
  forallb has_arg [opt_w "aprom.bin"; opt_l "ldrom.bin"] = true /\
  run_outcome 5 [opt_w "aprom.bin"; opt_l "ldrom.bin"] blank_chip []
              (files disk) <> Undefined.
Proof.
  split; [reflexivity|].
  apply (no_stream_is_used_unopened
           5 [opt_w "aprom.bin"; opt_l "ldrom.bin"] blank_chip []
           (files disk)).
  reflexivity.
Defined.

End Examples.
